(** * AdversarialAttacks_SMILES2024: training loop and hyperparameter helpers

    A shallow embedding of [src/training/train.py] (EarlyStopper, Trainer,
    DiscTrainer._generate_adversarial_data) and of the search-space helpers of
    [src/utils.py], with the properties of the specification proved on them.

    Conventions of the embedding.
    - A finite float is a rational ([Q]); comparisons are exact, and [np.inf]
      is a separate constructor.  The arithmetic of the floats rounds: the
      addition of [EarlyStopper] is a [FloatAdd], the accumulation and the
      division of the losses are those of the trainer's collaborators, and
      the properties hold for whatever they compute.  The losses of the
      trainer, their sums and their means are finite floats.
    - A Python [int] is a [Z].
    - A Python [dict] is an association list in insertion order; [Dict.set]
      and [Dict.del] are the item assignment and [del] of Python.
    - A raised exception is the [Raise] result of the [result] type. *)

From Stdlib Require Import List String ZArith QArith Lia Bool.
Import ListNotations.

(** ** Floats *)

(** [x < y] on finite floats. *)
Definition Qltb (x y : Q) : bool := negb (Qle_bool y x).

(** A float that may be [np.inf]. *)
Inductive xfloat : Type :=
| Finite (q : Q)
| PosInf.

(** [x < y] for a finite [x] and a possibly infinite [y]. *)
Definition lt_x (x : Q) (y : xfloat) : bool :=
  match y with
  | Finite q => Qltb x q
  | PosInf => true
  end.

(** [x > y] for a finite [x] and a possibly infinite [y]. *)
Definition gt_x (x : Q) (y : xfloat) : bool :=
  match y with
  | Finite q => Qltb q x
  | PosInf => false
  end.

(** The value of a float sum: the sum of two finite floats is a finite float
    or, when it overflows, one of the infinities. *)
Inductive efloat : Type :=
| EFinite (q : Q)
| EPosInf
| ENegInf.

(** [x > y] for a finite [x] and the value [y] of a sum. *)
Definition gt_e (x : Q) (y : efloat) : bool :=
  match y with
  | EFinite q => Qltb q x
  | EPosInf => false
  | ENegInf => true
  end.

(** The addition of the floats.  It rounds, so it is not the addition of the
    rationals; the development takes it as it is, with the one law it uses:
    adding [0.0] to a finite float gives that float. *)
Record FloatAdd : Type := mk_FloatAdd {
  fadd : Q -> Q -> efloat;
  fadd_zero : forall x : Q, fadd x 0 = EFinite x
}.

(** [y + d] for a possibly infinite [y] and a finite [d]. *)
Definition add_x (F : FloatAdd) (y : xfloat) (d : Q) : efloat :=
  match y with
  | Finite q => fadd F q d
  | PosInf => EPosInf
  end.

(** *** The addition of the binary64 floats

    The sum of two Python floats is the exact sum rounded to the nearest
    float of 53 significant bits, ties to the even one, with the subnormal
    floats below [2^-1022] and an infinity from [2^1024] on. *)

(** [a / b] rounded to the nearest integer, ties to the even one
    ([0 <= a], [0 < b]). *)
Definition round_half_even (a b : Z) : Z :=
  let q := (a / b)%Z in
  let r := (a mod b)%Z in
  match (2 * r ?= b)%Z with
  | Lt => q
  | Gt => (q + 1)%Z
  | Eq => if Z.even q then q else (q + 1)%Z
  end.

(** The integer [k] with [2^k <= n / d < 2^(k+1)] ([0 < n], [0 < d]). *)
Definition floor_log2 (n d : Z) : Z :=
  let e0 := (Z.log2 n - Z.log2 d)%Z in
  if (d * 2 ^ Z.max 0 e0 <=? n * 2 ^ Z.max 0 (- e0))%Z then e0 else (e0 - 1)%Z.

(** The float nearest to [n / d], as a significand [m] and an exponent [e]
    (the float is [m * 2^e]); [None] when it overflows. *)
Definition round64_pos (n d : Z) : option (Z * Z) :=
  let e := Z.max (floor_log2 n d - 52) (-1074) in
  let m := if (0 <=? e)%Z then round_half_even n (d * 2 ^ e)
           else round_half_even (n * 2 ^ (- e)) d in
  if (2 ^ 1024 <=? m * 2 ^ Z.max 0 e)%Z then None else Some (m, e).

(** [m * 2^e]. *)
Definition scale (m e : Z) : Q :=
  if (0 <=? e)%Z then inject_Z (m * 2 ^ e) else Qmake m (Z.to_pos (2 ^ (- e))).

(** The binary64 float nearest to a rational. *)
Definition round64 (x : Q) : efloat :=
  match Qnum x with
  | Z0 => EFinite 0
  | Zpos n =>
      match round64_pos (Zpos n) (Zpos (Qden x)) with
      | Some (m, e) => EFinite (scale m e)
      | None => EPosInf
      end
  | Zneg n =>
      match round64_pos (Zpos n) (Zpos (Qden x)) with
      | Some (m, e) => EFinite (scale (- m) e)
      | None => ENegInf
      end
  end.

(** The addition that rounds the exact sum with [round]; a sum with [0.0]
    is the other float and needs no rounding. *)
Definition float_add_of (round : Q -> efloat) : FloatAdd :=
  {| fadd := fun x d => if (Qnum d =? 0)%Z then EFinite x else round (x + d);
     fadd_zero := fun x => eq_refl |}.

(** [x + d] on binary64 floats, the floats of Python. *)
Definition binary64 : FloatAdd := float_add_of round64.

(** The addition of an arithmetic without rounding error. *)
Definition unrounded : FloatAdd := float_add_of EFinite.

(** ** EarlyStopper (train.py, lines 34-53) *)

Module EarlyStopper.

Record t : Type := mk {
  patience : Z;
  min_delta : Q;
  counter : Z;
  min_validation_loss : xfloat
}.

(** [__init__(self, patience=1, min_delta=0.0)]: an argument that is not
    passed is [None] here and takes its default. *)
Definition init (patience : option Z) (min_delta : option Q) : t :=
  {| patience := match patience with Some p => p | None => 1%Z end;
     min_delta := match min_delta with Some d => d | None => 0 end;
     counter := 0%Z;
     min_validation_loss := PosInf |}.

(** [early_stop(self, validation_loss)]: the returned flag and the object
    after the call.  [F] is the addition of
    [self.min_validation_loss + self.min_delta]. *)
Definition early_stop (F : FloatAdd) (self : t) (validation_loss : Q) : bool * t :=
  if lt_x validation_loss (min_validation_loss self) then
    (false,
     {| patience := patience self;
        min_delta := min_delta self;
        counter := 0%Z;
        min_validation_loss := Finite validation_loss |})
  else if gt_e validation_loss (add_x F (min_validation_loss self) (min_delta self)) then
    let self' :=
      {| patience := patience self;
         min_delta := min_delta self;
         counter := (counter self + 1)%Z;
         min_validation_loss := min_validation_loss self |} in
    if (patience self' <=? counter self')%Z then (true, self') else (false, self')
  else (false, self).

(** The stopper after a sequence of calls, one loss per call. *)
Definition feed (F : FloatAdd) (self : t) (losses : list Q) : t :=
  fold_left (fun s x => snd (early_stop F s x)) losses self.

(** The flag returned for [x] after the losses [ls] went through a fresh stopper. *)
Definition stops_at (F : FloatAdd) (P : Z) (D : Q) (ls : list Q) (x : Q) : bool :=
  fst (early_stop F (feed F (init (Some P) (Some D)) ls) x).

(** *** The history of losses, read without the stopper *)

(** Best loss seen so far: the running minimum, [np.inf] before any loss. *)
Definition best_seen (ls : list Q) : xfloat :=
  fold_left (fun b x => if lt_x x b then Finite x else b) ls PosInf.

(** [x] exceeds the float sum of the best loss of the history and [D]. *)
Definition exceeds (F : FloatAdd) (D : Q) (best : xfloat) (x : Q) : bool :=
  gt_e x (add_x F best D).

(** The losses that came after the first occurrence of the value [m]. *)
Fixpoint after_first (m : Q) (ls : list Q) : list Q :=
  match ls with
  | [] => []
  | y :: r => if Qeq_bool y m then r else after_first m r
  end.

(** The losses observed since the last strict improvement, that is, after
    the first occurrence of the minimum. *)
Definition since_best (ls : list Q) : list Q :=
  match best_seen ls with
  | Finite m => after_first m ls
  | PosInf => []
  end.

(** How many losses since the last strict improvement exceeded the float sum
    of the best loss and [D]. *)
Definition exceed_count (F : FloatAdd) (D : Q) (ls : list Q) : Z :=
  Z.of_nat (List.length (filter (exceeds F D (best_seen ls)) (since_best ls))).

(** Length of the run of consecutive observations, ending with the last one,
    each of which exceeded the float sum of [D] and the best loss seen
    before it. *)
Fixpoint consecutive_from (F : FloatAdd) (D : Q) (best : xfloat) (run : nat) (ls : list Q) : nat :=
  match ls with
  | [] => run
  | x :: r =>
      consecutive_from F D
        (if lt_x x best then Finite x else best)
        (if exceeds F D best x then S run else O) r
  end.

Definition consecutive_exceed (F : FloatAdd) (D : Q) (ls : list Q) : nat :=
  consecutive_from F D PosInf O ls.

(** The reading of the specification: the flag is raised exactly on the
    [P]-th consecutive exceeding observation. *)
Definition stops_on_Pth_consecutive (F : FloatAdd) (P : Z) (D : Q) (ls : list Q) (x : Q) : Prop :=
  stops_at F P D ls x = true <-> Z.of_nat (consecutive_exceed F D (ls ++ [x])) = P.

(** The floats [0.1], [0.2] and [0.30000000000000004] of Python. *)
Definition float_0_1 : Q := 3602879701896397 # 36028797018963968.
Definition float_0_2 : Q := 3602879701896397 # 18014398509481984.
Definition float_0_30000000000000004 : Q := 1351079888211149 # 4503599627370496.

End EarlyStopper.

(** ** Exceptions *)

Inductive exn : Type :=
| AssertionError
| AttributeError
| KeyError (key : string)
| UnboundLocalError (name : string)
| ZeroDivisionError
| RuntimeError
| ValueError
| NotAMapping.  (* TypeError or AttributeError of a value used as a mapping *)

Inductive result (A : Type) : Type :=
| Return (a : A)
| Raise (e : exn).

Arguments Return {A} a.
Arguments Raise {A} e.

Definition bind {A B : Type} (m : result A) (f : A -> result B) : result B :=
  match m with
  | Return a => f a
  | Raise e => Raise e
  end.

Notation "x <- m ;; k" := (bind m (fun x => k))
  (at level 61, m at next level, right associativity).
Notation "' p <- m ;; k" := (bind m (fun x => let p := x in k))
  (at level 61, p pattern, m at next level, right associativity).

(** ** Python dictionaries *)

Module Dict.

Section Ops.
Variable V : Type.

Definition t : Type := list (string * V).

(** [d.get(k)] *)
Fixpoint get (k : string) (d : t) : option V :=
  match d with
  | [] => None
  | (k', v) :: r => if String.eqb k k' then Some v else get k r
  end.

(** [k in d] *)
Definition mem (k : string) (d : t) : bool :=
  match get k d with Some _ => true | None => false end.

(** [d[k]] *)
Definition item (k : string) (d : t) : result V :=
  match get k d with Some v => Return v | None => Raise (KeyError k) end.

(** [d[k] = v]: a key already present keeps its place, a new one goes last. *)
Fixpoint set (k : string) (v : V) (d : t) : t :=
  match d with
  | [] => [(k, v)]
  | (k', v') :: r => if String.eqb k k' then (k', v) :: r else (k', v') :: set k v r
  end.

(** [del d[k]] *)
Fixpoint del (k : string) (d : t) : result t :=
  match d with
  | [] => Raise (KeyError k)
  | (k', v') :: r =>
      if String.eqb k k' then Return r
      else r' <- del k r ;; Return ((k', v') :: r')
  end.

Definition keys (d : t) : list string := map fst d.

(** The keys are pairwise different: the list is the item list of a dict. *)
Fixpoint unique_keys (d : t) : bool :=
  match d with
  | [] => true
  | (k, _) :: r => negb (mem k r) && unique_keys r
  end.

(** [dict(zip(ks, vs))] and [{k: ... for k in ks}]: the pairs are inserted in order. *)
Definition of_pairs (kvs : list (string * V)) : t :=
  fold_left (fun d kv => set (fst kv) (snd kv) d) kvs [].

End Ops.

Arguments get {V} k d.
Arguments mem {V} k d.
Arguments item {V} k d.
Arguments set {V} k v d.
Arguments del {V} k d.
Arguments keys {V} d.
Arguments unique_keys {V} d.
Arguments of_pairs {V} kvs.

(** [for k, v in d.items(): acc = body(k, v, acc)], stopping at the first
    exception. *)
Definition for_items {V A : Type} (body : string -> V -> A -> result A)
  : list (string * V) -> A -> result A :=
  fix loop (its : list (string * V)) (acc : A) : result A :=
    match its with
    | [] => Return acc
    | (k, v) :: r =>
        match body k v acc with
        | Return acc' => loop r acc'
        | Raise e => Raise e
        end
    end.

End Dict.

(** ** Tensors *)

(** A tensor: its shape and its entries in row-major order. *)
Record tensor : Type := mk_tensor {
  shape : list nat;
  data : list Q
}.

(** [t.reshape(-1, 1)] *)
Definition reshape_col (t : tensor) : tensor :=
  {| shape := [List.length (data t); 1%nat]; data := data t |}.

(** [range(n)] *)
Definition range (n : Z) : list Z := map Z.of_nat (seq 0 (Z.to_nat n)).

(** ** Trainer (train.py, lines 56-340) *)

Module Trainer.

(** What the trainer calls and does not define: the model with its optimizer
    and learning-rate scheduler (their mutable state is the [World]), the loss
    function, the metric estimator, and the arithmetic of the floats, which
    rounds. *)
Record Collaborators : Type := {
  World : Type;
  Features : Type;
  Output : Type;
  (* self.model(x), after self.model.train(True) (true) or self.model.eval() (false) *)
  forward : World -> bool -> Features -> Output;
  (* self.criterion(y_out, labels) *)
  criterion : Output -> tensor -> Q;
  (* self.optimizer.zero_grad(); loss.backward(); self.optimizer.step() *)
  backward_step : World -> Features -> tensor -> World;
  (* torch.argmax(y_out, axis=1) and torch.round(y_out), entries in order *)
  argmax1 : Output -> list Q;
  round_out : Output -> list Q;
  (* self.estimator.estimate(y_all_true, y_all_pred) *)
  estimate : list Q -> list Q -> list Q;
  (* self.estimator.get_metrics_names() *)
  get_metrics_names : list string;
  (* self.scheduler.step() *)
  scheduler_step : World -> World;
  (* self.model.train_embedding(X_train, verbose=True) *)
  train_embedding : World -> list (Features * tensor) -> World;
  (* losses + loss, the addition of torch on the tensors of the losses *)
  tensor_add : Q -> Q -> Q;
  (* losses.cpu().detach().numpy() / n, the division of numpy by an int *)
  numpy_div : Q -> Z -> Q;
  (* self.min_validation_loss + self.min_delta in the EarlyStopper *)
  float_add : FloatAdd
}.

(** [early_stop_patience]: [None], the string ["None"], or an int. *)
Inductive patience_cfg : Type :=
| PatienceNone
| PatienceNoneString
| PatienceInt (p : Z).

(** The fields of [self] that [train_model] reads. *)
Record t : Type := mk {
  n_epochs : Z;
  early_stop_patience : patience_cfg;
  print_every : Z;
  has_scheduler : bool;      (* truth value of self.scheduler *)
  multiclass : bool;
  self_supervised : bool     (* self.model.self_supervised *)
}.

(** [losses = 0] is a Python int until the first [losses += loss] makes it a tensor. *)
Inductive pynum : Type :=
| PyInt (z : Z)
| PyTensor (q : Q).

(** [losses.cpu().detach().numpy()]: an int has no [cpu]. *)
Definition to_numpy (losses : pynum) : result Q :=
  match losses with
  | PyTensor q => Return q
  | PyInt _ => Raise AttributeError
  end.

Section Loop.
Variable c : Collaborators.

(** A loader, as the batches [(x, labels)] it yields; [len(loader)] is their number. *)
Definition loader : Type := list (Features c * tensor).

(** [losses += loss]: the addition is the one of the tensors, also when
    [losses] is still the int. *)
Definition add_loss (losses : pynum) (loss : Q) : pynum :=
  match losses with
  | PyInt z => PyTensor (tensor_add c (inject_Z z) loss)
  | PyTensor q => PyTensor (tensor_add c q loss)
  end.

(** The losses accumulated from [0] in their order, as [losses += loss]
    does: [((0 + l1) + l2) + ...] with the addition of the tensors. *)
Definition tensor_sum (ls : list Q) : Q :=
  fold_left (tensor_add c) ls (inject_Z 0).

(** What [train_model] changes: the collaborators' state, [self.dict_logging]
    and the scalars written to [self.logger] ([None] when there is no logger). *)
Record state : Type := mk_state {
  world : World c;
  dict_logging : Dict.t (Dict.t (list Q));
  logger : option (list (string * Q * Z))
}.

Definition with_world (st : state) (w : World c) : state :=
  {| world := w; dict_logging := dict_logging st; logger := logger st |}.

(** The local variables of a step that change from batch to batch. *)
Record batch_acc : Type := mk_acc {
  losses : pynum;
  y_all_pred : list Q;
  y_all_true : list Q;
  acc_world : World c
}.

Definition y_pred_of (self : t) (y_out : Output c) : list Q :=
  if multiclass self then argmax1 c y_out else round_out c y_out.

(** One turn of the batch loop of [_train_step]. *)
Definition train_batch (self : t) (a : batch_acc) (b : Features c * tensor) : batch_acc :=
  let (x, labels) := b in
  let y_out := forward c (acc_world a) true x in
  let loss := criterion c y_out labels in
  {| losses := add_loss (losses a) loss;
     y_all_pred := y_all_pred a ++ y_pred_of self y_out;
     y_all_true := y_all_true a ++ data labels;
     acc_world := backward_step c (acc_world a) x labels |}.

(** One turn of the batch loop of [_valid_step]. *)
Definition valid_batch (self : t) (a : batch_acc) (b : Features c * tensor) : batch_acc :=
  let (x, labels) := b in
  let labels := reshape_col labels in
  let y_out := forward c (acc_world a) false x in
  let loss := criterion c y_out labels in
  {| losses := add_loss (losses a) loss;
     y_all_pred := y_all_pred a ++ y_pred_of self y_out;
     y_all_true := y_all_true a ++ data labels;
     acc_world := acc_world a |}.

Definition start_acc (w : World c) : batch_acc :=
  {| losses := PyInt 0; y_all_pred := []; y_all_true := []; acc_world := w |}.

(** What follows the batch loop in both steps. *)
Definition finish_step (l : loader) (a : batch_acc) : result (list Q * World c) :=
  numer <- to_numpy (losses a) ;;
  let mean_loss := numpy_div c numer (Z.of_nat (List.length l)) in
  let metrics := estimate c (y_all_true a) (y_all_pred a) in
  Return (mean_loss :: metrics, acc_world a).

(** [_train_step(self, loader)] *)
Definition _train_step (self : t) (l : loader) (w : World c) : result (list Q * World c) :=
  finish_step l (fold_left (train_batch self) l (start_acc w)).

(** [_valid_step(self, loader)] *)
Definition _valid_step (self : t) (l : loader) (w : World c) : result (list Q * World c) :=
  finish_step l (fold_left (valid_batch self) l (start_acc w)).

(** The losses of the batches of a training step, in the order computed. *)
Fixpoint batch_losses (l : loader) (w : World c) : list Q :=
  match l with
  | [] => []
  | (x, labels) :: r =>
      criterion c (forward c w true x) labels
        :: batch_losses r (backward_step c w x labels)
  end.

(** [_logging(self, data, epoch, mode)] *)
Definition _logging (st : state) (data : Dict.t Q) (epoch : Z) (mode : string)
  : result state :=
  metrics <- Dict.item mode (dict_logging st) ;;
  Dict.for_items
    (fun metric (_ : list Q) st =>
       per_mode <- Dict.item mode (dict_logging st) ;;
       series <- Dict.item metric per_mode ;;
       v <- Dict.item metric data ;;
       let logged := Dict.set mode (Dict.set metric (series ++ [v]) per_mode) (dict_logging st) in
       match logger st with
       | None => Raise AttributeError
       | Some scalars =>
           Return {| world := world st;
                     dict_logging := logged;
                     logger := Some (scalars ++ [(metric ++ "/" ++ mode, v, epoch)%string]) |}
       end)
    metrics st.

(** The progress line: the metrics it reads must be there. *)
Definition print_line (train_metrics_epoch test_metrics_epoch : Dict.t Q) : result unit :=
  _ <- Dict.item "loss" train_metrics_epoch ;;
  _ <- Dict.item "accuracy" train_metrics_epoch ;;
  _ <- Dict.item "loss" test_metrics_epoch ;;
  _ <- Dict.item "accuracy" test_metrics_epoch ;;
  _ <- Dict.item "f1" test_metrics_epoch ;;
  _ <- Dict.item "balance_pred" test_metrics_epoch ;;
  Return tt.

(** [if self.early_stop_patience and self.early_stop_patience != "None":
       earl_stopper = EarlyStopper(self.early_stop_patience)] *)
Definition make_stopper (self : t) : option EarlyStopper.t :=
  match early_stop_patience self with
  | PatienceInt p =>
      if (p =? 0)%Z then None else Some (EarlyStopper.init (Some p) None)
  | PatienceNone | PatienceNoneString => None
  end.

(** The body of the epoch loop up to the early-stopping test: the metrics of
    the validation split and the state after the epoch. *)
Definition epoch_body (self : t) (metric_names : list string)
  (train_loader valid_loader : loader) (st : state) (epoch : Z)
  : result (Dict.t Q * state) :=
  ' (train_values, w1) <- _train_step self train_loader (world st) ;;
  let train_metrics_epoch := Dict.of_pairs (combine metric_names train_values) in
  st1 <- _logging (with_world st w1) train_metrics_epoch epoch "train" ;;
  ' (test_values, w2) <- _valid_step self valid_loader (world st1) ;;
  let test_metrics_epoch := Dict.of_pairs (combine metric_names test_values) in
  st2 <- _logging (with_world st1 w2) test_metrics_epoch epoch "test" ;;
  _ <- (if (print_every self =? 0)%Z then Raise ZeroDivisionError
        else if (epoch mod print_every self =? 0)%Z
             then print_line train_metrics_epoch test_metrics_epoch
             else Return tt) ;;
  let st3 := if has_scheduler self
             then with_world st2 (scheduler_step c (world st2)) else st2 in
  Return (test_metrics_epoch, st3).

(** [for epoch in range(self.n_epochs): ...]: the value of
    [test_metrics_epoch] when the loop is left ([None] while unbound) and
    the state. *)
Fixpoint epoch_loop (self : t) (metric_names : list string)
  (train_loader valid_loader : loader) (epochs : list Z) (st : state)
  (earl_stopper : option EarlyStopper.t) (test_metrics_epoch : option (Dict.t Q))
  : result (option (Dict.t Q) * state) :=
  match epochs with
  | [] => Return (test_metrics_epoch, st)
  | epoch :: rest =>
      ' (metrics, st') <- epoch_body self metric_names train_loader valid_loader st epoch ;;
      match earl_stopper with
      | Some stopper =>
          loss <- Dict.item "loss" metrics ;;
          let (res_early_stop, stopper') :=
            EarlyStopper.early_stop (float_add c) stopper loss in
          if res_early_stop then Return (Some metrics, st')
          else epoch_loop self metric_names train_loader valid_loader rest st'
                 (Some stopper') (Some metrics)
      | None =>
          epoch_loop self metric_names train_loader valid_loader rest st'
            None (Some metrics)
      end
  end.

Definition metric_names_of : list string := "loss"%string :: get_metrics_names c.

(** [self.dict_logging] as [train_model] resets it. *)
Definition fresh_logging : Dict.t (Dict.t (list Q)) :=
  [("train"%string, Dict.of_pairs (map (fun m => (m, @nil Q)) metric_names_of));
   ("test"%string, Dict.of_pairs (map (fun m => (m, @nil Q)) metric_names_of))].

(** The state with which the epoch loop is entered. *)
Definition enter_loop (self : t) (train_loader : loader) (st : state) : state :=
  {| world := if self_supervised self
              then train_embedding c (world st) train_loader else world st;
     dict_logging := fresh_logging;
     logger := logger st |}.

(** [train_model(self, train_loader, valid_loader)] *)
Definition train_model (self : t) (train_loader valid_loader : loader) (st : state)
  : result (Dict.t Q * state) :=
  ' (last, st') <- epoch_loop self metric_names_of train_loader valid_loader
                     (range (n_epochs self)) (enter_loop self train_loader st)
                     (make_stopper self) None ;;
  match last with
  | Some test_metrics_epoch => Return (test_metrics_epoch, st')
  | None => Raise (UnboundLocalError "test_metrics_epoch")
  end.

(** The epochs one after the other with no early stopping: the validation
    metrics of each and the state after the last. *)
Fixpoint run_epochs (self : t) (train_loader valid_loader : loader)
  (epochs : list Z) (st : state) : result (list (Dict.t Q) * state) :=
  match epochs with
  | [] => Return ([], st)
  | epoch :: rest =>
      ' (metrics, st') <- epoch_body self metric_names_of train_loader valid_loader st epoch ;;
      ' (more, st'') <- run_epochs self train_loader valid_loader rest st' ;;
      Return (metrics :: more, st'')
  end.

(** The validation losses of a sequence of epochs are the given ones. *)
Definition losses_are (ms : list (Dict.t Q)) (vs : list Q) : Prop :=
  Forall2 (fun m q => exists v, Dict.get "loss" m = Some v /\ v == q) ms vs.

End Loop.

(** *** A small run, for examples *)

(** Validation losses by epoch. *)
Definition demo_losses : list Q :=
  [1; 9 # 10; 95 # 100; 96 # 100; 97 # 100; 98 # 100; 99 # 100; 1; 1; 1].

(** Collaborators whose state counts the steps of the scheduler, that is, the
    epochs done, and whose loss in an epoch is the entry of [demo_losses].
    Their arithmetic does not round: with one batch in a loader the step
    computes [0 + loss] and [loss / 1], and the stopper of [train_model]
    adds [0.0], all of which the floats compute exactly. *)
Definition demo_collaborators : Collaborators :=
  {| World := nat;
     Features := unit;
     Output := Q;
     forward := fun w _ _ => nth w demo_losses 1;
     criterion := fun y_out _ => y_out;
     backward_step := fun w _ _ => w;
     argmax1 := fun _ => [1];
     round_out := fun _ => [1];
     estimate := fun _ _ => [1; 1; 1];
     get_metrics_names := ["accuracy"; "f1"; "balance_pred"]%string;
     scheduler_step := S;
     train_embedding := fun w _ => w;
     tensor_add := Qplus;
     numpy_div := fun q n => q / inject_Z n;
     float_add := unrounded |}.

(** A loader of one batch. *)
Definition demo_loader : loader demo_collaborators :=
  [(tt, {| shape := [1%nat]; data := [1] |})].

(** A trainer of ten epochs and patience three, with a scheduler. *)
Definition demo_self : t :=
  {| n_epochs := 10; early_stop_patience := PatienceInt 3; print_every := 5;
     has_scheduler := true; multiclass := false; self_supervised := false |}.

(** The same trainer with no epoch to run. *)
Definition demo_self_no_epoch : t :=
  {| n_epochs := 0; early_stop_patience := PatienceInt 3; print_every := 5;
     has_scheduler := true; multiclass := false; self_supervised := false |}.

(** The state before [train_model]: a logger that has written nothing. *)
Definition demo_state : state demo_collaborators :=
  mk_state demo_collaborators O [] (Some []).

(** The first five epochs of the run. *)
Definition demo_five_epochs
  : result (list (Dict.t Q) * state demo_collaborators) :=
  Eval vm_compute in
    run_epochs demo_collaborators demo_self demo_loader demo_loader (range 5)
      (enter_loop demo_collaborators demo_self demo_loader demo_state).

Definition demo_metrics : list (Dict.t Q) :=
  Eval vm_compute in
    match demo_five_epochs with
    | Return (ms, _) => ms
    | Raise _ => []
    end.

Definition demo_state5 : state demo_collaborators :=
  Eval vm_compute in
    match demo_five_epochs with
    | Return (_, st) => st
    | Raise _ => demo_state
    end.

Definition demo_stopper : EarlyStopper.t := EarlyStopper.init (Some 3%Z) None.

Definition demo_history : list Q := [1; 9 # 10].

End Trainer.

(** ** DiscTrainer._generate_adversarial_data (train.py, lines 483-502) *)

Module DiscTrainer.

(** [a == b] on shapes. *)
Fixpoint shape_eqb (a b : list nat) : bool :=
  match a, b with
  | [], [] => true
  | x :: a', y :: b' => Nat.eqb x y && shape_eqb a' b'
  | _, _ => false
  end.

(** The shape after [squeeze(-1)]: a last dimension of size 1 is removed. *)
Fixpoint squeeze_shape (s : list nat) : list nat :=
  match s with
  | [] => []
  | [d] => if Nat.eqb d 1 then [] else [d]
  | d :: r => d :: squeeze_shape r
  end.

(** [t.squeeze(-1)] *)
Definition squeeze_last (t : tensor) : tensor :=
  {| shape := squeeze_shape (shape t); data := data t |}.

(** [torch.zeros_like(t)] and [torch.ones_like(t)] *)
Definition zeros_like (t : tensor) : tensor :=
  {| shape := shape t; data := repeat 0 (List.length (data t)) |}.

Definition ones_like (t : tensor) : tensor :=
  {| shape := shape t; data := repeat 1 (List.length (data t)) |}.

(** [torch.concat([a, b], dim=0)]: both need a first dimension and the same
    remaining ones. *)
Definition concat0 (a b : tensor) : result tensor :=
  match shape a, shape b with
  | na :: ra, nb :: rb =>
      if shape_eqb ra rb
      then Return {| shape := (na + nb)%nat :: ra; data := data a ++ data b |}
      else Raise RuntimeError
  | _, _ => Raise RuntimeError
  end.

Section Generate.
(** The type of the transforms a dataset may carry. *)
Variable Transform : Type.

(** Modelled from the spec: the dataset class of the loader is not among the
    sources.  Built from features, labels and a transform, it holds them
    under the attributes [X] and [y] that this method reads. *)
Record Dataset : Type := mk_dataset {
  X : tensor;
  y : tensor;
  transform : option Transform
}.

(** The attributes of a [DataLoader] that the method reads or sets; the
    batch size is a positive int, or [None] for a loader that does not batch. *)
Record DataLoader : Type := mk_loader {
  dataset : Dataset;
  batch_size : option positive;
  shuffle : bool
}.

(** Modelled from the spec: [len(dataset)], which the dataset class defines,
    is the number of feature rows. *)
Definition len_dataset (ds : Dataset) : nat :=
  match shape (X ds) with
  | n :: _ => n
  | [] => O
  end.

(** [DataLoader(dataset, batch_size=batch_size, shuffle=True)]: the random
    sampler of a shuffling loader raises [ValueError] on a dataset of no
    sample. *)
Definition new_shuffling_loader (ds : Dataset) (batch_size : option positive)
  : result DataLoader :=
  if Nat.eqb (len_dataset ds) 0 then Raise ValueError
  else Return {| dataset := ds; batch_size := batch_size; shuffle := true |}.

(** [self.attack.apply_attack] *)
Variable apply_attack : DataLoader -> tensor.

(** [_generate_adversarial_data(self, loader, transform=None)] *)
Definition _generate_adversarial_data (loader : DataLoader) (transform : option Transform)
  : result DataLoader :=
  let X_orig := X (dataset loader) in
  let X_adv := squeeze_last (apply_attack loader) in
  if shape_eqb (shape X_orig) (shape X_adv) then
    let disc_labels_zeros := zeros_like (y (dataset loader)) in
    let disc_labels_ones := ones_like (y (dataset loader)) in
    new_x <- concat0 X_orig X_adv ;;
    new_y <- concat0 disc_labels_zeros disc_labels_ones ;;
    let dataset := {| X := new_x; y := new_y; transform := transform |} in
    new_shuffling_loader dataset (batch_size loader)
  else Raise AssertionError.

(** *** Samples of a dataset *)

(** Number of entries of a tensor of shape [s]. *)
Definition numel (s : list nat) : nat := fold_right Nat.mul 1%nat s.

(** A tensor holds as many entries as its shape says. *)
Definition tensor_ok (t : tensor) : Prop := List.length (data t) = numel (shape t).

(** [n] consecutive pieces of [k] entries each. *)
Fixpoint chunks (n k : nat) (l : list Q) : list (list Q) :=
  match n with
  | O => []
  | S n' => firstn k l :: chunks n' k (skipn k l)
  end.

(** The slices of a tensor along its first dimension. *)
Definition rows (t : tensor) : list (list Q) :=
  match shape t with
  | [] => []
  | n :: rest => chunks n (numel rest) (data t)
  end.

(** The samples of a dataset: the [i]-th feature row with the [i]-th label row. *)
Definition samples (ds : Dataset) : list (list Q * list Q) :=
  combine (rows (X ds)) (rows (y ds)).

(** The reading of the specification: whenever the shape of what the attack
    returns is the shape of the features, a loader of twice the samples is
    returned. *)
Definition doubles_when_attack_shape_matches (loader : DataLoader)
  (transform : option Transform) : Prop :=
  shape (apply_attack loader) = shape (X (dataset loader)) ->
  exists loader',
    _generate_adversarial_data loader transform = Return loader' /\
    List.length (samples (dataset loader'))
    = (2 * List.length (samples (dataset loader)))%nat.

(** The reading of the specification: the method fails exactly when the
    shape of what the attack returns is not the shape of the features. *)
Definition fails_iff_attack_shape_differs (loader : DataLoader)
  (transform : option Transform) : Prop :=
  (exists e, _generate_adversarial_data loader transform = Raise e) <->
  shape (apply_attack loader) <> shape (X (dataset loader)).

End Generate.

(** *** Small loaders, for examples *)

(** Two series of length three, and an attack whose output carries one more
    dimension of size 1 at the end. *)
Definition wide_loader : DataLoader unit :=
  {| dataset := {| X := {| shape := [2; 3]%nat; data := [1; 2; 3; 4; 5; 6] |};
                   y := {| shape := [2]%nat; data := [0; 1] |};
                   transform := None |};
     batch_size := Some 2%positive;
     shuffle := false |}.

Definition channel_attack (loader : DataLoader unit) : tensor :=
  {| shape := shape (X unit (dataset unit loader)) ++ [1%nat];
     data := map (fun v => v + (1 # 10)) (data (X unit (dataset unit loader))) |}.

(** Two series of length one, and an attack whose output has the shape of
    the features. *)
Definition thin_loader : DataLoader unit :=
  {| dataset := {| X := {| shape := [2; 1]%nat; data := [1; 2] |};
                   y := {| shape := [2]%nat; data := [0; 1] |};
                   transform := None |};
     batch_size := Some 2%positive;
     shuffle := false |}.

Definition same_shape_attack (loader : DataLoader unit) : tensor :=
  {| shape := shape (X unit (dataset unit loader));
     data := map (fun v => v + (1 # 10)) (data (X unit (dataset unit loader))) |}.

(** No series at all: features of shape (0, 3) and no label. *)
Definition empty_loader : DataLoader unit :=
  {| dataset := {| X := {| shape := [0; 3]%nat; data := [] |};
                   y := {| shape := [0]%nat; data := [] |};
                   transform := None |};
     batch_size := Some 2%positive;
     shuffle := false |}.

End DiscTrainer.

(** ** Search-space helpers (utils.py, lines 42-119) *)

Module Utils.

#[local] Unset Elimination Schemes.

(** Scalars and lists of a configuration. *)
Inductive pyval : Type :=
| VNone
| VBool (b : bool)
| VInt (z : Z)
| VFloat (q : Q)
| VStr (s : string)
| VList (l : list pyval).

(** A node of a configuration ([DictConfig]): a value or a mapping. *)
Inductive cfg : Type :=
| CVal (v : pyval)
| CMap (items : list (string * cfg)).

(** A value the helpers build: a Python [dict] ([isinstance(v, dict)] holds)
    or any other object, which is a configuration value. *)
Inductive param : Type :=
| PObj (v : cfg)
| PDict (items : list (string * param)).

Definition pdict : Type := list (string * param).

(** [None] *)
Definition PNone : param := PObj (CVal VNone).

(** [v == s] for a string literal [s]. *)
Definition is_str (s : string) (v : cfg) : bool :=
  match v with
  | CVal (VStr s') => String.eqb s' s
  | _ => false
  end.

(** The trial of the search backend: what the helpers call on it. *)
Record Sampler : Type := {
  Trial : Type;
  (* trial.suggest_int, called with the keyword arguments optuna_params *)
  suggest_int : Trial -> Dict.t cfg -> result (cfg * Trial);
  (* trial.suggest_float, called with the keyword arguments optuna_params *)
  suggest_float : Trial -> Dict.t cfg -> result (cfg * Trial);
  (* trial.suggest_categorical, called with the keyword arguments optuna_params *)
  suggest_categorical : Trial -> Dict.t cfg -> result (cfg * Trial)
}.

(** [get_optuna_param_for_type] *)
Definition get_optuna_param_for_type (S : Sampler) (param_name : string)
  (optuna_type : cfg) (optuna_params : Dict.t cfg)
  (initial_model_parameters : pdict) (trial : Trial S)
  : result (pdict * Trial S) :=
  if is_str "int" optuna_type then
    ' (v, trial') <- suggest_int S trial optuna_params ;;
    Return (Dict.set param_name (PObj v) initial_model_parameters, trial')
  else if is_str "float" optuna_type then
    ' (v, trial') <- suggest_float S trial optuna_params ;;
    Return (Dict.set param_name (PObj v) initial_model_parameters, trial')
  else if is_str "choice" optuna_type then
    ' (v, trial') <- suggest_categorical S trial optuna_params ;;
    Return (Dict.set param_name (PObj v) initial_model_parameters, trial')
  else if is_str "const" optuna_type then
    v <- Dict.item "value" optuna_params ;;
    Return (Dict.set param_name (PObj v) initial_model_parameters, trial)
  else Return (initial_model_parameters, trial).

(** One turn of the loop of [update_one_best_param] on an entry that is not a dict. *)
Definition update_leaf (best_param_name : string) (best_param_value : param)
  (def_param_name : string) (final_best_params : pdict) : pdict :=
  if String.eqb best_param_name def_param_name
  then Dict.set best_param_name best_param_value final_best_params
  else final_best_params.

(** [update_one_best_param] on a value: a dict is gone through entry by
    entry, the dicts among its values recursively; another value is left. *)
Fixpoint update_node (best_param_name : string) (best_param_value : param)
  (node : param) {struct node} : param :=
  match node with
  | PObj _ => node
  | PDict final_best_params =>
      PDict
        (fold_left
           (fun acc entry =>
              let '(def_param_name, def_param_value) := entry in
              match def_param_value with
              | PDict _ =>
                  Dict.set def_param_name
                    (update_node best_param_name best_param_value def_param_value) acc
              | PObj _ => update_leaf best_param_name best_param_value def_param_name acc
              end)
           final_best_params final_best_params)
  end.

Definition items_of (p : param) : pdict :=
  match p with
  | PDict d => d
  | PObj _ => []
  end.

(** [update_one_best_param(best_param_name, best_param_value, final_best_params)] *)
Definition update_one_best_param (best_param_name : string) (best_param_value : param)
  (final_best_params : pdict) : pdict :=
  items_of (update_node best_param_name best_param_value (PDict final_best_params)).

(** [copy.deepcopy]: values are not shared here. *)
Definition deepcopy (d : pdict) : pdict := d.

(** [update_trainer_params(best_params, default_params)] *)
Definition update_trainer_params (best_params : pdict) (default_params : pdict) : pdict :=
  fold_left
    (fun final_best_params entry =>
       update_one_best_param (fst entry) (snd entry) final_best_params)
    best_params (deepcopy default_params).

(** The entry [collect_default_params] makes for a leaf. *)
Definition default_of_leaf (fields : Dict.t cfg) : result param :=
  optuna_type <- Dict.item "optuna_type" fields ;;
  if is_str "const" optuna_type
  then v <- Dict.item "value" fields ;; Return (PObj v)
  else Return PNone.

(** [collect_default_params(params_vary)] *)
Fixpoint collect_default_params (params_vary : cfg) : result pdict :=
  match params_vary with
  | CVal _ => Raise NotAMapping
  | CMap items =>
      Dict.for_items
        (fun param_name param_value initial_model_parameters =>
           match param_value with
           | CVal _ => Raise NotAMapping
           | CMap fields =>
               if Dict.mem "optuna_type" fields then
                 v <- default_of_leaf fields ;;
                 Return (Dict.set param_name v initial_model_parameters)
               else
                 sub_init <- collect_default_params param_value ;;
                 Return (Dict.set param_name (PDict sub_init) initial_model_parameters)
           end)
        items []
  end.

(** The keyword arguments made of a leaf: [dict(param_value)] without
    ['optuna_type'] and with ['name']. *)
Definition kwargs_of_leaf (param_name : string) (fields : Dict.t cfg)
  : result (Dict.t cfg) :=
  optuna_params <- Dict.del "optuna_type" fields ;;
  Return (Dict.set "name" (CVal (VStr param_name)) optuna_params).

(** [get_optimization_dict(params_vary, trial)] *)
Fixpoint get_optimization_dict (S : Sampler) (params_vary : cfg) (trial : Trial S)
  : result (pdict * Trial S) :=
  match params_vary with
  | CVal _ => Raise NotAMapping
  | CMap items =>
      Dict.for_items
        (fun param_name param_value (acc : pdict * Trial S) =>
           let '(initial_model_parameters, trial) := acc in
           match param_value with
           | CVal _ => Raise NotAMapping
           | CMap fields =>
               if Dict.mem "optuna_type" fields then
                 optuna_params <- kwargs_of_leaf param_name fields ;;
                 optuna_type <- Dict.item "optuna_type" fields ;;
                 get_optuna_param_for_type S param_name optuna_type optuna_params
                   initial_model_parameters trial
               else
                 ' (sub_init, trial') <- get_optimization_dict S param_value trial ;;
                 Return (Dict.set param_name (PDict sub_init) initial_model_parameters,
                         trial')
           end)
        items ([], trial)
  end.

(** *** Shapes and paths *)

(** The nesting of a tree and its keys, level by level. *)
Inductive skeleton : Type :=
| SLeaf
| SNode (children : list (string * skeleton)).

#[local] Set Elimination Schemes.

(** A node of the search space is a leaf when it carries ['optuna_type']. *)
Fixpoint space_skeleton (c : cfg) : skeleton :=
  match c with
  | CVal _ => SLeaf
  | CMap items =>
      if Dict.mem "optuna_type" items then SLeaf
      else SNode (map (fun entry => (fst entry, space_skeleton (snd entry))) items)
  end.

(** A value of a parameter tree is a leaf when it is not a dict. *)
Fixpoint param_skeleton (p : param) : skeleton :=
  match p with
  | PObj _ => SLeaf
  | PDict items => SNode (map (fun entry => (fst entry, param_skeleton (snd entry))) items)
  end.

(** The value reached from [p] by the keys of [path], one level per key. *)
Fixpoint param_at (path : list string) (p : param) : option param :=
  match path with
  | [] => Some p
  | k :: rest =>
      match p with
      | PDict items =>
          match Dict.get k items with
          | Some q => param_at rest q
          | None => None
          end
      | PObj _ => None
      end
  end.

(** The fields of the leaf reached from the node [c] by the keys of [path]. *)
Fixpoint leaf_at (path : list string) (c : cfg) : option (Dict.t cfg) :=
  match c with
  | CVal _ => None
  | CMap items =>
      match path with
      | [] => if Dict.mem "optuna_type" items then Some items else None
      | k :: rest =>
          if Dict.mem "optuna_type" items then None
          else match Dict.get k items with
               | Some sub => leaf_at rest sub
               | None => None
               end
      end
  end.

(** *** The defaults, as the specification words them *)

(** The kind of a leaf is [const]. *)
Definition is_const (fields : Dict.t cfg) : bool :=
  match Dict.get "optuna_type" fields with
  | Some optuna_type => is_str "const" optuna_type
  | None => false
  end.

(** The fixed value of a const leaf, [None] for a leaf of another kind. *)
Definition leaf_default (fields : Dict.t cfg) : param :=
  if is_const fields then
    match Dict.get "value" fields with
    | Some v => PObj v
    | None => PNone
    end
  else PNone.

(** Leaves replaced by their defaults, the nesting kept. *)
Fixpoint defaults_tree (c : cfg) : param :=
  match c with
  | CVal v => PObj (CVal v)
  | CMap items =>
      if Dict.mem "optuna_type" items then leaf_default items
      else PDict (map (fun entry => (fst entry, defaults_tree (snd entry))) items)
  end.

(** The sampler answers every request. *)
Definition always_answers (S : Sampler) : Prop :=
  forall (trial : Trial S) (kwargs : Dict.t cfg),
    (exists v trial', suggest_int S trial kwargs = Return (v, trial')) /\
    (exists v trial', suggest_float S trial kwargs = Return (v, trial')) /\
    (exists v trial', suggest_categorical S trial kwargs = Return (v, trial')).

(** *** Well-formed trees *)

(** A leaf whose kind is [const] carries its ['value']. *)
Definition const_has_value (fields : Dict.t cfg) : bool :=
  match Dict.get "optuna_type" fields with
  | Some optuna_type =>
      if is_str "const" optuna_type then Dict.mem "value" fields else true
  | None => false
  end.

(** The kind of a leaf is int, float, choice or const, and a const leaf
    carries its ['value']. *)
Definition known_kind (fields : Dict.t cfg) : bool :=
  match Dict.get "optuna_type" fields with
  | Some optuna_type =>
      is_str "int" optuna_type || is_str "float" optuna_type
      || is_str "choice" optuna_type
      || (is_str "const" optuna_type && Dict.mem "value" fields)
  | None => false
  end.

(** An internal node of a search space: a mapping with no ['optuna_type'] and
    with different keys, each child of which is a leaf that passes [leaf_ok]
    or again an internal node. *)
Fixpoint space_ok (leaf_ok : Dict.t cfg -> bool) (c : cfg) : bool :=
  match c with
  | CVal _ => false
  | CMap items =>
      negb (Dict.mem "optuna_type" items) && Dict.unique_keys items
      && forallb
           (fun entry =>
              match snd entry with
              | CVal _ => false
              | CMap fields =>
                  if Dict.mem "optuna_type" fields then leaf_ok fields
                  else space_ok leaf_ok (snd entry)
              end)
           items
  end.

(** A parameter tree all of whose dicts have different keys. *)
Fixpoint is_dict_tree (p : param) : bool :=
  match p with
  | PObj _ => true
  | PDict items =>
      Dict.unique_keys items && forallb (fun entry => is_dict_tree (snd entry)) items
  end.

(** The value is not a dict. *)
Definition is_object (p : param) : bool :=
  match p with
  | PObj _ => true
  | PDict _ => false
  end.

(** *** The loops, turn by turn *)

(** What the loop of [update_one_best_param] makes of the entry [(k, v)]. *)
Definition updated_entry (best_param_name : string) (best_param_value : param)
  (k : string) (v : param) : param :=
  match v with
  | PDict _ => update_node best_param_name best_param_value v
  | PObj _ => if String.eqb best_param_name k then best_param_value else v
  end.

(** One turn of the loop, as [update_node] has it. *)
Definition update_turn (best_param_name : string) (best_param_value : param)
  (acc : pdict) (entry : string * param) : pdict :=
  let '(def_param_name, def_param_value) := entry in
  match def_param_value with
  | PDict _ =>
      Dict.set def_param_name
        (update_node best_param_name best_param_value def_param_value) acc
  | PObj _ => update_leaf best_param_name best_param_value def_param_name acc
  end.

(** One turn of the loop of [collect_default_params]. *)
Definition collect_turn (param_name : string) (param_value : cfg)
  (initial_model_parameters : pdict) : result pdict :=
  match param_value with
  | CVal _ => Raise NotAMapping
  | CMap fields =>
      if Dict.mem "optuna_type" fields then
        v <- default_of_leaf fields ;;
        Return (Dict.set param_name v initial_model_parameters)
      else
        sub_init <- collect_default_params param_value ;;
        Return (Dict.set param_name (PDict sub_init) initial_model_parameters)
  end.

(** One turn of the loop of [get_optimization_dict]. *)
Definition optimization_turn (S : Sampler) (param_name : string) (param_value : cfg)
  (acc : pdict * Trial S) : result (pdict * Trial S) :=
  let '(initial_model_parameters, trial) := acc in
  match param_value with
  | CVal _ => Raise NotAMapping
  | CMap fields =>
      if Dict.mem "optuna_type" fields then
        optuna_params <- kwargs_of_leaf param_name fields ;;
        optuna_type <- Dict.item "optuna_type" fields ;;
        get_optuna_param_for_type S param_name optuna_type optuna_params
          initial_model_parameters trial
      else
        ' (sub_init, trial') <- get_optimization_dict S param_value trial ;;
        Return (Dict.set param_name (PDict sub_init) initial_model_parameters, trial')
  end.

(** *** Statements about the loops *)

(** What [space_ok] asks of a child. *)
Definition child_ok (leaf_ok : Dict.t cfg -> bool) (entry : string * cfg) : bool :=
  match snd entry with
  | CVal _ => false
  | CMap fields =>
      if Dict.mem "optuna_type" fields then leaf_ok fields
      else space_ok leaf_ok (snd entry)
  end.

(** [collect_default_params] returns the defaults of a well-formed tree. *)
Definition collect_refines_at (c : cfg) : Prop :=
  space_ok const_has_value c = true ->
  collect_default_params c = Return (items_of (defaults_tree c)).

(** The outcome of a turn: it returns the dict with one entry more, of the
    shape of the child, and it does return when the sampler answers. *)
Definition turn_outcome (S : Sampler) (k : string) (v : cfg) (acc : pdict) (trial : Trial S) : Prop :=
  (forall out, optimization_turn S k v (acc, trial) = Return out ->
     exists q trial', out = (acc ++ [(k, q)], trial') /\
                      param_skeleton q = space_skeleton v) /\
  (always_answers S -> exists out, optimization_turn S k v (acc, trial) = Return out).

(** [get_optimization_dict] mirrors a well-formed tree. *)
Definition mirrors_at (S : Sampler) (c : cfg) : Prop :=
  space_ok known_kind c = true ->
  forall trial : Trial S,
    (forall r trial', get_optimization_dict S c trial = Return (r, trial') ->
       param_skeleton (PDict r) = space_skeleton c) /\
    (always_answers S ->
     exists r trial', get_optimization_dict S c trial = Return (r, trial')).

(** *** A small search space, for examples *)

Definition demo_space : cfg :=
  CMap
    [("lr", CMap [("optuna_type", CVal (VStr "float"));
                  ("low", CVal (VFloat (1 # 10000)));
                  ("high", CVal (VFloat (1 # 10)))]);
     ("batch", CMap [("optuna_type", CVal (VStr "const"));
                     ("value", CVal (VInt 32))]);
     ("model_params",
      CMap [("hidden", CMap [("optuna_type", CVal (VStr "int"));
                             ("low", CVal (VInt 8));
                             ("high", CVal (VInt 64))]);
            ("lr", CMap [("optuna_type", CVal (VStr "choice"));
                         ("choices", CVal (VList [VFloat (1 # 100);
                                                  VFloat (1 # 1000)]))])])]%string.

(** A sampler that answers the lower bound, or [None] without one, and
    counts its answers. *)
Definition lowest (trial : nat) (kwargs : Dict.t cfg) : result (cfg * nat) :=
  Return (match Dict.get "low" kwargs with
          | Some v => v
          | None => CVal VNone
          end, S trial).

Definition demo_sampler : Sampler :=
  {| Trial := nat;
     suggest_int := lowest;
     suggest_float := lowest;
     suggest_categorical := lowest |}.

(** The defaults of [demo_space] and a flat mapping of best parameters. *)
Definition demo_defaults : pdict :=
  [("lr", PNone);
   ("batch", PObj (CVal (VInt 32)));
   ("model_params", PDict [("hidden", PNone); ("lr", PNone)])]%string.

Definition demo_best : pdict :=
  [("lr", PObj (CVal (VFloat (1 # 100))));
   ("hidden", PObj (CVal (VInt 16)))]%string.

End Utils.

(** ** More of the training loop (train.py) *)

Module TrainerTrace.
Import Trainer.

Section Trace.
Variable c : Collaborators.

(** The collaborators' state after the optimizer steps of a training step. *)
Fixpoint world_after (l : loader c) (w : World c) : World c :=
  match l with
  | [] => w
  | (x, labels) :: r => world_after r (backward_step c w x labels)
  end.

(** The predicted labels of a training step, batch after batch. *)
Fixpoint train_preds (self : t) (l : loader c) (w : World c) : list Q :=
  match l with
  | [] => []
  | (x, labels) :: r =>
      y_pred_of c self (forward c w true x)
        ++ train_preds self r (backward_step c w x labels)
  end.

(** The true labels of a loader, batch after batch. *)
Definition all_labels (l : loader c) : list Q :=
  flat_map (fun b => data (snd b)) l.

(** The losses and the predicted labels of a validation step. *)
Definition valid_losses (l : loader c) (w : World c) : list Q :=
  map (fun b => criterion c (forward c w false (fst b)) (reshape_col (snd b))) l.

Definition valid_preds (self : t) (l : loader c) (w : World c) : list Q :=
  flat_map (fun b => y_pred_of c self (forward c w false (fst b))) l.

(** The metric names of the log: ["loss"] and the names of the estimator,
    each once. *)
Definition logged_names : list string :=
  Dict.keys (Dict.of_pairs (map (fun m => (m, @nil Q)) (metric_names_of c))).

End Trace.

(** The index of the first loss at which the stopper returns true. *)
Fixpoint first_stop (F : FloatAdd) (stopper : EarlyStopper.t) (losses : list Q)
  : option nat :=
  match losses with
  | [] => None
  | x :: r =>
      if fst (EarlyStopper.early_stop F stopper x) then Some O
      else option_map S (first_stop F (snd (EarlyStopper.early_stop F stopper x)) r)
  end.

(** The last of the metrics of a run, [last] when no epoch ran. *)
Definition last_metrics (ms : list (Dict.t Q)) (last : option (Dict.t Q))
  : option (Dict.t Q) :=
  match rev ms with
  | m :: _ => Some m
  | [] => last
  end.

(** What [return test_metrics_epoch] makes of the variable. *)
Definition return_metrics {A : Type} (last : option (Dict.t Q)) (st : A)
  : result (Dict.t Q * A) :=
  match last with
  | Some test_metrics_epoch => Return (test_metrics_epoch, st)
  | None => Raise (UnboundLocalError "test_metrics_epoch")
  end.

(** Every series of a split has [n] entries. *)
Definition series_of_length (n : nat) (per_mode : Dict.t (list Q)) : Prop :=
  Forall (fun e => List.length (snd e) = n) per_mode.

(** Both splits are logged, under the same metric names, with [n] entries
    for every metric. *)
Definition logged (n : nat) (names : list string)
  (dict_logging : Dict.t (Dict.t (list Q))) : Prop :=
  exists train test,
    Dict.get "train" dict_logging = Some train /\
    Dict.get "test" dict_logging = Some test /\
    Dict.keys train = names /\ Dict.keys test = names /\
    series_of_length n train /\ series_of_length n test.

(** *** More small runs, for examples *)

(** [demo_self] with no early stopping and three epochs. *)
Definition demo_self_no_patience : t :=
  {| n_epochs := 3; early_stop_patience := PatienceNone; print_every := 5;
     has_scheduler := true; multiclass := false; self_supervised := false |}.

(** [demo_self] with four epochs, too few for its patience. *)
Definition demo_self_four : t :=
  {| n_epochs := 4; early_stop_patience := PatienceInt 3; print_every := 5;
     has_scheduler := true; multiclass := false; self_supervised := false |}.

(** [demo_self] with [print_every] 0. *)
Definition demo_self_print_zero : t :=
  {| n_epochs := 10; early_stop_patience := PatienceInt 3; print_every := 0;
     has_scheduler := true; multiclass := false; self_supervised := false |}.

(** [demo_state] with the default [logger=None]. *)
Definition demo_state_no_logger : state demo_collaborators :=
  mk_state demo_collaborators O [] None.

(** The validation losses of the first epochs of the run of [demo_self]. *)
Definition demo_valid_losses : list Q := [1; 9 # 10; 95 # 100; 96 # 100; 97 # 100].

(** The four epochs of [demo_self_four]. *)
Definition demo_four_epochs
  : result (list (Dict.t Q) * state demo_collaborators) :=
  Eval vm_compute in
    run_epochs demo_collaborators demo_self_four demo_loader demo_loader (range 4)
      (enter_loop demo_collaborators demo_self_four demo_loader demo_state).

Definition demo_metrics4 : list (Dict.t Q) :=
  Eval vm_compute in
    match demo_four_epochs with
    | Return (ms, _) => ms
    | Raise _ => []
    end.

Definition demo_state4 : state demo_collaborators :=
  Eval vm_compute in
    match demo_four_epochs with
    | Return (_, st) => st
    | Raise _ => demo_state
    end.

(** The validation metrics of the fifth epoch of the run of [demo_self]. *)
Definition demo_metrics5 : Dict.t Q :=
  Eval vm_compute in nth 4 demo_metrics [].

End TrainerTrace.

(** ** DiscTrainer.train_model (train.py, lines 512-576) *)

Module DiscTrainerLoop.
Import Trainer.
Import DiscTrainer.

Section Loop.
Variable c : Collaborators.
Variable Transform : Type.
(** The attacks, and the state of the attack scheduler. *)
Variable Attack : Type.
Variable Schedule : Type.
(** [attack.apply_attack(loader)] *)
Variable apply_attack : Attack -> DataLoader Transform -> tensor.
(** [self.attack_scheduler.step()] *)
Variable attack_scheduler_step : Schedule -> Attack * Schedule.
(** The batches a [DataLoader] yields. *)
Variable batches : DataLoader Transform -> loader c.

(** What the method changes besides the state of [Trainer.train_model]:
    [self.attack] and the attack scheduler ([None] when there is none). *)
Record state : Type := mk_state {
  base : Trainer.state c;
  attack : Attack;
  attack_scheduler : option Schedule
}.

(** [if self.attack_scheduler: self.attack = self.attack_scheduler.step()] *)
Definition step_attack (st : state) (base' : Trainer.state c) : state :=
  match attack_scheduler st with
  | Some sched =>
      let (a, sched') := attack_scheduler_step sched in
      {| base := base'; attack := a; attack_scheduler := Some sched' |}
  | None => {| base := base'; attack := attack st; attack_scheduler := None |}
  end.

(** The epoch loop of the method: lines 536-565 are those of
    [Trainer.train_model], then the attack scheduler steps, then the stopper
    is asked. *)
Fixpoint epoch_loop (self : Trainer.t) (metric_names : list string)
  (adv_train_loader adv_valid_loader : loader c) (epochs : list Z) (st : state)
  (earl_stopper : option EarlyStopper.t) (test_metrics_epoch : option (Dict.t Q))
  : result (option (Dict.t Q) * state) :=
  match epochs with
  | [] => Return (test_metrics_epoch, st)
  | epoch :: rest =>
      ' (metrics, base') <- epoch_body c self metric_names adv_train_loader
                              adv_valid_loader (base st) epoch ;;
      let st' := step_attack st base' in
      match earl_stopper with
      | Some stopper =>
          loss <- Dict.item "loss" metrics ;;
          let (res_early_stop, stopper') :=
            EarlyStopper.early_stop (float_add c) stopper loss in
          if res_early_stop then Return (Some metrics, st')
          else epoch_loop self metric_names adv_train_loader adv_valid_loader
                 rest st' (Some stopper') (Some metrics)
      | None =>
          epoch_loop self metric_names adv_train_loader adv_valid_loader
            rest st' None (Some metrics)
      end
  end.

(** [train_model(self, train_loader, valid_loader, transform)], the second
    definition of the class, which is the one in force. *)
Definition train_model (self : Trainer.t)
  (train_loader valid_loader : DataLoader Transform) (transform : option Transform)
  (st : state) : result (Dict.t Q * state) :=
  let entered := enter_loop c self (batches train_loader) (base st) in
  adv_train_loader <- _generate_adversarial_data Transform (apply_attack (attack st))
                        train_loader transform ;;
  adv_valid_loader <- _generate_adversarial_data Transform (apply_attack (attack st))
                        valid_loader None ;;
  ' (last, st') <- epoch_loop self (metric_names_of c)
                     (batches adv_train_loader) (batches adv_valid_loader)
                     (range (n_epochs self))
                     {| base := entered; attack := attack st;
                        attack_scheduler := attack_scheduler st |}
                     (make_stopper self) None ;;
  match last with
  | Some test_metrics_epoch => Return (test_metrics_epoch, st')
  | None => Raise (UnboundLocalError "test_metrics_epoch")
  end.

(** The first definition of the class, which the second shadows: the two
    loaders are generated and [Trainer.train_model] runs on them. *)
Definition train_model_shadowed (self : Trainer.t)
  (train_loader valid_loader : DataLoader Transform) (transform : option Transform)
  (st : state) : result (Dict.t Q * Trainer.state c) :=
  adv_train_loader <- _generate_adversarial_data Transform (apply_attack (attack st))
                        train_loader transform ;;
  adv_valid_loader <- _generate_adversarial_data Transform (apply_attack (attack st))
                        valid_loader None ;;
  Trainer.train_model c self (batches adv_train_loader) (batches adv_valid_loader)
    (base st).

(** The metrics and the trainer state of a result, without the attack. *)
Definition forget_attack (r : result (Dict.t Q * state))
  : result (Dict.t Q * Trainer.state c) :=
  ' (metrics, st) <- r ;; Return (metrics, base st).

End Loop.

(** *** A small discriminator run, for examples *)

(** The batches of a loader: one batch with the labels of the dataset. *)
Definition demo_batches (l : DataLoader unit) : loader demo_collaborators :=
  [(tt, y unit (dataset unit l))].

(** An attack scheduler that counts its steps; the attack is its count. *)
Definition demo_scheduler_step (n : nat) : nat * nat := (S n, S n).

Definition demo_disc_state : state demo_collaborators nat nat :=
  {| base := demo_state; attack := O; attack_scheduler := Some O |}.

End DiscTrainerLoop.

(** ** More about the search-space helpers (utils.py) *)

Module UtilsTrace.
Import Utils.

(** A leaf of kind [const] that carries its value. *)
Definition const_leaf (fields : Dict.t cfg) : bool :=
  is_const fields && Dict.mem "value" fields.

(** A leaf whose kind is none of int, float, choice and const. *)
Definition unknown_kind (fields : Dict.t cfg) : bool :=
  match Dict.get "optuna_type" fields with
  | Some optuna_type =>
      negb (is_str "int" optuna_type || is_str "float" optuna_type
            || is_str "choice" optuna_type || is_str "const" optuna_type)
  | None => false
  end.

(** The keys under which a parameter tree holds its leaves, in order. *)
Fixpoint leaf_keys (p : param) : list string :=
  match p with
  | PObj _ => []
  | PDict items =>
      flat_map (fun entry =>
                  match snd entry with
                  | PObj _ => [fst entry]
                  | PDict _ => leaf_keys (snd entry)
                  end) items
  end.

(** The leaves of a parameter tree as a flat mapping from key to value, in
    order: what a search backend, which flattens the nesting, reports. *)
Fixpoint flat_leaves (p : param) : pdict :=
  match p with
  | PObj _ => []
  | PDict items =>
      flat_map (fun entry =>
                  match snd entry with
                  | PObj _ => [entry]
                  | PDict _ => flat_leaves (snd entry)
                  end) items
  end.

(** The keys of the leaves of a skeleton, in order. *)
Fixpoint skeleton_leaf_names (s : skeleton) : list string :=
  match s with
  | SLeaf => []
  | SNode children =>
      flat_map (fun entry =>
                  match snd entry with
                  | SLeaf => [fst entry]
                  | SNode _ => skeleton_leaf_names (snd entry)
                  end) children
  end.

(** On a space of const leaves the two traversals agree. *)
Definition agrees_at (S : Sampler) (c : cfg) : Prop :=
  space_ok const_leaf c = true ->
  forall trial : Trial S,
    get_optimization_dict S c trial
    = d <- collect_default_params c ;; Return (d, trial).

(** *** More small trees, for examples *)

(** A search space of const leaves only. *)
Definition const_space : cfg :=
  CMap
    [("batch", CMap [("optuna_type", CVal (VStr "const"));
                     ("value", CVal (VInt 32))]);
     ("model_params",
      CMap [("hidden", CMap [("optuna_type", CVal (VStr "const"));
                             ("value", CVal (VInt 8))])])]%string.

(** A sampler that refuses every request. *)
Definition refusing_sampler : Sampler :=
  {| Trial := nat;
     suggest_int := fun _ _ => Raise RuntimeError;
     suggest_float := fun _ _ => Raise RuntimeError;
     suggest_categorical := fun _ _ => Raise RuntimeError |}.

(** A search space with a leaf of a kind that is not known. *)
Definition typo_space : cfg :=
  CMap
    [("lr", CMap [("optuna_type", CVal (VStr "flaot"));
                  ("low", CVal (VFloat (1 # 10000)));
                  ("high", CVal (VFloat (1 # 10)))]);
     ("batch", CMap [("optuna_type", CVal (VStr "const"));
                     ("value", CVal (VInt 32))])]%string.

(** A search space whose const leaf has no value. *)
Definition valueless_space : cfg :=
  CMap
    [("lr", CMap [("optuna_type", CVal (VStr "float"));
                  ("low", CVal (VFloat (1 # 10000)));
                  ("high", CVal (VFloat (1 # 10)))]);
     ("batch", CMap [("optuna_type", CVal (VStr "const"))]);
     ("seed", CMap [("optuna_type", CVal (VStr "const"));
                    ("value", CVal (VInt 0))])]%string.

(** A resolved tree of the shape of [demo_defaults], with leaf names that
    are all different, and one with the name [lr] at two depths. *)
Definition distinct_defaults : pdict :=
  [("lr", PNone);
   ("batch", PObj (CVal (VInt 32)));
   ("model_params", PDict [("hidden", PNone); ("dropout", PNone)])]%string.

Definition distinct_resolved : pdict :=
  [("lr", PObj (CVal (VFloat (1 # 100))));
   ("batch", PObj (CVal (VInt 32)));
   ("model_params", PDict [("hidden", PObj (CVal (VInt 16)));
                           ("dropout", PObj (CVal (VFloat (1 # 2))))])]%string.

Definition clashing_resolved : pdict :=
  [("lr", PObj (CVal (VFloat (1 # 100))));
   ("batch", PObj (CVal (VInt 32)));
   ("model_params", PDict [("hidden", PObj (CVal (VInt 16)));
                           ("lr", PObj (CVal (VFloat (1 # 1000))))])]%string.

End UtilsTrace.

(** ** build_dataframe_metrics (utils.py, lines 122-137) *)

Module Frames.

(** What the function uses of pandas. *)
Record Pandas : Type := {
  DataFrame : Type;
  (* pd.DataFrame() *)
  frame_of_nothing : DataFrame;
  (* pd.DataFrame([]) *)
  frame_of_empty_list : DataFrame;
  (* len(df) *)
  frame_len : DataFrame -> nat;
  (* df[key] = values, for a list or an array of values *)
  set_values : DataFrame -> string -> list Q -> result DataFrame;
  (* df[key] = s, for a string s *)
  set_scalar : DataFrame -> string -> string -> result DataFrame;
  (* df[columns] *)
  select : DataFrame -> list string -> result DataFrame;
  (* pd.concat(frames) *)
  concat : list DataFrame -> result DataFrame
}.

(** [np.arange(1, n + 1)] *)
Definition arange_from_one (n : nat) : list Q :=
  map (fun i => inject_Z (Z.of_nat i)) (seq 1 n).

Section Build.
Variable P : Pandas.

(** The body of the loop over the splits, after
    [metrics_dict[split]] has been looked up. *)
Definition frame_of_split (split : string) (per_split : Dict.t (list Q))
  : result (DataFrame P) :=
  df_loc <- Dict.for_items
              (fun key (_ : list Q) df_loc =>
                 values <- Dict.item key per_split ;;
                 set_values P df_loc key values)
              per_split (frame_of_empty_list P) ;;
  df_loc <- set_scalar P df_loc "split" split ;;
  df_loc <- set_values P df_loc "iter" (arange_from_one (frame_len P df_loc)) ;;
  select P df_loc (("iter" :: "split" :: Dict.keys per_split)%string).

(** [build_dataframe_metrics(experiment)], on [experiment.dict_logging]:
    [df_loc] is [None] while unbound, and the frames are concatenated after
    the loop. *)
Definition build_dataframe_metrics (metrics_dict : Dict.t (Dict.t (list Q)))
  : result (DataFrame P) :=
  let df := frame_of_nothing P in
  last <- Dict.for_items
            (fun split (_ : Dict.t (list Q)) (_ : option (DataFrame P)) =>
               per_split <- Dict.item split metrics_dict ;;
               df_loc <- frame_of_split split per_split ;;
               Return (Some df_loc))
            metrics_dict None ;;
  match last with
  | Some df_loc => concat P [df; df_loc]
  | None => Raise (UnboundLocalError "df_loc")
  end.

End Build.

(** *** Frames as lists of columns, for examples *)

(** A frame that records the name and the length of each of its columns. *)
Definition listed_frames : Pandas :=
  {| DataFrame := list (string * nat);
     frame_of_nothing := [];
     frame_of_empty_list := [];
     frame_len := fun df => match df with [] => O | (_, n) :: _ => n end;
     set_values := fun df key values => Return (df ++ [(key, List.length values)]);
     set_scalar := fun df key _ =>
                     Return (df ++ [(key, match df with [] => O | (_, n) :: _ => n end)]);
     select := fun df _ => Return df;
     concat := fun frames => Return (List.concat frames) |}.

End Frames.

(** * Properties *)

(** ** Comparisons of floats *)

Lemma Qltb_lt (x y : Q) : Qltb x y = true <-> x < y.
Proof.
  unfold Qltb. rewrite negb_true_iff.
  split; intro H.
  - apply Qnot_le_lt. intro Hle. apply Qle_bool_iff in Hle. congruence.
  - destruct (Qle_bool y x) eqn:E; [|reflexivity].
    apply Qle_bool_iff in E. exfalso. exact (Qlt_not_le _ _ H E).
Qed.

Lemma Qltb_ge (x y : Q) : Qltb x y = false <-> y <= x.
Proof.
  unfold Qltb. rewrite negb_false_iff. apply Qle_bool_iff.
Qed.

Lemma Qltb_true_of (x y a b : Q) :
  x == a -> y == b -> a < b -> Qltb x y = true.
Proof. intros Hx Hy H. apply Qltb_lt. rewrite Hx, Hy. exact H. Qed.

Lemma Qltb_false_of (x y a b : Q) :
  x == a -> y == b -> b <= a -> Qltb x y = false.
Proof. intros Hx Hy H. apply Qltb_ge. rewrite Hx, Hy. exact H. Qed.

(** ** EarlyStopper *)

Module EarlyStopperSpec.
Import EarlyStopper.

Section Addition.
(** The addition of [self.min_validation_loss + self.min_delta], whatever
    it rounds to. *)
Variable F : FloatAdd.

Lemma feed_snoc (s : t) (ls : list Q) (x : Q) :
  feed F s (ls ++ [x]) = snd (early_stop F (feed F s ls) x).
Proof. unfold feed. rewrite fold_left_app. reflexivity. Qed.

Lemma best_seen_snoc (ls : list Q) (x : Q) :
  best_seen (ls ++ [x])
  = if lt_x x (best_seen ls) then Finite x else best_seen ls.
Proof. unfold best_seen. rewrite fold_left_app. reflexivity. Qed.

(** The best loss of a history is one of its losses. *)
Lemma best_seen_in (ls : list Q) (m : Q) :
  best_seen ls = Finite m -> In m ls.
Proof.
  revert m. induction ls as [|x ls IH] using rev_ind; intros m.
  - discriminate.
  - rewrite best_seen_snoc. destruct (lt_x x (best_seen ls)) eqn:E; intro H.
    + injection H as <-. apply in_or_app. right. left. reflexivity.
    + apply in_or_app. left. apply IH. exact H.
Qed.

(** The best loss of a history is below all its losses. *)
Lemma best_seen_lower (ls : list Q) (y : Q) :
  In y ls -> exists m, best_seen ls = Finite m /\ m <= y.
Proof.
  induction ls as [|x ls IH] using rev_ind; intro Hin.
  - destruct Hin.
  - rewrite best_seen_snoc. apply in_app_or in Hin.
    destruct (lt_x x (best_seen ls)) eqn:E.
    + exists x. split; [reflexivity|].
      destruct Hin as [Hin|[<-|[]]].
      * destruct (IH Hin) as (m & Hm & Hle). rewrite Hm in E. simpl in E.
        apply Qltb_lt in E. apply Qlt_le_weak. eapply Qlt_le_trans; eassumption.
      * apply Qle_refl.
    + destruct (best_seen ls) as [m|] eqn:Hb; [|discriminate].
      exists m. split; [reflexivity|].
      destruct Hin as [Hin|[<-|[]]].
      * destruct (IH Hin) as (m' & Hm' & Hle). injection Hm' as <-. exact Hle.
      * simpl in E. apply Qltb_ge in E. exact E.
Qed.

Lemma after_first_absent (m : Q) (ls : list Q) (x : Q) :
  (forall y, In y ls -> Qeq_bool y m = false) ->
  Qeq_bool x m = true ->
  after_first m (ls ++ [x]) = [].
Proof.
  intros Hall Hx. induction ls as [|y ls IH]; simpl.
  - rewrite Hx. reflexivity.
  - rewrite (Hall y (or_introl eq_refl)). apply IH.
    intros z Hz. apply Hall. right. exact Hz.
Qed.

Lemma after_first_present (m : Q) (ls : list Q) (x : Q) :
  In m ls -> after_first m (ls ++ [x]) = after_first m ls ++ [x].
Proof.
  induction ls as [|y ls IH]; intro Hin; simpl.
  - destruct Hin.
  - destruct (Qeq_bool y m) eqn:E; [reflexivity|].
    destruct Hin as [->|Hin].
    + rewrite (proj2 (Qeq_bool_iff m m) (Qeq_refl m)) in E. discriminate.
    + apply IH. exact Hin.
Qed.

(** The history after one more loss, when the loss is a strict improvement. *)
Lemma exceed_count_improved (D : Q) (ls : list Q) (x : Q) :
  lt_x x (best_seen ls) = true -> exceed_count F D (ls ++ [x]) = 0%Z.
Proof.
  intro E. unfold exceed_count, since_best. rewrite best_seen_snoc, E.
  rewrite after_first_absent; [reflexivity| |apply Qeq_bool_iff, Qeq_refl].
  intros y Hy. destruct (best_seen_lower ls y Hy) as (m & Hm & Hle).
  rewrite Hm in E. simpl in E. apply Qltb_lt in E.
  destruct (Qeq_bool y x) eqn:Q; [|reflexivity].
  apply Qeq_bool_iff in Q. exfalso.
  apply (Qlt_not_le _ _ E). rewrite <- Q. exact Hle.
Qed.

(** The history after one more loss, when the loss is no strict improvement. *)
Lemma exceed_count_kept (D : Q) (ls : list Q) (x : Q) :
  lt_x x (best_seen ls) = false ->
  exceed_count F D (ls ++ [x])
  = (exceed_count F D ls + if exceeds F D (best_seen ls) x then 1 else 0)%Z.
Proof.
  intro E. unfold exceed_count, since_best. rewrite best_seen_snoc, E.
  destruct (best_seen ls) as [m|] eqn:Hb; [|discriminate].
  rewrite (after_first_present m ls x (best_seen_in ls m Hb)).
  rewrite filter_app, length_app. simpl.
  destruct (exceeds F D (Finite m) x); simpl; lia.
Qed.

Lemma exceed_count_nonneg (D : Q) (ls : list Q) : (0 <= exceed_count F D ls)%Z.
Proof. unfold exceed_count. lia. Qed.

(** What the stopper holds after a history. *)
Lemma feed_state (P : Z) (D : Q) (ls : list Q) :
  feed F (init (Some P) (Some D)) ls
  = {| patience := P; min_delta := D;
       counter := exceed_count F D ls;
       min_validation_loss := best_seen ls |}.
Proof.
  induction ls as [|x ls IH] using rev_ind.
  - reflexivity.
  - rewrite feed_snoc, IH. unfold early_stop. simpl.
    destruct (lt_x x (best_seen ls)) eqn:E.
    + simpl. rewrite exceed_count_improved by exact E.
      rewrite best_seen_snoc, E. reflexivity.
    + rewrite (exceed_count_kept D ls x E), best_seen_snoc, E.
      unfold exceeds.
      destruct (gt_e x (add_x F (best_seen ls) D)) eqn:G.
      * destruct (P <=? exceed_count F D ls + 1)%Z; reflexivity.
      * simpl. rewrite Z.add_0_r. reflexivity.
Qed.

(** The first branch of [early_stop]. *)
Lemma early_stop_improve (s : t) (x : Q) :
  lt_x x (min_validation_loss s) = true ->
  early_stop F s x
  = (false, {| patience := patience s; min_delta := min_delta s;
               counter := 0; min_validation_loss := Finite x |}).
Proof. intro E. unfold early_stop. rewrite E. reflexivity. Qed.

(** The second branch of [early_stop]. *)
Lemma early_stop_exceed (s : t) (x : Q) :
  lt_x x (min_validation_loss s) = false ->
  gt_e x (add_x F (min_validation_loss s) (min_delta s)) = true ->
  early_stop F s x
  = ((patience s <=? counter s + 1)%Z,
     {| patience := patience s; min_delta := min_delta s;
        counter := (counter s + 1)%Z;
        min_validation_loss := min_validation_loss s |}).
Proof.
  intros E G. unfold early_stop. rewrite E, G. cbv zeta. simpl.
  destruct (patience s <=? counter s + 1)%Z; reflexivity.
Qed.

(** C1, as the code has it: after any history of finite losses fed to a
    fresh stopper of patience [P] and minimal delta [D], the stopper holds the
    best loss of the history and, as its counter, the number of losses that
    exceeded the float sum best + D since the last strict improvement (these
    need not be consecutive: a loss between best and best + D leaves the
    counter as it is).  The sum is the one the floats compute, with its
    rounding.  The call for the next loss [x] returns true exactly when [x] is
    not below the best loss, exceeds best + D, and is at least the [P]-th such
    loss since the last strict improvement.  The counter is reset to 0 by a
    loss strictly below the best, and it is incremented only by a loss that
    exceeds best + D. *)
Theorem early_stop_counts_since_best (P : Z) (D : Q) (ls : list Q) (x : Q) :
  let s := feed F (init (Some P) (Some D)) ls in
  let s' := snd (early_stop F s x) in
  (stops_at F P D ls x = true <->
     lt_x x (best_seen ls) = false /\
     exceeds F D (best_seen ls) x = true /\
     (P <= exceed_count F D ls + 1)%Z)
  /\ min_validation_loss s = best_seen ls
  /\ counter s = exceed_count F D ls
  /\ (lt_x x (best_seen ls) = true -> counter s' = 0%Z)
  /\ (counter s' = (counter s + 1)%Z -> exceeds F D (best_seen ls) x = true)
  /\ (lt_x x (best_seen ls) = false -> exceeds F D (best_seen ls) x = true ->
      counter s' = (counter s + 1)%Z)
  /\ (lt_x x (best_seen ls) = false -> exceeds F D (best_seen ls) x = false ->
      s' = s).
Proof.
  cbv zeta. unfold stops_at. rewrite feed_state.
  pose proof (exceed_count_nonneg D ls) as Hnn.
  unfold early_stop, exceeds. simpl.
  destruct (lt_x x (best_seen ls)) eqn:E; simpl;
    [|destruct (gt_e x (add_x F (best_seen ls) D)) eqn:G; simpl;
      [destruct (Z.leb_spec P (exceed_count F D ls + 1)) as [L|L]; simpl|]];
    repeat match goal with
           | |- _ /\ _ => split
           | |- _ <-> _ => split
           end;
    intros;
    repeat match goal with
           | H : _ /\ _ |- _ => destruct H
           end;
    try reflexivity; try discriminate; try lia.
Qed.

End Addition.

(** With [0.0] as delta the threshold is the best loss itself. *)
Lemma exceeds_zero_delta (F : FloatAdd) (m x : Q) :
  gt_e x (add_x F (Finite m) 0) = Qltb m x.
Proof. simpl. rewrite fadd_zero. reflexivity. Qed.

(** C1, as the specification words it, fails: with patience 2 and delta 0
    the losses 1, 2, 1, 2 stop the run at the fourth loss, which is only the
    first of a run of exceeding losses (the third loss, equal to the best,
    neither resets nor increments the counter). *)
Lemma stop_before_Pth_consecutive :
  ~ stops_on_Pth_consecutive binary64 2 0 [1; 2; 1] 2.
Proof.
  unfold stops_on_Pth_consecutive. intros [H _].
  assert (E : stops_at binary64 2 0 [1; 2; 1] 2 = true) by (vm_compute; reflexivity).
  specialize (H E). vm_compute in H. discriminate H.
Qed.

(** The sum that decides is the rounded one: with patience 1 and delta 0.2,
    after the loss 0.1 the loss 0.30000000000000004 does not stop the run,
    for it is the float sum 0.1 + 0.2, although it is above the sum of the
    rationals. *)
Example rounded_sum_decides :
  stops_at binary64 1 float_0_2 [float_0_1] float_0_30000000000000004 = false
  /\ Qltb (float_0_1 + float_0_2) float_0_30000000000000004 = true.
Proof. split; vm_compute; reflexivity. Qed.

End EarlyStopperSpec.

(** ** Trainer *)

Module TrainerSpec.
Import Trainer.

Section Steps.
Variable c : Collaborators.
Variable self : t.

(** Once [losses] is a tensor, [losses += loss] accumulates with the
    addition of the tensors. *)
Lemma add_loss_tensor (qs : list Q) (q : Q) :
  fold_left (add_loss c) qs (PyTensor q) = PyTensor (fold_left (tensor_add c) qs q).
Proof.
  revert q. induction qs as [|a qs IH]; intro q; simpl.
  - reflexivity.
  - apply IH.
Qed.

(** From the int [0] on, over at least one loss. *)
Lemma add_loss_sum (q : Q) (qs : list Q) :
  fold_left (add_loss c) (q :: qs) (PyInt 0) = PyTensor (tensor_sum c (q :: qs)).
Proof. unfold tensor_sum. simpl. apply add_loss_tensor. Qed.

Lemma train_batches_losses (l : loader c) (a : batch_acc c) :
  losses c (fold_left (train_batch c self) l a)
  = fold_left (add_loss c) (batch_losses c l (acc_world c a)) (losses c a).
Proof.
  revert a. induction l as [|[x labels] l IH]; intro a; simpl.
  - reflexivity.
  - rewrite IH. reflexivity.
Qed.

(** C8: over a loader of at least one batch, [_train_step] returns, and the
    first value it reports, the mean loss, is the sum of the losses of the
    batches, accumulated in their order from 0 by the addition of the
    tensors, divided by the number of batches (not by the number of samples)
    with the division of numpy.  The sum and the quotient are those the
    floats compute, whatever they round to. *)
Theorem train_step_mean_over_batches
  (b : Features c * tensor) (bs : loader c) (w : World c) :
  exists metrics w',
    _train_step c self (b :: bs) w
    = Return (numpy_div c (tensor_sum c (batch_losses c (b :: bs) w))
                (Z.of_nat (List.length (b :: bs))) :: metrics, w').
Proof.
  unfold _train_step, finish_step.
  rewrite train_batches_losses.
  destruct b as [x labels]. cbn [batch_losses start_acc acc_world losses].
  rewrite add_loss_sum. cbn [to_numpy bind].
  eexists _, _. reflexivity.
Qed.

(** Where the addition of the tensors makes no rounding error, the
    accumulated loss is the sum of the rationals. *)
Lemma tensor_sum_unrounded (ls : list Q) :
  (forall x y : Q, tensor_add c x y == x + y) ->
  tensor_sum c ls == fold_right Qplus 0 ls.
Proof.
  intro H. unfold tensor_sum.
  assert (G : forall a : Q, fold_left (tensor_add c) ls a == a + fold_right Qplus 0 ls).
  { induction ls as [|l ls' IH]; intro a; simpl.
    - rewrite Qplus_0_r. reflexivity.
    - rewrite IH, H, Qplus_assoc. reflexivity. }
  rewrite G. change (inject_Z 0) with 0. apply Qplus_0_l.
Qed.

(** A loader that yields no batch makes the step raise: [losses] is still the
    int 0 and has no [cpu]. *)
Lemma train_step_no_batch (w : World c) :
  _train_step c self [] w = Raise AttributeError.
Proof. reflexivity. Qed.

End Steps.

Lemma early_stop_keeps_min_delta (F : FloatAdd) (s : EarlyStopper.t) (x : Q) :
  EarlyStopper.min_delta (snd (EarlyStopper.early_stop F s x)) = EarlyStopper.min_delta s.
Proof.
  unfold EarlyStopper.early_stop.
  destruct (lt_x x _); [reflexivity|].
  destruct (gt_e x _); [|reflexivity].
  cbv zeta. destruct (_ <=? _)%Z; reflexivity.
Qed.

Lemma feed_keeps_min_delta (F : FloatAdd) (ls : list Q) (s : EarlyStopper.t) :
  EarlyStopper.min_delta (EarlyStopper.feed F s ls) = EarlyStopper.min_delta s.
Proof.
  revert s. induction ls as [|x ls IH]; intro s; simpl.
  - reflexivity.
  - unfold EarlyStopper.feed in *. simpl. rewrite IH.
    apply early_stop_keeps_min_delta.
Qed.

(** The stopper of [train_model] is the fresh stopper of delta 0. *)
Lemma make_stopper_init (self : t) (stopper : EarlyStopper.t) :
  make_stopper self = Some stopper ->
  exists p, stopper = EarlyStopper.init (Some p) (Some 0).
Proof.
  unfold make_stopper. destruct (early_stop_patience self); try discriminate.
  destruct (p =? 0)%Z; [discriminate|]. intro H. injection H as <-.
  exists p. reflexivity.
Qed.

(** C9: the stopper that [train_model] builds has [min_delta] 0 and keeps it
    through every call; so, after any validation losses [ls] of the run, it
    holds the best of them, and a next loss strictly above that best, by
    however little, increments its counter.  The best loss is read from the
    losses fed ([best_seen]), not from the stopper. *)
Theorem train_model_stopper_min_delta_zero
  (F : FloatAdd) (self : t) (stopper : EarlyStopper.t) :
  make_stopper self = Some stopper ->
  EarlyStopper.min_delta stopper = 0 /\
  forall ls : list Q,
    EarlyStopper.min_delta (EarlyStopper.feed F stopper ls) = 0 /\
    EarlyStopper.min_validation_loss (EarlyStopper.feed F stopper ls)
    = EarlyStopper.best_seen ls /\
    forall x : Q,
      gt_x x (EarlyStopper.best_seen ls) = true ->
      EarlyStopper.counter (EarlyStopper.feed F stopper (ls ++ [x]))
      = (EarlyStopper.counter (EarlyStopper.feed F stopper ls) + 1)%Z.
Proof.
  intro Hmk. destruct (make_stopper_init self stopper Hmk) as (p & ->).
  split; [reflexivity|]. intro ls.
  split; [rewrite feed_keeps_min_delta; reflexivity|].
  split; [rewrite EarlyStopperSpec.feed_state; reflexivity|].
  intros x G.
  rewrite EarlyStopperSpec.feed_snoc, EarlyStopperSpec.feed_state.
  destruct (EarlyStopper.best_seen ls) as [m|] eqn:Hb; [|discriminate].
  simpl in G.
  rewrite EarlyStopperSpec.early_stop_exceed.
  - reflexivity.
  - simpl. apply Qltb_ge. apply Qlt_le_weak. apply Qltb_lt. exact G.
  - cbn [EarlyStopper.min_validation_loss EarlyStopper.min_delta].
    rewrite EarlyStopperSpec.exceeds_zero_delta. exact G.
Qed.

Section Epochs.
Variable c : Collaborators.
Variable self : t.
Variables train_loader valid_loader : loader c.

(** One turn of the epoch loop with a stopper. *)
Lemma epoch_loop_step (names : list string) (epoch : Z) (rest : list Z)
  (st st' : state c) (stopper : EarlyStopper.t) (last : option (Dict.t Q))
  (metrics : Dict.t Q) (v : Q) :
  epoch_body c self names train_loader valid_loader st epoch = Return (metrics, st') ->
  Dict.get "loss" metrics = Some v ->
  epoch_loop c self names train_loader valid_loader (epoch :: rest) st (Some stopper) last
  = if fst (EarlyStopper.early_stop (float_add c) stopper v)
    then Return (Some metrics, st')
    else epoch_loop c self names train_loader valid_loader rest st'
           (Some (snd (EarlyStopper.early_stop (float_add c) stopper v)))
           (Some metrics).
Proof.
  intros E G. cbn [epoch_loop]. rewrite E. cbn [bind].
  unfold Dict.item. rewrite G. cbn [bind].
  destruct (EarlyStopper.early_stop (float_add c) stopper v) as [[|] stopper'];
    reflexivity.
Qed.

(** C10: with [n_epochs] 0 or negative the loop body never runs and the
    final [return] fails on the unbound [test_metrics_epoch]. *)
Theorem train_model_without_epoch_raises (st : state c) :
  (n_epochs self <= 0)%Z ->
  train_model c self train_loader valid_loader st
  = Raise (UnboundLocalError "test_metrics_epoch").
Proof.
  intro H. unfold train_model, range.
  replace (Z.to_nat (n_epochs self)) with O by lia.
  reflexivity.
Qed.

(** C2: ten epochs at most, patience three, and validation losses 1.0, 0.9,
    0.95, 0.96, 0.97 in the first five epochs: [train_model] leaves the loop
    after the fifth epoch, in the state that epoch left, and returns the
    validation metrics of that epoch. *)
Theorem train_model_stops_after_fifth_epoch
  (st st5 : state c) (ms : list (Dict.t Q)) :
  n_epochs self = 10%Z ->
  early_stop_patience self = PatienceInt 3 ->
  run_epochs c self train_loader valid_loader (range 5)
    (enter_loop c self train_loader st) = Return (ms, st5) ->
  losses_are ms [1; 9 # 10; 95 # 100; 96 # 100; 97 # 100] ->
  exists metrics5,
    nth_error ms 4 = Some metrics5 /\
    train_model c self train_loader valid_loader st = Return (metrics5, st5).
Proof.
  intros Hn Hp Hrun Hls.
  unfold train_model, make_stopper. rewrite Hn, Hp. cbn [Z.eqb].
  change (range 10) with [0; 1; 2; 3; 4; 5; 6; 7; 8; 9]%Z.
  change (range 5) with [0; 1; 2; 3; 4]%Z in Hrun.
  set (body := epoch_body c self (metric_names_of c) train_loader valid_loader) in *.
  cbn [run_epochs] in Hrun. fold body in Hrun.
  destruct (body (enter_loop c self train_loader st) 0%Z) as [[m1 s1]|] eqn:E1;
    [cbn [bind] in Hrun|discriminate].
  destruct (body s1 1%Z) as [[m2 s2]|] eqn:E2; [cbn [bind] in Hrun|discriminate].
  destruct (body s2 2%Z) as [[m3 s3]|] eqn:E3; [cbn [bind] in Hrun|discriminate].
  destruct (body s3 3%Z) as [[m4 s4]|] eqn:E4; [cbn [bind] in Hrun|discriminate].
  destruct (body s4 4%Z) as [[m5 s5]|] eqn:E5; [cbn [bind] in Hrun|discriminate].
  injection Hrun as <- <-.
  unfold losses_are in Hls.
  inversion Hls as [|? ? ? ? (v1 & G1 & Q1) Hls1]; subst.
  inversion Hls1 as [|? ? ? ? (v2 & G2 & Q2) Hls2]; subst.
  inversion Hls2 as [|? ? ? ? (v3 & G3 & Q3) Hls3]; subst.
  inversion Hls3 as [|? ? ? ? (v4 & G4 & Q4) Hls4]; subst.
  inversion Hls4 as [|? ? ? ? (v5 & G5 & Q5) _]; subst.
  exists m5. split; [reflexivity|].
  rewrite (epoch_loop_step _ _ _ _ _ _ _ _ _ E1 G1).
  rewrite EarlyStopperSpec.early_stop_improve by reflexivity. cbn [fst snd].
  rewrite (epoch_loop_step _ _ _ _ _ _ _ _ _ E2 G2).
  rewrite EarlyStopperSpec.early_stop_improve
    by (apply (Qltb_true_of _ _ _ _ Q2 Q1); reflexivity).
  cbn [fst snd].
  assert (P2 : forall v q, v == q -> (9 # 10) < q ->
               gt_e v (add_x (float_add c) (Finite v2) 0) = true).
  { intros v q Hv Hq. rewrite EarlyStopperSpec.exceeds_zero_delta.
    apply (Qltb_true_of _ _ _ _ Q2 Hv). exact Hq. }
  rewrite (epoch_loop_step _ _ _ _ _ _ _ _ _ E3 G3).
  rewrite EarlyStopperSpec.early_stop_exceed;
    [| apply (Qltb_false_of _ _ _ _ Q3 Q2); discriminate
     | apply (P2 _ _ Q3); reflexivity ].
  cbn [fst snd EarlyStopper.patience EarlyStopper.counter EarlyStopper.min_delta
       EarlyStopper.min_validation_loss Z.leb Z.add Z.compare Pos.compare
       Pos.compare_cont Pos.add].
  rewrite (epoch_loop_step _ _ _ _ _ _ _ _ _ E4 G4).
  rewrite EarlyStopperSpec.early_stop_exceed;
    [| apply (Qltb_false_of _ _ _ _ Q4 Q2); discriminate
     | apply (P2 _ _ Q4); reflexivity ].
  cbn [fst snd EarlyStopper.patience EarlyStopper.counter EarlyStopper.min_delta
       EarlyStopper.min_validation_loss Z.leb Z.add Z.compare Pos.compare
       Pos.compare_cont Pos.add].
  rewrite (epoch_loop_step _ _ _ _ _ _ _ _ _ E5 G5).
  rewrite EarlyStopperSpec.early_stop_exceed;
    [| apply (Qltb_false_of _ _ _ _ Q5 Q2); discriminate
     | apply (P2 _ _ Q5); reflexivity ].
  reflexivity.
Qed.

End Epochs.

Lemma train_model_stopper_min_delta_zero_witness :
  EarlyStopper.min_delta demo_stopper = 0 /\
  EarlyStopper.min_delta (EarlyStopper.feed binary64 demo_stopper demo_history) = 0 /\
  EarlyStopper.min_validation_loss (EarlyStopper.feed binary64 demo_stopper demo_history)
  = Finite (9 # 10) /\
  EarlyStopper.counter
    (EarlyStopper.feed binary64 demo_stopper (demo_history ++ [900001 # 1000000]))
  = 1%Z.
Proof.
  destruct (train_model_stopper_min_delta_zero binary64 demo_self demo_stopper eq_refl)
    as (H0 & H).
  destruct (H demo_history) as (H1 & H2 & H3).
  split; [exact H0|]. split; [exact H1|]. split; [exact H2|].
  apply (H3 (900001 # 1000000)). reflexivity.
Defined.

Lemma train_model_stops_after_fifth_epoch_witness :
  exists metrics5,
    nth_error demo_metrics 4 = Some metrics5 /\
    train_model demo_collaborators demo_self demo_loader demo_loader demo_state
    = Return (metrics5, demo_state5).
Proof.
  apply (train_model_stops_after_fifth_epoch demo_collaborators demo_self
           demo_loader demo_loader demo_state demo_state5 demo_metrics).
  - reflexivity.
  - reflexivity.
  - vm_compute. reflexivity.
  - unfold losses_are, demo_metrics.
    repeat (constructor; [eexists; split; [reflexivity|reflexivity]|]).
    constructor.
Defined.

Lemma train_model_without_epoch_raises_witness :
  train_model demo_collaborators demo_self_no_epoch demo_loader demo_loader demo_state
  = Raise (UnboundLocalError "test_metrics_epoch").
Proof.
  apply (train_model_without_epoch_raises demo_collaborators demo_self_no_epoch
           demo_loader demo_loader demo_state).
  simpl. lia.
Defined.

(** The run of [demo_self] does return: five epochs are logged and the loss
    returned is that of the fifth epoch. *)
Example demo_run_returns :
  exists metrics st,
    train_model demo_collaborators demo_self demo_loader demo_loader demo_state
    = Return (metrics, st) /\
    Dict.get "loss" metrics = Some (97 # 100) /\
    world demo_collaborators st = 5%nat.
Proof. eexists _, _. vm_compute. repeat split. Qed.

End TrainerSpec.

(** ** DiscTrainer._generate_adversarial_data *)

Module DiscTrainerSpec.
Import DiscTrainer.

Lemma shape_eqb_eq (a b : list nat) : shape_eqb a b = true <-> a = b.
Proof.
  revert b. induction a as [|x a IH]; intros [|y b]; simpl;
    try (split; [discriminate|discriminate]); try tauto.
  rewrite andb_true_iff, Nat.eqb_eq, IH.
  split; [intros [-> ->]; reflexivity|intro H; injection H; auto].
Qed.

Lemma shape_eqb_refl (a : list nat) : shape_eqb a a = true.
Proof. apply shape_eqb_eq. reflexivity. Qed.

Lemma chunks_length (n k : nat) (l : list Q) : List.length (chunks n k l) = n.
Proof. revert l. induction n as [|n IH]; intro l; simpl; [|rewrite IH]; reflexivity. Qed.

Lemma chunks_app (n1 n2 k : nat) (l1 l2 : list Q) :
  List.length l1 = (n1 * k)%nat ->
  chunks (n1 + n2) k (l1 ++ l2) = chunks n1 k l1 ++ chunks n2 k l2.
Proof.
  revert l1. induction n1 as [|n1 IH]; intros l1 Hlen; simpl in *.
  - apply length_zero_iff_nil in Hlen. subst l1. reflexivity.
  - assert (Hk : (k <= List.length l1)%nat) by lia.
    rewrite firstn_app, skipn_app.
    replace (k - List.length l1)%nat with O by lia.
    simpl. rewrite app_nil_r. f_equal.
    apply IH. rewrite length_skipn. lia.
Qed.

Lemma chunks_repeat (v : Q) (n k : nat) :
  chunks n k (repeat v (n * k)) = repeat (repeat v k) n.
Proof.
  induction n as [|n IH]; simpl; [reflexivity|].
  rewrite repeat_app, firstn_app, skipn_app, repeat_length.
  replace (k - k)%nat with O by lia. simpl.
  rewrite app_nil_r.
  rewrite firstn_all2 by (rewrite repeat_length; lia).
  rewrite skipn_all2 by (rewrite repeat_length; lia).
  simpl. rewrite IH. reflexivity.
Qed.

Lemma combine_app_same {A B : Type} (a1 a2 : list A) (b1 b2 : list B) :
  List.length a1 = List.length b1 ->
  combine (a1 ++ a2) (b1 ++ b2) = combine a1 b1 ++ combine a2 b2.
Proof.
  revert b1. induction a1 as [|x a1 IH]; intros [|y b1] H; simpl in *;
    try discriminate; [reflexivity|].
  f_equal. apply IH. lia.
Qed.

Lemma combine_repeat {A B : Type} (l : list A) (v : B) :
  combine l (repeat v (List.length l)) = map (fun r => (r, v)) l.
Proof. induction l as [|x l IH]; simpl; [|rewrite IH]; reflexivity. Qed.

Section Generate.
Variable Transform : Type.
Variable apply_attack : DataLoader Transform -> tensor.

Local Abbreviation generate := (_generate_adversarial_data Transform apply_attack).
Local Abbreviation X_of l := (X Transform (dataset Transform l)).
Local Abbreviation y_of l := (y Transform (dataset Transform l)).

(** What the method returns when its assertion holds, both tensors of the
    dataset have a first dimension and there is a sample. *)
Lemma generate_returns (loader : DataLoader Transform) (tr : option Transform)
  (n n_y : nat) (rest rest_y : list nat) :
  shape (X_of loader) = n :: rest ->
  shape (y_of loader) = n_y :: rest_y ->
  (0 < n)%nat ->
  shape (squeeze_last (apply_attack loader)) = shape (X_of loader) ->
  generate loader tr
  = Return
      {| dataset :=
           {| X := {| shape := (n + n)%nat :: rest;
                      data := data (X_of loader) ++ data (apply_attack loader) |};
              y := {| shape := (n_y + n_y)%nat :: rest_y;
                      data := repeat 0 (List.length (data (y_of loader)))
                              ++ repeat 1 (List.length (data (y_of loader))) |};
              transform := tr |};
         batch_size := batch_size Transform loader;
         shuffle := true |}.
Proof.
  intros HX Hy Hn Hsq. unfold _generate_adversarial_data.
  rewrite Hsq, shape_eqb_refl.
  unfold concat0. rewrite Hsq, HX. cbn [shape zeros_like ones_like].
  rewrite Hy, !shape_eqb_refl. cbn [bind].
  unfold new_shuffling_loader, len_dataset. cbn [X shape].
  destruct (Nat.eqb_spec (n + n) 0) as [E|_]; [lia|reflexivity].
Qed.

(** X22: for a loader of no sample on which the output of the attack has,
    after [squeeze(-1)], the shape of the features, the assertion holds and
    the method raises the [ValueError] of the shuffling loader, which cannot
    be built over an empty dataset. *)
Theorem generate_of_no_sample (loader : DataLoader Transform) (tr : option Transform)
  (n_y : nat) (rest rest_y : list nat) :
  shape (X_of loader) = O :: rest ->
  shape (y_of loader) = n_y :: rest_y ->
  shape (squeeze_last (apply_attack loader)) = shape (X_of loader) ->
  generate loader tr = Raise ValueError.
Proof.
  intros HX Hy Hsq. unfold _generate_adversarial_data.
  rewrite Hsq, shape_eqb_refl.
  unfold concat0. rewrite Hsq, HX. cbn [shape zeros_like ones_like].
  rewrite Hy, !shape_eqb_refl. reflexivity.
Qed.

(** C3, as the code has it: for a loader of [n] samples, [n] at least 1
    (features and labels with a first dimension [n]), on which the output of
    the attack has, after [squeeze(-1)], the shape of the features, the method
    returns a loader over [2n] samples: the [n] rows of the features, each
    with a label row of zeros, followed by the [n] rows of the attack, each
    with a label row of ones; the loader shuffles, and keeps the batch size.
    (With no sample the shuffling loader cannot be built.) *)
Theorem generate_adversarial_data_doubles
  (loader : DataLoader Transform) (tr : option Transform)
  (n : nat) (rest rest_y : list nat) :
  shape (X_of loader) = n :: rest ->
  shape (y_of loader) = n :: rest_y ->
  (0 < n)%nat ->
  tensor_ok (X_of loader) ->
  tensor_ok (y_of loader) ->
  shape (squeeze_last (apply_attack loader)) = shape (X_of loader) ->
  exists loader',
    generate loader tr = Return loader' /\
    samples Transform (dataset Transform loader')
    = map (fun r => (r, repeat 0 (numel rest_y))) (rows (X_of loader))
      ++ map (fun r => (r, repeat 1 (numel rest_y)))
           (rows (squeeze_last (apply_attack loader))) /\
    List.length (rows (X_of loader)) = n /\
    List.length (rows (squeeze_last (apply_attack loader))) = n /\
    List.length (samples Transform (dataset Transform loader')) = (2 * n)%nat /\
    shuffle Transform loader' = true /\
    batch_size Transform loader' = batch_size Transform loader.
Proof.
  intros HX Hy Hn HokX Hoky Hsq.
  eexists. split; [exact (generate_returns loader tr n n rest rest_y HX Hy Hn Hsq)|].
  unfold tensor_ok in HokX, Hoky. rewrite HX in HokX. rewrite Hy in Hoky.
  cbn [numel fold_right] in HokX, Hoky. fold (numel rest) in HokX. fold (numel rest_y) in Hoky.
  assert (RX : rows (X_of loader) = chunks n (numel rest) (data (X_of loader))).
  { unfold rows. rewrite HX. reflexivity. }
  assert (RA : rows (squeeze_last (apply_attack loader))
               = chunks n (numel rest) (data (apply_attack loader))).
  { unfold rows. rewrite Hsq, HX. reflexivity. }
  assert (S : samples Transform
                {| X := {| shape := (n + n)%nat :: rest;
                           data := data (X_of loader) ++ data (apply_attack loader) |};
                   y := {| shape := (n + n)%nat :: rest_y;
                           data := repeat 0 (List.length (data (y_of loader)))
                                   ++ repeat 1 (List.length (data (y_of loader))) |};
                   transform := tr |}
              = map (fun r => (r, repeat 0 (numel rest_y))) (rows (X_of loader))
                ++ map (fun r => (r, repeat 1 (numel rest_y)))
                     (rows (squeeze_last (apply_attack loader)))).
  { rewrite RX, RA. unfold samples, rows. cbn [X y shape data].
    rewrite (chunks_app n n (numel rest) _ _ HokX).
    rewrite Hoky.
    rewrite (chunks_app n n (numel rest_y) (repeat 0 _) (repeat 1 _))
      by apply repeat_length.
    rewrite !chunks_repeat.
    rewrite combine_app_same by (rewrite chunks_length, repeat_length; reflexivity).
    rewrite <- (chunks_length n (numel rest) (data (X_of loader))) at 2.
    rewrite combine_repeat.
    rewrite <- (chunks_length n (numel rest) (data (apply_attack loader))) at 3.
    rewrite combine_repeat. reflexivity. }
  cbn [dataset shuffle batch_size].
  rewrite S. rewrite RX, RA.
  repeat split.
  - apply chunks_length.
  - apply chunks_length.
  - rewrite length_app, !length_map, !chunks_length. lia.
Qed.

(** C4, as the code has it: for a loader of at least one sample, with
    features and labels that have a first dimension, the method fails exactly
    when the output of the attack, after [squeeze(-1)], has not the shape of
    the features; the failure is that of the assertion, and when the shapes
    agree a loader is returned.  (With no sample and agreeing shapes the
    method fails too, with the [ValueError] of the shuffling loader.) *)
Theorem generate_fails_iff_squeezed_shape_differs
  (loader : DataLoader Transform) (tr : option Transform)
  (n n_y : nat) (rest rest_y : list nat) :
  shape (X_of loader) = n :: rest ->
  shape (y_of loader) = n_y :: rest_y ->
  (0 < n)%nat ->
  ((exists e, generate loader tr = Raise e) <->
   shape (squeeze_last (apply_attack loader)) <> shape (X_of loader)) /\
  ((shape (squeeze_last (apply_attack loader)) <> shape (X_of loader) /\
    generate loader tr = Raise AssertionError) \/
   (shape (squeeze_last (apply_attack loader)) = shape (X_of loader) /\
    exists loader', generate loader tr = Return loader')).
Proof.
  intros HX Hy Hn.
  destruct (shape_eqb (shape (X_of loader)) (shape (squeeze_last (apply_attack loader))))
    eqn:E.
  - apply shape_eqb_eq in E. symmetry in E.
    pose proof (generate_returns loader tr n n_y rest rest_y HX Hy Hn E) as R.
    split; [split|].
    + intros [e He]. rewrite R in He. discriminate.
    + intro H. contradiction.
    + right. split; [exact E|]. eexists. exact R.
  - assert (R : generate loader tr = Raise AssertionError).
    { unfold _generate_adversarial_data. rewrite E. reflexivity. }
    assert (N : shape (squeeze_last (apply_attack loader)) <> shape (X_of loader)).
    { intro H. rewrite H, shape_eqb_refl in E. discriminate. }
    split; [split|].
    + intros _. exact N.
    + intros _. exists AssertionError. exact R.
    + left. split; [exact N|exact R].
Qed.

End Generate.

Lemma generate_adversarial_data_doubles_witness :
  exists loader',
    _generate_adversarial_data unit channel_attack wide_loader None = Return loader' /\
    samples unit (dataset unit loader')
    = map (fun r => (r, repeat 0 (numel [])))
        (rows (X unit (dataset unit wide_loader)))
      ++ map (fun r => (r, repeat 1 (numel [])))
           (rows (squeeze_last (channel_attack wide_loader))) /\
    List.length (rows (X unit (dataset unit wide_loader))) = 2%nat /\
    List.length (rows (squeeze_last (channel_attack wide_loader))) = 2%nat /\
    List.length (samples unit (dataset unit loader')) = (2 * 2)%nat /\
    shuffle unit loader' = true /\
    batch_size unit loader' = batch_size unit wide_loader.
Proof.
  apply (generate_adversarial_data_doubles unit channel_attack wide_loader None
           2%nat [3%nat] []); try reflexivity.
  lia.
Defined.

Lemma generate_of_no_sample_witness :
  _generate_adversarial_data unit channel_attack empty_loader None = Raise ValueError.
Proof.
  apply (generate_of_no_sample unit channel_attack empty_loader None
           O [3%nat] []); reflexivity.
Defined.

(** C3, as the specification words it, fails: for two series of length one
    the output of [same_shape_attack] has the shape (2, 1) of the features,
    [squeeze(-1)] makes it (2), and the assertion fails. *)
Lemma same_shape_attack_fails :
  ~ doubles_when_attack_shape_matches unit same_shape_attack thin_loader None.
Proof.
  intro H. destruct (H eq_refl) as (loader' & E & _).
  vm_compute in E. discriminate E.
Qed.

Lemma generate_fails_iff_squeezed_shape_differs_witness :
  ((exists e, _generate_adversarial_data unit same_shape_attack thin_loader None = Raise e)
   <-> shape (squeeze_last (same_shape_attack thin_loader))
       <> shape (X unit (dataset unit thin_loader))) /\
  ((shape (squeeze_last (same_shape_attack thin_loader))
    <> shape (X unit (dataset unit thin_loader)) /\
    _generate_adversarial_data unit same_shape_attack thin_loader None
    = Raise AssertionError) \/
   (shape (squeeze_last (same_shape_attack thin_loader))
    = shape (X unit (dataset unit thin_loader)) /\
    exists loader',
      _generate_adversarial_data unit same_shape_attack thin_loader None
      = Return loader')).
Proof.
  apply (generate_fails_iff_squeezed_shape_differs unit same_shape_attack thin_loader
           None 2%nat 2%nat [1%nat] []); try reflexivity.
  lia.
Defined.

(** C4, as the specification words it, fails: the output of [channel_attack]
    has the shape (2, 3, 1), which is not the shape (2, 3) of the features,
    and the method returns a loader. *)
Lemma channel_attack_does_not_fail :
  ~ fails_iff_attack_shape_differs unit channel_attack wide_loader None.
Proof.
  intros [_ H]. destruct H as [e E].
  - vm_compute. discriminate.
  - vm_compute in E. discriminate E.
Qed.

(** What the method returns for [wide_loader]. *)
Example generate_wide_loader :
  exists loader',
    _generate_adversarial_data unit channel_attack wide_loader None = Return loader' /\
    shape (X unit (dataset unit loader')) = [4; 3]%nat /\
    data (y unit (dataset unit loader')) = [0; 0; 1; 1].
Proof. eexists. vm_compute. repeat split. Qed.

End DiscTrainerSpec.

(** ** Dictionaries *)

Module DictFacts.
Import Dict.

Section Facts.
Context {V : Type}.
Implicit Types (d : Dict.t V) (k : string) (v : V).

Lemma get_none_keys k d : get k d = None <-> ~ In k (keys d).
Proof.
  induction d as [|[k' v'] d IH]; simpl.
  - tauto.
  - destruct (String.eqb_spec k k') as [->|N].
    + split; [discriminate|intro H; exfalso; apply H; left; reflexivity].
    + rewrite IH. split; [intros H [E|I]; [congruence|tauto]|tauto].
Qed.

Lemma mem_keys k d : mem k d = true <-> In k (keys d).
Proof.
  unfold mem. destruct (get k d) eqn:E.
  - split; [intros _|reflexivity].
    destruct (in_dec string_dec k (keys d)) as [I|N]; [exact I|].
    apply get_none_keys in N. congruence.
  - apply get_none_keys in E. split; [discriminate|tauto].
Qed.

Lemma mem_false_get k d : mem k d = false <-> get k d = None.
Proof. unfold mem. destruct (get k d); split; congruence. Qed.

Lemma mem_true_get k d : mem k d = true <-> exists v, get k d = Some v.
Proof.
  unfold mem. destruct (get k d) as [v|].
  - split; [exists v; reflexivity|reflexivity].
  - split; [discriminate|intros [v H]; discriminate].
Qed.

Lemma unique_keys_NoDup d : unique_keys d = true <-> NoDup (keys d).
Proof.
  induction d as [|[k v] d IH]; simpl.
  - split; [constructor|reflexivity].
  - rewrite andb_true_iff, negb_true_iff, IH, mem_false_get, get_none_keys.
    split; [intros [N D]; constructor; assumption|intro H; inversion H; auto].
Qed.

Lemma get_app k d1 d2 :
  get k (d1 ++ d2) = match get k d1 with Some v => Some v | None => get k d2 end.
Proof.
  induction d1 as [|[k' v'] d1 IH]; simpl; [reflexivity|].
  destruct (String.eqb k k'); [reflexivity|exact IH].
Qed.

(** Assignment to a new key appends the entry. *)
Lemma set_fresh k v d : get k d = None -> set k v d = d ++ [(k, v)].
Proof.
  induction d as [|[k' v'] d IH]; simpl; [reflexivity|].
  destruct (String.eqb k k'); [discriminate|].
  intro H. rewrite IH by exact H. reflexivity.
Qed.

(** Assignment to a key of the dict replaces the value where the key is. *)
Lemma set_middle k v v0 pre post :
  ~ In k (keys pre) ->
  set k v (pre ++ (k, v0) :: post) = pre ++ (k, v) :: post.
Proof.
  induction pre as [|[k' v'] pre IH]; simpl; intro N.
  - rewrite String.eqb_refl. reflexivity.
  - destruct (String.eqb_spec k k') as [->|_]; [exfalso; apply N; left; reflexivity|].
    rewrite IH by tauto. reflexivity.
Qed.

Lemma get_set_same k v d : get k (set k v d) = Some v.
Proof.
  induction d as [|[k' v'] d IH]; simpl.
  - rewrite String.eqb_refl. reflexivity.
  - destruct (String.eqb k k') eqn:E; simpl; rewrite E; [reflexivity|exact IH].
Qed.

Lemma get_set_other k k' v d : k' <> k -> get k' (set k v d) = get k' d.
Proof.
  intro N. induction d as [|[k0 v0] d IH]; simpl.
  - destruct (String.eqb_spec k' k); [contradiction|reflexivity].
  - destruct (String.eqb_spec k k0) as [->|_]; simpl.
    + destruct (String.eqb_spec k' k0); [contradiction|reflexivity].
    + rewrite IH. reflexivity.
Qed.

Lemma del_present k d : mem k d = true -> exists d', del k d = Return d'.
Proof.
  induction d as [|[k' v'] d IH]; unfold mem; simpl.
  - discriminate.
  - destruct (String.eqb k k'); [intros _; eexists; reflexivity|].
    intro H. destruct (IH H) as [d' E]. rewrite E. eexists. reflexivity.
Qed.

Lemma get_del_other k k' d d' :
  del k d = Return d' -> k' <> k -> get k' d' = get k' d.
Proof.
  revert d'. induction d as [|[k0 v0] d IH]; simpl; intros d' E N.
  - discriminate.
  - destruct (String.eqb_spec k k0) as [->|_].
    + injection E as <-. destruct (String.eqb_spec k' k0); [contradiction|reflexivity].
    + destruct (del k d) as [d1|] eqn:E1; [|discriminate].
      simpl in E. injection E as <-. simpl.
      destruct (String.eqb k' k0); [reflexivity|]. apply IH; [reflexivity|exact N].
Qed.

End Facts.

(** Lookup in a dict whose values were mapped, each with its key. *)
Lemma get_map_entries {V W : Type} (h : string -> V -> W) (k : string) (d : Dict.t V) :
  get k (map (fun e => (fst e, h (fst e) (snd e))) d)
  = option_map (h k) (get k d).
Proof.
  induction d as [|[k' v'] d IH]; simpl; [reflexivity|].
  destruct (String.eqb_spec k k') as [->|_]; [reflexivity|exact IH].
Qed.

Lemma keys_map_entries {V W : Type} (h : string -> V -> W) (d : Dict.t V) :
  keys (map (fun e => (fst e, h (fst e) (snd e))) d) = keys d.
Proof. unfold keys. rewrite map_map. reflexivity. Qed.

End DictFacts.

(** ** Search-space helpers *)

Module UtilsSpec.
Import Utils.
Import DictFacts.

(** Induction on trees, with the property available for every child. *)
Section CfgInduction.
Variable P : cfg -> Prop.
Hypothesis HVal : forall v, P (CVal v).
Hypothesis HMap : forall items, Forall (fun e => P (snd e)) items -> P (CMap items).

Fixpoint cfg_induction (c : cfg) : P c :=
  match c with
  | CVal v => HVal v
  | CMap items =>
      HMap items
        ((fix children (l : list (string * cfg)) : Forall (fun e => P (snd e)) l :=
            match l with
            | [] => Forall_nil _
            | e :: r => Forall_cons e (cfg_induction (snd e)) (children r)
            end) items)
  end.
End CfgInduction.

Section ParamInduction.
Variable P : param -> Prop.
Hypothesis HObj : forall v, P (PObj v).
Hypothesis HDict : forall items, Forall (fun e => P (snd e)) items -> P (PDict items).

Fixpoint param_induction (p : param) : P p :=
  match p with
  | PObj v => HObj v
  | PDict items =>
      HDict items
        ((fix children (l : list (string * param)) : Forall (fun e => P (snd e)) l :=
            match l with
            | [] => Forall_nil _
            | e :: r => Forall_cons e (param_induction (snd e)) (children r)
            end) items)
  end.
End ParamInduction.

(** *** update_one_best_param *)

Section UpdateOne.
Variable best_param_name : string.
Variable best_param_value : param.

Local Abbreviation turn := (update_turn best_param_name best_param_value).
Local Abbreviation entry := (updated_entry best_param_name best_param_value).

Lemma update_node_dict (d : pdict) :
  update_node best_param_name best_param_value (PDict d)
  = PDict (fold_left turn d d).
Proof. reflexivity. Qed.

Lemma update_turn_middle (pre post : pdict) (k : string) (v : param) :
  ~ In k (Dict.keys pre) ->
  turn (pre ++ (k, v) :: post) (k, v)
  = pre ++ (k, entry k v) :: post.
Proof.
  intro N. unfold update_turn, updated_entry, update_leaf. destruct v as [o|sub].
  - destruct (String.eqb_spec best_param_name k) as [->|_]; [|reflexivity].
    apply set_middle. exact N.
  - apply set_middle. exact N.
Qed.

(** The loop goes through a dict of different keys entry by entry. *)
Lemma update_loop_map (its pre : pdict) :
  NoDup (Dict.keys (pre ++ its)) ->
  fold_left turn its (pre ++ its)
  = pre ++ map (fun e => (fst e, entry (fst e) (snd e))) its.
Proof.
  revert pre. induction its as [|[k v] its IH]; intros pre ND; simpl.
  - reflexivity.
  - assert (N : ~ In k (Dict.keys pre)).
    { unfold Dict.keys in *. rewrite map_app in ND. simpl in ND.
      apply NoDup_remove_2 in ND. intro I. apply ND. apply in_or_app. left. exact I. }
    change (fold_left turn its (turn (pre ++ (k, v) :: its) (k, v))
            = pre ++ (k, entry k v) :: map
                (fun e => (fst e, entry (fst e) (snd e))) its).
    rewrite (update_turn_middle pre its k v N).
    change (pre ++ (k, entry k v) :: its)
      with (pre ++ [(k, entry k v)] ++ its).
    rewrite app_assoc. rewrite IH.
    + rewrite <- app_assoc. reflexivity.
    + unfold Dict.keys in *. rewrite <- app_assoc.
      rewrite !map_app in *. simpl in *. exact ND.
Qed.

Lemma update_node_map (d : pdict) :
  Dict.unique_keys d = true ->
  update_node best_param_name best_param_value (PDict d)
  = PDict (map (fun e => (fst e, entry (fst e) (snd e))) d).
Proof.
  intro U. rewrite update_node_dict. f_equal.
  apply (update_loop_map d []). simpl. apply unique_keys_NoDup. exact U.
Qed.

Lemma update_one_best_param_node (d : pdict) :
  PDict (update_one_best_param best_param_name best_param_value d)
  = update_node best_param_name best_param_value (PDict d).
Proof. reflexivity. Qed.

Lemma is_dict_tree_children (d : pdict) (k : string) (q : param) :
  is_dict_tree (PDict d) = true -> Dict.get k d = Some q -> is_dict_tree q = true.
Proof.
  simpl. rewrite andb_true_iff. intros [_ F]. rewrite forallb_forall in F.
  induction d as [|[k' v'] d IH]; simpl; [discriminate|].
  destruct (String.eqb k k').
  - intro E. injection E as <-. apply (F (k', v')). left. reflexivity.
  - intro E. apply IH; [|exact E]. intros x I. apply F. right. exact I.
Qed.

(** A leaf, wherever it is, takes the value when its key is the name and is
    left as it is otherwise. *)
Lemma update_node_leaf (path : list string) (k : string) (leaf : param) (p : param) :
  is_dict_tree p = true ->
  is_object leaf = true ->
  param_at (path ++ [k]) p = Some leaf ->
  param_at (path ++ [k]) (update_node best_param_name best_param_value p)
  = Some (if String.eqb best_param_name k then best_param_value else leaf).
Proof.
  revert p. induction path as [|k1 path IH]; intros p T O H.
  - destruct p as [o|d]; [discriminate|].
    assert (U : Dict.unique_keys d = true).
    { simpl in T. apply andb_true_iff in T. tauto. }
    rewrite update_node_map by exact U.
    simpl in *. rewrite (get_map_entries entry).
    destruct (Dict.get k d) as [q|]; [|discriminate].
    injection H as ->. simpl. unfold updated_entry.
    destruct leaf; [reflexivity|discriminate].
  - destruct p as [o|d]; [discriminate|].
    assert (U : Dict.unique_keys d = true).
    { simpl in T. apply andb_true_iff in T. tauto. }
    rewrite update_node_map by exact U.
    cbn [app param_at] in *. rewrite (get_map_entries entry).
    destruct (Dict.get k1 d) as [q|] eqn:G; [|discriminate].
    simpl. unfold updated_entry. destruct q as [o|sub].
    + destruct path; discriminate.
    + apply IH; [|exact O|exact H].
      exact (is_dict_tree_children d k1 (PDict sub) T G).
Qed.

(** The dicts keep different keys when the value is no dict. *)
Lemma update_node_dict_tree (p : param) :
  is_object best_param_value = true ->
  is_dict_tree p = true ->
  is_dict_tree (update_node best_param_name best_param_value p) = true.
Proof.
  intro O. induction p as [v|d IH] using param_induction; intro T.
  - reflexivity.
  - assert (U : Dict.unique_keys d = true).
    { simpl in T. apply andb_true_iff in T. tauto. }
    rewrite update_node_map by exact U.
    cbn [is_dict_tree]. apply andb_true_iff. split.
    + apply unique_keys_NoDup. rewrite (keys_map_entries entry).
      apply unique_keys_NoDup. exact U.
    + rewrite forallb_forall. intros e I. apply in_map_iff in I.
      destruct I as ([k v] & <- & I). simpl.
      rewrite Forall_forall in IH. specialize (IH (k, v) I). simpl in IH.
      assert (Tv : is_dict_tree v = true).
      { simpl in T. apply andb_true_iff in T. destruct T as [_ F].
        rewrite forallb_forall in F. exact (F (k, v) I). }
      unfold updated_entry. destruct v as [o|sub].
      * destruct (String.eqb best_param_name k); [|reflexivity].
        destruct best_param_value; [reflexivity|discriminate].
      * apply IH. exact Tv.
Qed.

End UpdateOne.

(** *** update_trainer_params *)

Lemma update_trainer_params_leaf (best : pdict) :
  forall (d : pdict) (path : list string) (k : string) (leaf : param),
    is_dict_tree (PDict d) = true ->
    Dict.unique_keys best = true ->
    forallb (fun e => is_object (snd e)) best = true ->
    is_object leaf = true ->
    param_at (path ++ [k]) (PDict d) = Some leaf ->
    param_at (path ++ [k]) (PDict (update_trainer_params best d))
    = Some (match Dict.get k best with Some v => v | None => leaf end).
Proof.
  unfold update_trainer_params, deepcopy.
  induction best as [|[n1 v1] best IH]; intros d path k leaf T U O L H.
  - exact H.
  - simpl in U, O. apply andb_true_iff in U. destruct U as [U1 U].
    apply andb_true_iff in O. destruct O as [O1 O].
    apply negb_true_iff, mem_false_get in U1.
    cbn [fold_left fst snd].
    set (leaf1 := if String.eqb n1 k then v1 else leaf).
    assert (L1 : is_object leaf1 = true).
    { unfold leaf1. destruct (String.eqb n1 k); assumption. }
    assert (H1 : param_at (path ++ [k]) (PDict (update_one_best_param n1 v1 d))
                 = Some leaf1).
    { rewrite update_one_best_param_node.
      apply update_node_leaf; assumption. }
    assert (T1 : is_dict_tree (PDict (update_one_best_param n1 v1 d)) = true).
    { rewrite update_one_best_param_node.
      apply update_node_dict_tree; assumption. }
    rewrite (IH _ path k leaf1 T1 U O L1 H1).
    simpl. unfold leaf1. rewrite (String.eqb_sym k n1).
    destruct (String.eqb_spec n1 k) as [->|_].
    + rewrite U1. reflexivity.
    + reflexivity.
Qed.

(** C7: for a tree of defaults and a flat mapping of best parameters, every
    leaf of the tree whose key is a name of the mapping, at whatever depth,
    holds after the merge the value the mapping gives to the name. *)
Theorem best_params_overwrite_matching_leaves
  (defaults best : pdict) (name : string) (value : param)
  (path : list string) (v0 : cfg) :
  is_dict_tree (PDict defaults) = true ->
  Dict.unique_keys best = true ->
  forallb (fun e => is_object (snd e)) best = true ->
  Dict.get name best = Some value ->
  param_at (path ++ [name]) (PDict defaults) = Some (PObj v0) ->
  param_at (path ++ [name]) (PDict (update_trainer_params best defaults)) = Some value.
Proof.
  intros T U O G H.
  rewrite (update_trainer_params_leaf best defaults path name (PObj v0) T U O eq_refl H).
  rewrite G. reflexivity.
Qed.

(** A leaf whose key is no name of the mapping keeps its value. *)
Lemma best_params_keep_other_leaves
  (defaults best : pdict) (k : string) (path : list string) (v0 : cfg) :
  is_dict_tree (PDict defaults) = true ->
  Dict.unique_keys best = true ->
  forallb (fun e => is_object (snd e)) best = true ->
  Dict.get k best = None ->
  param_at (path ++ [k]) (PDict defaults) = Some (PObj v0) ->
  param_at (path ++ [k]) (PDict (update_trainer_params best defaults)) = Some (PObj v0).
Proof.
  intros T U O G H.
  rewrite (update_trainer_params_leaf best defaults path k (PObj v0) T U O eq_refl H).
  rewrite G. reflexivity.
Qed.

(** *** Well-formed trees *)

Lemma space_ok_map (leaf_ok : Dict.t cfg -> bool) (items : list (string * cfg)) :
  space_ok leaf_ok (CMap items) = true <->
  Dict.mem "optuna_type" items = false /\
  NoDup (Dict.keys items) /\
  forallb (child_ok leaf_ok) items = true.
Proof.
  cbn [space_ok]. fold (child_ok leaf_ok).
  rewrite !andb_true_iff, negb_true_iff, unique_keys_NoDup. tauto.
Qed.

Lemma NoDup_keys_step {V W : Type} (acc : Dict.t V) (k : string) (w : W) (v' : V)
  (rest : Dict.t W) :
  NoDup (Dict.keys acc ++ Dict.keys ((k, w) :: rest)) ->
  Dict.get k acc = None /\
  NoDup (Dict.keys (acc ++ [(k, v')]) ++ Dict.keys rest).
Proof.
  unfold Dict.keys. simpl. intro ND. split.
  - apply get_none_keys. unfold Dict.keys.
    apply NoDup_remove_2 in ND.
    intro I. apply ND. apply in_or_app. left. exact I.
  - rewrite map_app. simpl. rewrite <- app_assoc. exact ND.
Qed.

(** The leaf reached in a well-formed tree passes the test of leaves. *)
Lemma leaf_at_ok (leaf_ok : Dict.t cfg -> bool) (path : list string) :
  forall (c : cfg) (fields : Dict.t cfg),
    space_ok leaf_ok c = true ->
    leaf_at path c = Some fields ->
    leaf_ok fields = true.
Proof.
  induction path as [|k path IH]; intros c fields Hok H.
  - destruct c as [v|items]; [discriminate|].
    apply space_ok_map in Hok. destruct Hok as (M & _ & _).
    simpl in H. rewrite M in H. discriminate.
  - destruct c as [v|items]; [discriminate|].
    apply space_ok_map in Hok. destruct Hok as (M & _ & F).
    simpl in H. rewrite M in H.
    destruct (Dict.get k items) as [sub|] eqn:G; [|discriminate].
    assert (I : In (k, sub) items \/ exists k', In (k', sub) items).
    { clear -G. induction items as [|[k' v'] items IHi]; [discriminate|].
      simpl in G. destruct (String.eqb k k').
      - injection G as ->. right. exists k'. left. reflexivity.
      - destruct (IHi G) as [I|[k2 I]]; [left; right; exact I|].
        right. exists k2. right. exact I. }
    assert (C : exists k', child_ok leaf_ok (k', sub) = true).
    { rewrite forallb_forall in F.
      destruct I as [I|[k' I]]; eexists; apply F; exact I. }
    destruct C as [k' C]. unfold child_ok in C. simpl in C.
    destruct sub as [v|fs]; [discriminate|].
    destruct (Dict.mem "optuna_type" fs) eqn:Mf.
    + destruct path; simpl in H; rewrite Mf in H; [|discriminate].
      injection H as <-. exact C.
    + apply (IH (CMap fs)); assumption.
Qed.

(** *** collect_default_params *)

Lemma collect_map (items : list (string * cfg)) :
  collect_default_params (CMap items) = Dict.for_items collect_turn items [].
Proof. reflexivity. Qed.

Lemma default_of_leaf_ok (fields : Dict.t cfg) :
  const_has_value fields = true ->
  default_of_leaf fields = Return (leaf_default fields).
Proof.
  unfold const_has_value, default_of_leaf, leaf_default, is_const, Dict.item.
  destruct (Dict.get "optuna_type" fields) as [ty|]; [|discriminate].
  cbn [bind]. destruct (is_str "const" ty); [|reflexivity].
  intro M. apply mem_true_get in M. destruct M as [v ->]. reflexivity.
Qed.

Lemma collect_loop (its : list (string * cfg)) :
  forall acc : pdict,
    Forall (fun e => collect_refines_at (snd e)) its ->
    forallb (child_ok const_has_value) its = true ->
    NoDup (Dict.keys acc ++ Dict.keys its) ->
    Dict.for_items collect_turn its acc
    = Return (acc ++ map (fun e => (fst e, defaults_tree (snd e))) its).
Proof.
  induction its as [|[k v] its IH]; intros acc HF Hok ND.
  - simpl. rewrite app_nil_r. reflexivity.
  - inversion HF as [|? ? Hv HF']; subst. simpl in Hv.
    simpl in Hok. apply andb_true_iff in Hok. destruct Hok as [Hk Hok].
    destruct (NoDup_keys_step acc k v (defaults_tree v) its ND) as [G ND'].
    assert (T : collect_turn k v acc = Return (acc ++ [(k, defaults_tree v)])).
    { unfold child_ok in Hk. simpl in Hk. destruct v as [x|fields]; [discriminate|].
      unfold collect_turn. cbn [defaults_tree].
      destruct (Dict.mem "optuna_type" fields) eqn:M.
      - rewrite (default_of_leaf_ok fields Hk). cbn [bind].
        rewrite (set_fresh k _ acc G). reflexivity.
      - rewrite (Hv Hk). cbn [bind defaults_tree]. rewrite M. cbn [items_of].
        rewrite (set_fresh k _ acc G). reflexivity. }
    cbn [Dict.for_items]. rewrite T.
    change (Dict.for_items collect_turn its (acc ++ [(k, defaults_tree v)])
            = Return (acc ++ (k, defaults_tree v)
                        :: map (fun e => (fst e, defaults_tree (snd e))) its)).
    rewrite (IH _ HF' Hok ND'). rewrite <- app_assoc. reflexivity.
Qed.

(** On a well-formed tree [collect_default_params] returns the defaults. *)
Lemma collect_refines (c : cfg) : collect_refines_at c.
Proof.
  induction c as [v|items IH] using cfg_induction; intro Hok.
  - discriminate.
  - apply space_ok_map in Hok. destruct Hok as (M & ND & F).
    rewrite collect_map, (collect_loop items [] IH F ND).
    cbn [defaults_tree]. rewrite M. reflexivity.
Qed.

Lemma defaults_tree_skeleton (c : cfg) :
  param_skeleton (defaults_tree c) = space_skeleton c.
Proof.
  induction c as [v|items IH] using cfg_induction.
  - reflexivity.
  - cbn [defaults_tree space_skeleton].
    destruct (Dict.mem "optuna_type" items).
    + unfold leaf_default. destruct (is_const items); [|reflexivity].
      destruct (Dict.get "value" items); reflexivity.
    + cbn [param_skeleton]. f_equal. rewrite map_map. cbn [fst snd].
      apply map_ext_in. intros e I. rewrite Forall_forall in IH.
      rewrite (IH e I). reflexivity.
Qed.

Lemma defaults_tree_leaf (path : list string) :
  forall (c : cfg) (fields : Dict.t cfg),
    leaf_at path c = Some fields ->
    param_at path (defaults_tree c) = Some (leaf_default fields).
Proof.
  induction path as [|k path IH]; intros c fields H.
  - destruct c as [v|items]; [discriminate|]. simpl in *.
    destruct (Dict.mem "optuna_type" items); [|discriminate].
    injection H as <-. reflexivity.
  - destruct c as [v|items]; [discriminate|]. simpl in H.
    cbn [defaults_tree].
    destruct (Dict.mem "optuna_type" items); [discriminate|].
    cbn [param_at].
    rewrite (get_map_entries (fun _ v => defaults_tree v)).
    destruct (Dict.get k items) as [sub|]; [|discriminate].
    simpl. apply IH. exact H.
Qed.

(** C5: on a well-formed search space [collect_default_params] returns the
    defaults, the merge of an empty set of best parameters leaves them as they
    are, they have the nesting and the keys of the space, and in them every
    const leaf holds its declared value and every other leaf holds [None]. *)
Theorem empty_best_keeps_defaults (tree : cfg) :
  space_ok const_has_value tree = true ->
  exists defaults,
    collect_default_params tree = Return defaults /\
    update_trainer_params [] defaults = defaults /\
    param_skeleton (PDict defaults) = space_skeleton tree /\
    forall (path : list string) (fields : Dict.t cfg),
      leaf_at path tree = Some fields ->
      if is_const fields
      then exists v, Dict.get "value" fields = Some v /\
                     param_at path (PDict (update_trainer_params [] defaults))
                     = Some (PObj v)
      else param_at path (PDict (update_trainer_params [] defaults)) = Some PNone.
Proof.
  intro Hok. exists (items_of (defaults_tree tree)).
  assert (D : PDict (items_of (defaults_tree tree)) = defaults_tree tree).
  { destruct tree as [v|items]; [discriminate|].
    apply space_ok_map in Hok. destruct Hok as (M & _ & _).
    cbn [defaults_tree]. rewrite M. reflexivity. }
  split; [exact (collect_refines tree Hok)|].
  split; [reflexivity|].
  split; [rewrite D; apply defaults_tree_skeleton|].
  intros path fields H.
  change (update_trainer_params [] (items_of (defaults_tree tree)))
    with (items_of (defaults_tree tree)).
  rewrite D, (defaults_tree_leaf path tree fields H).
  pose proof (leaf_at_ok const_has_value path tree fields Hok H) as C.
  unfold leaf_default. unfold const_has_value in C. unfold is_const in *.
  destruct (Dict.get "optuna_type" fields) as [ty|]; [|discriminate].
  destruct (is_str "const" ty); [|reflexivity].
  apply mem_true_get in C. destruct C as [v G]. rewrite G.
  exists v. split; reflexivity.
Qed.

Lemma empty_best_keeps_defaults_witness :
  exists defaults,
    collect_default_params demo_space = Return defaults /\
    update_trainer_params [] defaults = defaults /\
    param_skeleton (PDict defaults) = space_skeleton demo_space /\
    forall (path : list string) (fields : Dict.t cfg),
      leaf_at path demo_space = Some fields ->
      if is_const fields
      then exists v, Dict.get "value" fields = Some v /\
                     param_at path (PDict (update_trainer_params [] defaults))
                     = Some (PObj v)
      else param_at path (PDict (update_trainer_params [] defaults)) = Some PNone.
Proof.
  apply (empty_best_keeps_defaults demo_space). reflexivity.
Defined.

(** The defaults of [demo_space]. *)
Example demo_space_defaults :
  collect_default_params demo_space = Return demo_defaults.
Proof. reflexivity. Qed.

Lemma best_params_overwrite_matching_leaves_witness :
  param_at (["model_params"%string] ++ ["lr"%string])
    (PDict (update_trainer_params demo_best demo_defaults))
  = Some (PObj (CVal (VFloat (1 # 100)))).
Proof.
  apply (best_params_overwrite_matching_leaves demo_defaults demo_best "lr"
           (PObj (CVal (VFloat (1 # 100)))) ["model_params"%string] (CVal VNone));
    reflexivity.
Defined.

(** The merge of [demo_best] into [demo_defaults]: both leaves named [lr]
    take the value. *)
Example demo_merge :
  update_trainer_params demo_best demo_defaults
  = [("lr", PObj (CVal (VFloat (1 # 100))));
     ("batch", PObj (CVal (VInt 32)));
     ("model_params", PDict [("hidden", PObj (CVal (VInt 16)));
                             ("lr", PObj (CVal (VFloat (1 # 100))))])]%string.
Proof. reflexivity. Qed.

(** *** get_optimization_dict *)

Section Resolve.
Variable S : Sampler.

Lemma optimization_map (items : list (string * cfg)) (trial : Trial S) :
  get_optimization_dict S (CMap items) trial
  = Dict.for_items (optimization_turn S) items ([], trial).
Proof. reflexivity. Qed.

Lemma leaf_turn (k : string) (fields : Dict.t cfg) (acc : pdict) (trial : Trial S) :
  Dict.mem "optuna_type" fields = true ->
  known_kind fields = true ->
  Dict.get k acc = None ->
  (turn_outcome S) k (CMap fields) acc trial.
Proof.
  intros M K G. unfold turn_outcome, optimization_turn. rewrite M.
  unfold kwargs_of_leaf.
  destruct (del_present "optuna_type" fields M) as [d' E]. rewrite E. cbn [bind].
  unfold known_kind in K.
  destruct (Dict.get "optuna_type" fields) as [ty|] eqn:Gt; [|discriminate].
  assert (Hitem : Dict.item "optuna_type" fields = Return ty).
  { unfold Dict.item. rewrite Gt. reflexivity. }
  rewrite Hitem. cbn [bind]. cbn [space_skeleton]. rewrite M.
  set (kw := Dict.set "name" (CVal (VStr k)) d').
  assert (A : forall (v : cfg) (t : Trial S),
             (Dict.set k (PObj v) acc, t) = (acc ++ [(k, PObj v)], t)).
  { intros v t. rewrite (set_fresh k (PObj v) acc G). reflexivity. }
  unfold get_optuna_param_for_type.
  destruct (is_str "int" ty) eqn:Ti; [|destruct (is_str "float" ty) eqn:Tf;
    [|destruct (is_str "choice" ty) eqn:Tc; [|destruct (is_str "const" ty) eqn:Tk]]].
  - split.
    + intros out H. destruct (suggest_int S trial kw) as [[v t]|e]; [|discriminate].
      cbn [bind] in H. injection H as <-. exists (PObj v), t. rewrite A. split; reflexivity.
    + intro Ans. destruct (Ans trial kw) as ((v & t & H) & _). rewrite H.
      eexists. reflexivity.
  - split.
    + intros out H. destruct (suggest_float S trial kw) as [[v t]|e]; [|discriminate].
      cbn [bind] in H. injection H as <-. exists (PObj v), t. rewrite A. split; reflexivity.
    + intro Ans. destruct (Ans trial kw) as (_ & (v & t & H) & _). rewrite H.
      eexists. reflexivity.
  - split.
    + intros out H. destruct (suggest_categorical S trial kw) as [[v t]|e]; [|discriminate].
      cbn [bind] in H. injection H as <-. exists (PObj v), t. rewrite A. split; reflexivity.
    + intro Ans. destruct (Ans trial kw) as (_ & _ & (v & t & H)). rewrite H.
      eexists. reflexivity.
  - simpl in K. apply mem_true_get in K. destruct K as [v Gv].
    assert (Gk : Dict.get "value" kw = Some v).
    { unfold kw. rewrite get_set_other by discriminate.
      rewrite (get_del_other "optuna_type" "value" fields d' E) by discriminate.
      exact Gv. }
    unfold Dict.item. rewrite Gk. cbn [bind]. split.
    + intros out H. injection H as <-. exists (PObj v), trial. rewrite A.
      split; reflexivity.
    + intros _. eexists. reflexivity.
  - simpl in K. discriminate.
Qed.

Lemma node_turn (k : string) (items : list (string * cfg)) (acc : pdict)
  (trial : Trial S) :
  Dict.mem "optuna_type" items = false ->
  (mirrors_at S) (CMap items) ->
  space_ok known_kind (CMap items) = true ->
  Dict.get k acc = None ->
  (turn_outcome S) k (CMap items) acc trial.
Proof.
  intros M IH Hok G. unfold turn_outcome, optimization_turn. rewrite M.
  destruct (IH Hok trial) as [Hshape Htotal]. split.
  - intros out H.
    destruct (get_optimization_dict S (CMap items) trial) as [[sub t]|e] eqn:E;
      [|discriminate].
    cbn [bind] in H. injection H as <-. exists (PDict sub), t.
    rewrite (set_fresh k (PDict sub) acc G). split; [reflexivity|].
    apply (Hshape sub t). reflexivity.
  - intro Ans. destruct (Htotal Ans) as (sub & t & E). rewrite E.
    eexists. reflexivity.
Qed.

Lemma optimization_loop (its : list (string * cfg)) :
  forall (acc : pdict) (trial : Trial S),
    Forall (fun e => (mirrors_at S) (snd e)) its ->
    forallb (child_ok known_kind) its = true ->
    NoDup (Dict.keys acc ++ Dict.keys its) ->
    (forall acc' trial',
       Dict.for_items (optimization_turn S) its (acc, trial) = Return (acc', trial') ->
       exists new,
         acc' = acc ++ new /\
         map (fun e => (fst e, param_skeleton (snd e))) new
         = map (fun e => (fst e, space_skeleton (snd e))) its) /\
    (always_answers S ->
     exists acc' trial',
       Dict.for_items (optimization_turn S) its (acc, trial) = Return (acc', trial')).
Proof.
  induction its as [|[k v] its IH]; intros acc trial HF Hok ND.
  - split.
    + intros acc' trial' H. injection H as <- <-. exists []. rewrite app_nil_r.
      split; reflexivity.
    + intros _. eexists _, _. reflexivity.
  - inversion HF as [|? ? Hv HF']; subst. simpl in Hv.
    simpl in Hok. apply andb_true_iff in Hok. destruct Hok as [Hk Hok].
    assert (G : Dict.get k acc = None).
    { exact (proj1 (NoDup_keys_step acc k v PNone its ND)). }
    assert (T : (turn_outcome S) k v acc trial).
    { unfold child_ok in Hk. simpl in Hk. destruct v as [x|fields]; [discriminate|].
      destruct (Dict.mem "optuna_type" fields) eqn:M.
      - apply leaf_turn; assumption.
      - apply node_turn; assumption. }
    destruct T as [Tshape Ttotal]. cbn [Dict.for_items]. split.
    + intros acc' trial' H.
      destruct ((optimization_turn S) k v (acc, trial)) as [out|e] eqn:E; [|discriminate].
      destruct (Tshape out eq_refl) as (q & t & -> & Hq).
      pose proof (proj2 (NoDup_keys_step acc k v q its ND)) as ND'.
      destruct (IH (acc ++ [(k, q)]) t HF' Hok ND') as [IHshape _].
      destruct (IHshape acc' trial' H) as (new & -> & Hnew).
      exists ((k, q) :: new). rewrite <- app_assoc. split; [reflexivity|].
      simpl. rewrite Hq, Hnew. reflexivity.
    + intro Ans. destruct (Ttotal Ans) as [out E]. rewrite E.
      destruct (Tshape out E) as (q & t & -> & Hq).
      pose proof (proj2 (NoDup_keys_step acc k v q its ND)) as ND'.
      destruct (IH (acc ++ [(k, q)]) t HF' Hok ND') as [_ IHtotal].
      exact (IHtotal Ans).
Qed.

Lemma optimization_mirrors (c : cfg) : (mirrors_at S) c.
Proof.
  induction c as [v|items IH] using cfg_induction; intros Hok trial.
  - discriminate.
  - apply space_ok_map in Hok. destruct Hok as (M & ND & F).
    rewrite optimization_map.
    destruct (optimization_loop items [] trial IH F ND) as [Hshape Htotal].
    cbn [space_skeleton]. rewrite M. split.
    + intros r trial' H. destruct (Hshape r trial' H) as (new & -> & Hnew).
      simpl. rewrite Hnew. reflexivity.
    + exact Htotal.
Qed.

(** C6: for a well-formed search space (every leaf of kind int, float,
    choice or const, a const leaf with its value) and every sampler, the tree
    that [get_optimization_dict] returns has the nesting of the space and its
    keys at every level; and it does return one when the sampler answers. *)
Theorem optimization_dict_mirrors_space (tree : cfg) (trial : Trial S) :
  space_ok known_kind tree = true ->
  (forall r trial', get_optimization_dict S tree trial = Return (r, trial') ->
     param_skeleton (PDict r) = space_skeleton tree) /\
  (always_answers S ->
   exists r trial',
     get_optimization_dict S tree trial = Return (r, trial') /\
     param_skeleton (PDict r) = space_skeleton tree).
Proof.
  intro Hok. destruct (optimization_mirrors tree Hok trial) as [Hshape Htotal].
  split; [exact Hshape|].
  intro Ans. destruct (Htotal Ans) as (r & trial' & E).
  exists r, trial'. split; [exact E|]. exact (Hshape r trial' E).
Qed.

End Resolve.

Lemma demo_sampler_answers : always_answers demo_sampler.
Proof.
  intros trial kwargs. repeat split; eexists _, _; reflexivity.
Qed.

Lemma optimization_dict_mirrors_space_witness :
  (forall r trial',
     get_optimization_dict demo_sampler demo_space O = Return (r, trial') ->
     param_skeleton (PDict r) = space_skeleton demo_space) /\
  (always_answers demo_sampler ->
   exists r trial',
     get_optimization_dict demo_sampler demo_space O = Return (r, trial') /\
     param_skeleton (PDict r) = space_skeleton demo_space).
Proof.
  apply (optimization_dict_mirrors_space demo_sampler demo_space O). reflexivity.
Defined.

(** What [demo_sampler] makes of [demo_space]. *)
Example demo_space_resolved :
  get_optimization_dict demo_sampler demo_space O
  = Return ([("lr", PObj (CVal (VFloat (1 # 10000))));
             ("batch", PObj (CVal (VInt 32)));
             ("model_params", PDict [("hidden", PObj (CVal (VInt 8)));
                                     ("lr", PNone)])]%string, 3%nat).
Proof. reflexivity. Qed.

End UtilsSpec.

(** * Further properties *)

(** ** EarlyStopper *)

Module EarlyStopperMore.
Import EarlyStopper.
Import EarlyStopperSpec.

Lemma after_first_shorter (m : Q) (ls : list Q) :
  (List.length (after_first m ls) <= List.length ls)%nat.
Proof.
  induction ls as [|y ls IH]; simpl; [lia|].
  destruct (Qeq_bool y m); simpl; lia.
Qed.

Lemma after_first_strictly_shorter (m : Q) (ls : list Q) :
  ls <> [] -> (List.length (after_first m ls) < List.length ls)%nat.
Proof.
  destruct ls as [|y ls]; [congruence|]. intros _. simpl.
  pose proof (after_first_shorter m ls).
  destruct (Qeq_bool y m); simpl; lia.
Qed.

Lemma exceed_count_below_length (F : FloatAdd) (D : Q) (ls : list Q) (m : Q) :
  best_seen ls = Finite m ->
  (exceed_count F D ls + 1 <= Z.of_nat (List.length ls))%Z.
Proof.
  intro Hb. unfold exceed_count, since_best. rewrite Hb.
  assert (N : ls <> []) by (intro E; subst ls; discriminate Hb).
  pose proof (after_first_strictly_shorter m ls N) as L.
  pose proof (filter_length_le (exceeds F D (Finite m)) (after_first m ls)) as L'.
  lia.
Qed.

(** X1: a fresh stopper of patience [P] never returns true within its
    first [P] calls: the call that returns true has been preceded by at
    least [P] others, whatever the addition of the floats rounds to. *)
Theorem early_stop_not_within_patience
  (F : FloatAdd) (P : Z) (D : Q) (ls : list Q) (x : Q) :
  stops_at F P D ls x = true -> (P <= Z.of_nat (List.length ls))%Z.
Proof.
  unfold stops_at. rewrite feed_state. unfold early_stop.
  cbn [patience min_delta counter min_validation_loss].
  destruct (lt_x x (best_seen ls)); [discriminate|].
  destruct (best_seen ls) as [m|] eqn:Hb; [|discriminate].
  destruct (gt_e x (add_x F (Finite m) D)); [|discriminate].
  pose proof (exceed_count_below_length F D ls m Hb) as L.
  cbv zeta. cbn [patience counter].
  destruct (Z.leb_spec P (exceed_count F D ls + 1)); [|discriminate].
  intros _. lia.
Qed.

Lemma early_stop_not_within_patience_witness :
  (2 <= Z.of_nat (List.length [1; 2; 1]))%Z.
Proof.
  apply (early_stop_not_within_patience binary64 2 0 [1; 2; 1] 2).
  vm_compute. reflexivity.
Defined.

(** X2: once a call has returned true, every later call returns true again
    as long as no loss is a strict improvement: a loss above the float sum
    best + delta returns true, and a loss between best and that sum leaves the
    stopper as it is.  The sum is the one the floats compute, whatever it
    rounds to. *)
Theorem early_stop_stays_triggered
  (F : FloatAdd) (s : t) (x : Q) (later : list Q) (y : Q) :
  fst (early_stop F s x) = true ->
  forallb (fun z => negb (lt_x z (min_validation_loss s))) (later ++ [y]) = true ->
  gt_e y (add_x F (min_validation_loss s) (min_delta s)) = true ->
  fst (early_stop F (feed F (snd (early_stop F s x)) later) y) = true.
Proof.
  intros Hx Hall Hy.
  assert (Inv : forall s0 : t,
             (patience s0 <= counter s0)%Z ->
             min_validation_loss s0 = min_validation_loss s ->
             min_delta s0 = min_delta s ->
             fst (early_stop F (feed F s0 later) y) = true).
  { clear Hx. revert Hall. induction later as [|z later IH]; intros Hall s0 Hc Hm Hd.
    - simpl in Hall. rewrite andb_true_r in Hall. apply negb_true_iff in Hall.
      unfold feed. simpl. unfold early_stop. rewrite Hm, Hd, Hall, Hy. cbv zeta. simpl.
      destruct (Z.leb_spec (patience s0) (counter s0 + 1)); [reflexivity|lia].
    - simpl in Hall. apply andb_true_iff in Hall. destruct Hall as [Hz Hall].
      apply negb_true_iff in Hz.
      unfold feed. simpl. fold (feed F (snd (early_stop F s0 z)) later).
      apply (IH Hall).
      + unfold early_stop. rewrite Hm, Hz.
        destruct (gt_e z _); [|exact Hc].
        cbv zeta. destruct (_ <=? _)%Z; simpl; lia.
      + unfold early_stop. rewrite Hm, Hz.
        destruct (gt_e z _); [|exact Hm].
        cbv zeta. destruct (_ <=? _)%Z; reflexivity.
      + unfold early_stop. rewrite Hm, Hz.
        destruct (gt_e z _); [|exact Hd].
        cbv zeta. destruct (_ <=? _)%Z; exact Hd. }
  destruct (lt_x x (min_validation_loss s)) eqn:E;
    [rewrite (early_stop_improve F s x E) in Hx; discriminate|].
  destruct (gt_e x (add_x F (min_validation_loss s) (min_delta s))) eqn:G;
    [|unfold early_stop in Hx; rewrite E, G in Hx; discriminate].
  rewrite (early_stop_exceed F s x E G) in Hx |- *.
  cbn [fst snd] in Hx |- *. apply Z.leb_le in Hx.
  apply Inv; simpl; [exact Hx|reflexivity|reflexivity].
Qed.

(** Patience 2 and delta 0.125 on binary64 floats: the losses 1, 2 and 3
    trigger the stopper; 1.0625, between the best loss 1 and 1.125, leaves it
    as it is, and the calls for 5 and 2 return true again. *)
Lemma early_stop_stays_triggered_witness :
  fst (early_stop binary64
         (feed binary64
            (snd (early_stop binary64
                    (feed binary64 (init (Some 2%Z) (Some (1 # 8))) [1; 2]) 3))
            [17 # 16; 5])
         2) = true.
Proof.
  apply (early_stop_stays_triggered binary64
           (feed binary64 (init (Some 2%Z) (Some (1 # 8))) [1; 2]) 3 [17 # 16; 5] 2);
    vm_compute; reflexivity.
Defined.

End EarlyStopperMore.

(** ** The steps of an epoch *)

Module TrainerSteps.
Import Trainer.
Import TrainerTrace.
Import TrainerSpec.

Section Steps.
Variable c : Collaborators.
Variable self : t.

(** The accumulators after the batch loop of [_train_step]. *)
Lemma train_batches (l : loader c) (a : batch_acc c) :
  fold_left (train_batch c self) l a
  = {| losses := fold_left (add_loss c) (batch_losses c l (acc_world c a)) (losses c a);
       y_all_pred := y_all_pred c a ++ train_preds c self l (acc_world c a);
       y_all_true := y_all_true c a ++ all_labels c l;
       acc_world := world_after c l (acc_world c a) |}.
Proof.
  revert a. induction l as [|[x labels] l IH]; intro a.
  - simpl. rewrite !app_nil_r. destruct a; reflexivity.
  - cbn [fold_left]. rewrite IH. unfold all_labels.
    cbn [train_batch batch_losses train_preds world_after flat_map
         losses y_all_pred y_all_true acc_world fold_left snd].
    rewrite !app_assoc. reflexivity.
Qed.

(** The accumulators after the batch loop of [_valid_step]. *)
Lemma valid_batches (l : loader c) (a : batch_acc c) :
  fold_left (valid_batch c self) l a
  = {| losses := fold_left (add_loss c) (valid_losses c l (acc_world c a)) (losses c a);
       y_all_pred := y_all_pred c a ++ valid_preds c self l (acc_world c a);
       y_all_true := y_all_true c a ++ all_labels c l;
       acc_world := acc_world c a |}.
Proof.
  revert a. induction l as [|[x labels] l IH]; intro a.
  - simpl. rewrite !app_nil_r. destruct a; reflexivity.
  - cbn [fold_left]. rewrite IH. unfold all_labels, valid_losses, valid_preds.
    cbn [valid_batch map flat_map losses y_all_pred y_all_true acc_world
         fold_left fst snd reshape_col data].
    rewrite !app_assoc. reflexivity.
Qed.

(** X3: over a loader of at least one batch, [_train_step] returns the
    mean loss followed by the metrics that the estimator computes from the
    true and the predicted labels of all batches together, and it leaves the
    model as the optimizer steps of all batches made it. *)
Theorem train_step_metrics_over_all_batches
  (b : Features c * tensor) (bs : loader c) (w : World c) :
  exists mean_loss,
    _train_step c self (b :: bs) w
    = Return (mean_loss
                :: estimate c (all_labels c (b :: bs))
                     (train_preds c self (b :: bs) w),
              world_after c (b :: bs) w).
Proof.
  unfold _train_step, finish_step. rewrite train_batches.
  cbn [losses y_all_pred y_all_true acc_world start_acc app].
  destruct b as [x labels]. cbn [batch_losses].
  rewrite add_loss_sum. cbn [to_numpy bind]. eexists. reflexivity.
Qed.

(** X4: over a loader of at least one batch, [_valid_step] returns the sum
    of the batch losses, accumulated in their order from 0 by the addition of
    the tensors, divided by the number of batches with the division of numpy
    (the sum and the quotient are those the floats compute, whatever they
    round to), then the metrics of the labels of all batches together, and it
    leaves the model as it was: every batch is evaluated on the same weights. *)
Theorem valid_step_mean_and_frame
  (b : Features c * tensor) (bs : loader c) (w : World c) :
  _valid_step c self (b :: bs) w
  = Return (numpy_div c (tensor_sum c (valid_losses c (b :: bs) w))
              (Z.of_nat (List.length (b :: bs)))
              :: estimate c (all_labels c (b :: bs))
                   (valid_preds c self (b :: bs) w),
            w).
Proof.
  unfold _valid_step, finish_step. rewrite valid_batches.
  cbn [losses y_all_pred y_all_true acc_world start_acc app].
  destruct b as [x labels]. unfold valid_losses. cbn [map fst snd].
  rewrite add_loss_sum. reflexivity.
Qed.

(** A validation step over no batch raises like a training step. *)
Lemma valid_step_no_batch (w : World c) :
  _valid_step c self [] w = Raise AttributeError.
Proof. reflexivity. Qed.

End Steps.

End TrainerSteps.

(** ** Runs of the epoch loop *)

Module TrainerRuns.
Import Trainer.
Import TrainerTrace.
Import TrainerSpec.

Lemma last_metrics_cons (m : Dict.t Q) (ms : list (Dict.t Q)) (last : option (Dict.t Q)) :
  last_metrics (m :: ms) last = last_metrics ms (Some m).
Proof.
  unfold last_metrics. simpl. destruct (rev ms) as [|m' r]; reflexivity.
Qed.

Lemma range_length (n : Z) : List.length (range n) = Z.to_nat n.
Proof. unfold range. rewrite length_map, length_seq. reflexivity. Qed.

Section Runs.
Variable c : Collaborators.
Variable self : t.
Variables train_loader valid_loader : loader c.

Local Abbreviation loop :=
  (epoch_loop c self (metric_names_of c) train_loader valid_loader).
Local Abbreviation run := (run_epochs c self train_loader valid_loader).
Local Abbreviation body :=
  (epoch_body c self (metric_names_of c) train_loader valid_loader).

(** With no stopper the loop is the run of all its epochs. *)
Lemma epoch_loop_no_stopper (epochs : list Z) :
  forall (st : state c) (last : option (Dict.t Q)),
    loop epochs st None last
    = ' (ms, st') <- run epochs st ;; Return (last_metrics ms last, st').
Proof.
  induction epochs as [|e epochs IH]; intros st last.
  - reflexivity.
  - cbn [epoch_loop run_epochs].
    destruct (body st e) as [[m st1]|err]; [|reflexivity].
    cbn [bind]. rewrite IH.
    destruct (run epochs st1) as [[ms st2]|err]; [|reflexivity].
    cbn [bind]. rewrite last_metrics_cons. reflexivity.
Qed.

(** X5: when early stopping is not configured ([early_stop_patience] is
    [None], the string "None" or 0), [train_model] runs every epoch of
    [range(n_epochs)] and returns the validation metrics of the last one; an
    exception of an epoch is that of [train_model]. *)
Theorem train_model_without_stopper_runs_all_epochs (st : state c) :
  early_stop_patience self = PatienceNone \/
  early_stop_patience self = PatienceNoneString \/
  early_stop_patience self = PatienceInt 0 ->
  train_model c self train_loader valid_loader st
  = ' (ms, st') <- run (range (n_epochs self)) (enter_loop c self train_loader st) ;;
    return_metrics (last_metrics ms None) st'.
Proof.
  intro H.
  assert (N : make_stopper self = None).
  { unfold make_stopper. destruct H as [->|[->| ->]]; reflexivity. }
  unfold train_model. rewrite N, epoch_loop_no_stopper.
  destruct (run _ _) as [[ms st']|err]; reflexivity.
Qed.

(** The loop with a stopper that returns true at the last of [epochs]. *)
Lemma epoch_loop_stops (epochs : list Z) :
  forall (rest : list Z) (st st' : state c) (stopper : EarlyStopper.t)
         (last : option (Dict.t Q)) (ms : list (Dict.t Q)) (vs : list Q) (k : nat),
    run epochs st = Return (ms, st') ->
    map (Dict.get "loss") ms = map Some vs ->
    first_stop (float_add c) stopper vs = Some k ->
    List.length epochs = S k ->
    loop (epochs ++ rest) st (Some stopper) last = Return (last_metrics ms last, st').
Proof.
  induction epochs as [|e epochs IH];
    intros rest st st' stopper last ms vs k Hrun Hvs Hstop Hlen.
  - discriminate.
  - cbn [run_epochs] in Hrun.
    destruct (body st e) as [[m st1]|err] eqn:E; [|discriminate].
    cbn [bind] in Hrun.
    destruct (run epochs st1) as [[ms1 st2]|err] eqn:R; [|discriminate].
    cbn [bind] in Hrun. injection Hrun as <- <-.
    destruct vs as [|v vs]; [discriminate|].
    cbn [map] in Hvs. injection Hvs as Hv Hvs.
    cbn [app]. rewrite (epoch_loop_step c self train_loader valid_loader
                          _ e (epochs ++ rest) st st1 stopper last m v E Hv).
    cbn [first_stop] in Hstop.
    destruct (fst (EarlyStopper.early_stop (float_add c) stopper v)).
    + injection Hstop as <-. destruct epochs; [|discriminate].
      cbn [run_epochs] in R. injection R as <- <-. reflexivity.
    + destruct (first_stop _ _ vs) as [k'|] eqn:F; [|discriminate].
      cbn [option_map] in Hstop. injection Hstop as <-.
      rewrite last_metrics_cons.
      apply (IH rest st1 st2 _ (Some m) ms1 vs k' R Hvs F).
      simpl in Hlen. lia.
Qed.

(** The loop with a stopper that never returns true. *)
Lemma epoch_loop_never_stops (epochs : list Z) :
  forall (st st' : state c) (stopper : EarlyStopper.t)
         (last : option (Dict.t Q)) (ms : list (Dict.t Q)) (vs : list Q),
    run epochs st = Return (ms, st') ->
    map (Dict.get "loss") ms = map Some vs ->
    first_stop (float_add c) stopper vs = None ->
    loop epochs st (Some stopper) last = Return (last_metrics ms last, st').
Proof.
  induction epochs as [|e epochs IH];
    intros st st' stopper last ms vs Hrun Hvs Hstop.
  - cbn [run_epochs] in Hrun. injection Hrun as <- <-. reflexivity.
  - cbn [run_epochs] in Hrun.
    destruct (body st e) as [[m st1]|err] eqn:E; [|discriminate].
    cbn [bind] in Hrun.
    destruct (run epochs st1) as [[ms1 st2]|err] eqn:R; [|discriminate].
    cbn [bind] in Hrun. injection Hrun as <- <-.
    destruct vs as [|v vs]; [discriminate|].
    cbn [map] in Hvs. injection Hvs as Hv Hvs.
    rewrite (epoch_loop_step c self train_loader valid_loader
               _ e epochs st st1 stopper last m v E Hv).
    cbn [first_stop] in Hstop.
    destruct (fst (EarlyStopper.early_stop (float_add c) stopper v)); [discriminate|].
    destruct (first_stop _ _ vs) as [k'|] eqn:F; [discriminate|].
    rewrite last_metrics_cons.
    apply (IH st1 st2 _ (Some m) ms1 vs R Hvs F).
Qed.

(** X6: when the first [k + 1] epochs run with validation losses [vs] and
    the stopper built from the patience returns true for the first time at
    the last of these losses, [train_model] returns the validation metrics of
    epoch [k + 1] in the state that epoch left: no later epoch runs. *)
Theorem train_model_stops_at_first_signal
  (st st' : state c) (stopper : EarlyStopper.t)
  (ms : list (Dict.t Q)) (vs : list Q) (k : nat) :
  make_stopper self = Some stopper ->
  (k < Z.to_nat (n_epochs self))%nat ->
  run (firstn (S k) (range (n_epochs self))) (enter_loop c self train_loader st)
  = Return (ms, st') ->
  map (Dict.get "loss") ms = map Some vs ->
  first_stop (float_add c) stopper vs = Some k ->
  train_model c self train_loader valid_loader st
  = return_metrics (last_metrics ms None) st'.
Proof.
  intros Hmk Hk Hrun Hvs Hstop.
  unfold train_model. rewrite Hmk.
  rewrite <- (firstn_skipn (S k) (range (n_epochs self))) at 1.
  rewrite (epoch_loop_stops _ _ _ _ _ None _ _ _ Hrun Hvs Hstop).
  - reflexivity.
  - rewrite length_firstn, range_length. lia.
Qed.

(** X7: when all the epochs run with validation losses [vs] and the stopper
    built from the patience never returns true on them, [train_model] returns
    the validation metrics of the last epoch of [range(n_epochs)]. *)
Theorem train_model_without_signal_runs_all_epochs
  (st st' : state c) (stopper : EarlyStopper.t)
  (ms : list (Dict.t Q)) (vs : list Q) :
  make_stopper self = Some stopper ->
  run (range (n_epochs self)) (enter_loop c self train_loader st) = Return (ms, st') ->
  map (Dict.get "loss") ms = map Some vs ->
  first_stop (float_add c) stopper vs = None ->
  train_model c self train_loader valid_loader st
  = return_metrics (last_metrics ms None) st'.
Proof.
  intros Hmk Hrun Hvs Hstop.
  unfold train_model. rewrite Hmk.
  rewrite (epoch_loop_never_stops _ _ _ _ None _ _ Hrun Hvs Hstop).
  reflexivity.
Qed.

End Runs.

End TrainerRuns.

(** ** Dictionaries built by insertion *)

Module DictBuild.
Import Dict.
Import DictFacts.

Section Build.
Context {V : Type}.
Implicit Types (d : Dict.t V) (k : string) (v : V).

Lemma set_keys k v d :
  keys (set k v d) = if mem k d then keys d else keys d ++ [k].
Proof.
  induction d as [|[k' v'] d IH]; simpl.
  - reflexivity.
  - unfold mem in *. simpl. destruct (String.eqb_spec k k') as [->|N]; simpl.
    + reflexivity.
    + rewrite IH. destruct (get k d); reflexivity.
Qed.

Lemma set_unique k v d : NoDup (keys d) -> NoDup (keys (set k v d)).
Proof.
  intro ND. rewrite set_keys. destruct (mem k d) eqn:M; [exact ND|].
  apply mem_false_get, get_none_keys in M.
  apply NoDup_app; [exact ND|constructor; [intros []|constructor]|].
  intros x I [<-|[]]. contradiction.
Qed.

Lemma set_values (P : V -> Prop) k v d :
  Forall (fun e => P (snd e)) d -> P v -> Forall (fun e => P (snd e)) (set k v d).
Proof.
  intros F Hv. induction d as [|[k' v'] d IH]; simpl.
  - constructor; [exact Hv|constructor].
  - inversion F as [|? ? He F']; subst.
    destruct (String.eqb k k'); constructor; auto.
Qed.

Lemma fold_set_unique (kvs : list (string * V)) d :
  NoDup (keys d) ->
  NoDup (keys (fold_left (fun d kv => set (fst kv) (snd kv) d) kvs d)).
Proof.
  revert d. induction kvs as [|[k v] kvs IH]; intros d ND; simpl.
  - exact ND.
  - apply IH. apply set_unique. exact ND.
Qed.

Lemma fold_set_values (P : V -> Prop) (kvs : list (string * V)) d :
  Forall (fun e => P (snd e)) d ->
  Forall (fun e => P (snd e)) kvs ->
  Forall (fun e => P (snd e)) (fold_left (fun d kv => set (fst kv) (snd kv) d) kvs d).
Proof.
  revert d. induction kvs as [|[k v] kvs IH]; intros d Fd Fk; simpl.
  - exact Fd.
  - inversion Fk as [|? ? Hv Fk']; subst. apply IH; [|exact Fk'].
    apply set_values; assumption.
Qed.

(** A dict built by insertion has different keys. *)
Lemma of_pairs_unique (kvs : list (string * V)) : NoDup (keys (of_pairs kvs)).
Proof. apply fold_set_unique. constructor. Qed.

Lemma of_pairs_values (P : V -> Prop) (kvs : list (string * V)) :
  Forall (fun e => P (snd e)) kvs -> Forall (fun e => P (snd e)) (of_pairs kvs).
Proof. apply fold_set_values. constructor. Qed.

Lemma fold_set_head (kvs : list (string * V)) k v d :
  exists v' d',
    fold_left (fun d kv => set (fst kv) (snd kv) d) kvs ((k, v) :: d) = (k, v') :: d'.
Proof.
  revert v d. induction kvs as [|[k1 v1] kvs IH]; intros v d; simpl.
  - eexists _, _. reflexivity.
  - destruct (String.eqb k1 k); apply IH.
Qed.

(** The first pair inserted gives the first key of the dict. *)
Lemma of_pairs_head k v (kvs : list (string * V)) :
  exists v' d', of_pairs ((k, v) :: kvs) = (k, v') :: d'.
Proof. unfold of_pairs. simpl. apply fold_set_head. Qed.

End Build.

End DictBuild.

(** ** The log of metrics *)

Module TrainerLog.
Import Trainer.
Import TrainerTrace.
Import DictFacts.
Import DictBuild.

Section Log.
Variable c : Collaborators.

(** One turn of the loop of [_logging]. *)
Local Abbreviation log_turn data epoch mode :=
  (fun metric (_ : list Q) (st : state c) =>
     per_mode <- Dict.item mode (dict_logging c st) ;;
     series <- Dict.item metric per_mode ;;
     v <- Dict.item metric data ;;
     let logged := Dict.set mode (Dict.set metric (series ++ [v]) per_mode)
                     (dict_logging c st) in
     match logger c st with
     | None => Raise AttributeError
     | Some scalars =>
         Return {| world := world c st;
                   dict_logging := logged;
                   logger := Some (scalars ++ [(metric ++ "/" ++ mode, v, epoch)%string]) |}
     end).

Lemma logging_loop (data : Dict.t Q) (epoch : Z) (mode : string)
  (its : Dict.t (list Q)) :
  forall (pre : Dict.t (list Q)) (st st' : state c),
    Dict.get mode (dict_logging c st) = Some (pre ++ its) ->
    NoDup (Dict.keys (pre ++ its)) ->
    Dict.for_items (log_turn data epoch mode) its st = Return st' ->
    exists its',
      Dict.get mode (dict_logging c st') = Some (pre ++ its') /\
      Dict.keys its' = Dict.keys its /\
      Forall2 (fun e e' => List.length (snd e') = S (List.length (snd e))) its its' /\
      (forall other, other <> mode ->
         Dict.get other (dict_logging c st') = Dict.get other (dict_logging c st)) /\
      world c st' = world c st /\
      (logger c st = None -> its = []).
Proof.
  induction its as [|[k s0] its IH]; intros pre st st' G ND H.
  - cbn [Dict.for_items] in H. injection H as <-. exists [].
    repeat split; try reflexivity; [exact G|constructor].
  - cbn [Dict.for_items] in H.
    assert (N : ~ In k (Dict.keys pre)).
    { unfold Dict.keys in *. rewrite map_app in ND. simpl in ND.
      apply NoDup_remove_2 in ND. intro I. apply ND, in_or_app. left. exact I. }
    unfold Dict.item at 1 in H. rewrite G in H. cbn [bind] in H.
    assert (Gk : Dict.get k (pre ++ (k, s0) :: its) = Some s0).
    { rewrite get_app. apply get_none_keys in N. rewrite N. simpl.
      rewrite String.eqb_refl. reflexivity. }
    unfold Dict.item at 1 in H. rewrite Gk in H. cbn [bind] in H.
    destruct (Dict.item k data) as [v|err]; [|discriminate]. cbn [bind] in H.
    destruct (logger c st) as [scalars|] eqn:L; [|discriminate].
    rewrite (set_middle k (s0 ++ [v]) s0 pre its N) in H.
    match type of H with
    | Dict.for_items _ _ ?st1 = _ => set (st1' := st1) in H
    end.
    assert (G1 : Dict.get mode (dict_logging c st1')
                 = Some ((pre ++ [(k, s0 ++ [v])]) ++ its)).
    { unfold st1'. cbn [dict_logging]. rewrite get_set_same, <- app_assoc. reflexivity. }
    assert (ND1 : NoDup (Dict.keys ((pre ++ [(k, s0 ++ [v])]) ++ its))).
    { unfold Dict.keys in *. rewrite <- app_assoc. rewrite !map_app in *. exact ND. }
    destruct (IH _ st1' st' G1 ND1 H) as (its' & G' & K' & F' & O' & W' & _).
    exists ((k, s0 ++ [v]) :: its').
    repeat split.
    + rewrite G', <- app_assoc. reflexivity.
    + unfold Dict.keys in *. simpl. rewrite K'. reflexivity.
    + constructor; [|exact F']. simpl. rewrite length_app. simpl. lia.
    + intros other Ho. rewrite (O' other Ho). unfold st1'. cbn [dict_logging].
      apply get_set_other. exact Ho.
    + rewrite W'. reflexivity.
    + intro E. discriminate.
Qed.

(** What [_logging] does to the log when it returns: every series of the
    split gets one entry more, the other split is left as it is. *)
Lemma logging_effect (st st' : state c) (data : Dict.t Q) (epoch : Z) (mode : string)
  (per_mode : Dict.t (list Q)) :
  Dict.get mode (dict_logging c st) = Some per_mode ->
  NoDup (Dict.keys per_mode) ->
  _logging c st data epoch mode = Return st' ->
  exists per_mode',
    Dict.get mode (dict_logging c st') = Some per_mode' /\
    Dict.keys per_mode' = Dict.keys per_mode /\
    (forall n, series_of_length n per_mode -> series_of_length (S n) per_mode') /\
    (forall other, other <> mode ->
       Dict.get other (dict_logging c st') = Dict.get other (dict_logging c st)).
Proof.
  intros G ND H. unfold _logging in H. unfold Dict.item at 1 in H.
  rewrite G in H. cbn [bind] in H.
  destruct (logging_loop data epoch mode per_mode [] st st' G ND H)
    as (pm' & G' & K' & F' & O' & _).
  exists pm'. repeat split; try assumption.
  intros n Hn. unfold series_of_length in *.
  clear -F' Hn. induction F' as [|e e' l l' He F IH]; [constructor|].
  inversion Hn as [|? ? Hl Hn']; subst.
  constructor; [lia|apply IH; exact Hn'].
Qed.

Variable self : t.
Variables train_loader valid_loader : loader c.
Variable names : list string.
Hypothesis names_unique : NoDup names.

(** An epoch adds one entry to every series of both splits. *)
Lemma epoch_body_logs (metric_names : list string) (st st' : state c) (epoch : Z)
  (metrics : Dict.t Q) (n : nat) :
  logged n names (dict_logging c st) ->
  epoch_body c self metric_names train_loader valid_loader st epoch
  = Return (metrics, st') ->
  logged (S n) names (dict_logging c st').
Proof.
  intros (tr & te & Gtr & Gte & Ktr & Kte & Ltr & Lte) H.
  unfold epoch_body in H.
  destruct (_train_step c self train_loader (world c st)) as [[tv w1]|err];
    [|discriminate].
  cbn [bind] in H.
  destruct (_logging c (with_world c st w1) _ epoch "train") as [st1|err] eqn:E1;
    [|discriminate].
  cbn [bind] in H.
  destruct (_valid_step c self valid_loader (world c st1)) as [[vv w2]|err];
    [|discriminate].
  cbn [bind] in H.
  destruct (_logging c (with_world c st1 w2) _ epoch "test") as [st2|err] eqn:E2;
    [|discriminate].
  cbn [bind] in H.
  assert (D : dict_logging c st' = dict_logging c st2).
  { destruct (print_every self =? 0)%Z; [discriminate|].
    destruct (epoch mod print_every self =? 0)%Z.
    - destruct (print_line _ _); [|discriminate]. cbn [bind] in H.
      injection H as _ <-. destruct (has_scheduler self); reflexivity.
    - cbn [bind] in H. injection H as _ <-.
      destruct (has_scheduler self); reflexivity. }
  rewrite D.
  assert (Utr : NoDup (Dict.keys tr)) by (rewrite Ktr; exact names_unique).
  assert (Ute : NoDup (Dict.keys te)) by (rewrite Kte; exact names_unique).
  destruct (logging_effect (with_world c st w1) st1 _ epoch "train" tr Gtr Utr E1)
    as (tr' & Gtr' & Ktr' & Ltr' & Otr).
  assert (Gte1 : Dict.get "test" (dict_logging c (with_world c st1 w2)) = Some te).
  { cbn [with_world dict_logging]. rewrite Otr by discriminate. exact Gte. }
  destruct (logging_effect (with_world c st1 w2) st2 _ epoch "test" te Gte1 Ute E2)
    as (te' & Gte' & Kte' & Lte' & Ote).
  exists tr', te'. repeat split.
  - rewrite Ote by discriminate. exact Gtr'.
  - exact Gte'.
  - rewrite Ktr'. exact Ktr.
  - rewrite Kte'. exact Kte.
  - apply Ltr'. exact Ltr.
  - apply Lte'. exact Lte.
Qed.

(** The loop adds as many entries as it runs epochs. *)
Lemma epoch_loop_logs (metric_names : list string) (epochs : list Z) :
  forall (st st' : state c) (stopper : option EarlyStopper.t)
         (last res : option (Dict.t Q)) (n : nat),
    logged n names (dict_logging c st) ->
    epoch_loop c self metric_names train_loader valid_loader epochs st stopper last
    = Return (res, st') ->
    exists i,
      (i <= List.length epochs)%nat /\
      logged (n + i) names (dict_logging c st') /\
      (i = O -> res = last).
Proof.
  induction epochs as [|e epochs IH]; intros st st' stopper last res n L H.
  - cbn [epoch_loop] in H. injection H as <- <-. exists O.
    rewrite Nat.add_0_r. repeat split; [lia|exact L].
  - cbn [epoch_loop] in H.
    destruct (epoch_body c self metric_names train_loader valid_loader st e)
      as [[m st1]|err] eqn:E; [|discriminate].
    cbn [bind] in H.
    pose proof (epoch_body_logs metric_names st st1 e m n L E) as L1.
    destruct stopper as [stopper|].
    + destruct (Dict.item "loss" m) as [v|err]; [|discriminate]. cbn [bind] in H.
      destruct (EarlyStopper.early_stop (float_add c) stopper v) as [[|] stopper'].
      * injection H as <- <-. exists 1%nat.
        rewrite Nat.add_1_r. repeat split; [simpl; lia|exact L1|discriminate].
      * destruct (IH _ _ _ _ _ _ L1 H) as (i & Hi & Li & _).
        exists (S i). rewrite Nat.add_succ_r.
        repeat split; [simpl; lia|exact Li|discriminate].
    + destruct (IH _ _ _ _ _ _ L1 H) as (i & Hi & Li & _).
      exists (S i). rewrite Nat.add_succ_r.
      repeat split; [simpl; lia|exact Li|discriminate].
Qed.

End Log.

Section Run.
Variable c : Collaborators.
Variable self : t.
Variables train_loader valid_loader : loader c.

Lemma fresh_logging_logged : logged O (logged_names c) (fresh_logging c).
Proof.
  exists (Dict.of_pairs (map (fun m => (m, @nil Q)) (metric_names_of c))),
         (Dict.of_pairs (map (fun m => (m, @nil Q)) (metric_names_of c))).
  assert (Z0 : series_of_length O
                 (Dict.of_pairs (map (fun m => (m, @nil Q)) (metric_names_of c)))).
  { apply (of_pairs_values (fun s => List.length s = O)).
    apply Forall_forall. intros e I. apply in_map_iff in I.
    destruct I as (m & <- & _). reflexivity. }
  repeat split; try reflexivity; exact Z0.
Qed.

(** X8: when [train_model] returns, it ran some number [k] of epochs, at
    least one and at most [n_epochs], and [self.dict_logging] holds both
    splits under the same metric names with exactly [k] entries for every
    metric of either split. *)
Theorem train_model_logs_one_entry_per_epoch
  (st st' : state c) (metrics : Dict.t Q) :
  train_model c self train_loader valid_loader st = Return (metrics, st') ->
  exists k,
    (1 <= k <= Z.to_nat (n_epochs self))%nat /\
    logged k (logged_names c) (dict_logging c st').
Proof.
  intro H. unfold train_model in H.
  destruct (epoch_loop _ _ _ _ _ _ _ _ _) as [[res st1]|err] eqn:E; [|discriminate].
  cbn [bind] in H. destruct res as [m|]; [|discriminate].
  injection H as <- <-.
  assert (U : NoDup (logged_names c)) by apply of_pairs_unique.
  destruct (epoch_loop_logs c self train_loader valid_loader (logged_names c) U
              (metric_names_of c) (range (n_epochs self))
              (enter_loop c self train_loader st) st1 (make_stopper self) None
              (Some m) O fresh_logging_logged E) as (i & Hi & Li & Hz).
  exists i. rewrite TrainerRuns.range_length in Hi. simpl in Li.
  split; [|exact Li].
  split; [|exact Hi].
  destruct i; [|lia]. specialize (Hz eq_refl). discriminate.
Qed.

End Run.

End TrainerLog.

(** ** Runs that cannot complete an epoch *)

Module TrainerFailures.
Import Trainer.
Import TrainerTrace.
Import DictBuild.

Lemma range_first (n : Z) :
  (1 <= n)%Z -> exists rest, range n = 0%Z :: rest.
Proof.
  intro H. unfold range. destruct (Z.to_nat n) as [|m] eqn:E; [lia|].
  simpl. eexists. reflexivity.
Qed.

Section Failures.
Variable c : Collaborators.
Variable self : t.
Variables train_loader valid_loader : loader c.

Lemma train_step_returns (b : Features c * tensor) (bs : loader c) (w : World c) :
  exists mean_loss metrics w',
    _train_step c self (b :: bs) w = Return (mean_loss :: metrics, w').
Proof.
  unfold _train_step, finish_step. rewrite TrainerSteps.train_batches.
  cbn [losses y_all_pred y_all_true acc_world start_acc app].
  destruct b as [x labels]. cbn [batch_losses].
  rewrite TrainerSpec.add_loss_sum. cbn [to_numpy bind]. eexists _, _, _. reflexivity.
Qed.

(** When the first epoch raises, so does [train_model]. *)
Lemma train_model_first_epoch_raises (st : state c) (e : exn) :
  (1 <= n_epochs self)%Z ->
  epoch_body c self (metric_names_of c) train_loader valid_loader
    (enter_loop c self train_loader st) 0%Z = Raise e ->
  train_model c self train_loader valid_loader st = Raise e.
Proof.
  intros Hn E. unfold train_model.
  destruct (range_first (n_epochs self) Hn) as [rest ->].
  cbn [epoch_loop]. rewrite E. reflexivity.
Qed.

(** X9: with [print_every] 0 and at least one epoch to run, [train_model]
    never returns: the first epoch raises, at the latest when it takes the
    epoch modulo [print_every]. *)
Theorem train_model_print_every_zero_raises (st : state c) :
  (1 <= n_epochs self)%Z ->
  print_every self = 0%Z ->
  exists e, train_model c self train_loader valid_loader st = Raise e.
Proof.
  intros Hn Hp.
  assert (B : exists e,
             epoch_body c self (metric_names_of c) train_loader valid_loader
               (enter_loop c self train_loader st) 0%Z = Raise e).
  { unfold epoch_body.
    destruct (_train_step _ _ _ _) as [[tv w1]|e]; [|eexists; reflexivity].
    cbn [bind].
    destruct (_logging _ _ _ _ "train") as [st1|e]; [|eexists; reflexivity].
    cbn [bind].
    destruct (_valid_step _ _ _ _) as [[vv w2]|e]; [|eexists; reflexivity].
    cbn [bind].
    destruct (_logging _ _ _ _ "test") as [st2|e]; [|eexists; reflexivity].
    cbn [bind]. rewrite Hp. cbn [Z.eqb bind]. eexists. reflexivity. }
  destruct B as [e E]. exists e.
  apply train_model_first_epoch_raises; assumption.
Qed.

(** X10: with at least one epoch to run, [train_model] raises
    [AttributeError] when the training loader yields no batch (the sum of the
    losses is still the int 0) and when the trainer has no logger, which is
    the default of the constructor. *)
Theorem train_model_attribute_error (st : state c) :
  (1 <= n_epochs self)%Z ->
  train_loader = [] \/ logger c st = None ->
  train_model c self train_loader valid_loader st = Raise AttributeError.
Proof.
  intros Hn H. apply train_model_first_epoch_raises; [exact Hn|].
  unfold epoch_body.
  destruct train_loader as [|b bs] eqn:TL.
  - reflexivity.
  - destruct H as [H|L]; [discriminate|].
    destruct (train_step_returns b bs
                (world c (enter_loop c self (b :: bs) st)))
      as (mean & metrics & w1 & ->).
    cbn [bind]. unfold _logging, with_world, enter_loop, fresh_logging, metric_names_of.
    cbn [dict_logging logger world map combine].
    destruct (of_pairs_head "loss" (@nil Q)
                (map (fun m => (m, @nil Q)) (get_metrics_names c)))
      as (s0 & d0 & ->).
    destruct (of_pairs_head "loss" mean (combine (get_metrics_names c) metrics))
      as (v0 & d1 & ->).
    cbn. rewrite L. reflexivity.
Qed.

End Failures.

Lemma train_model_print_every_zero_raises_witness :
  exists e,
    train_model demo_collaborators demo_self_print_zero demo_loader demo_loader
      demo_state = Raise e.
Proof.
  apply (train_model_print_every_zero_raises demo_collaborators demo_self_print_zero
           demo_loader demo_loader demo_state); [simpl; lia|reflexivity].
Defined.

Lemma train_model_attribute_error_witness :
  train_model demo_collaborators demo_self demo_loader demo_loader
    demo_state_no_logger = Raise AttributeError.
Proof.
  apply (train_model_attribute_error demo_collaborators demo_self
           demo_loader demo_loader demo_state_no_logger); [simpl; lia|].
  right. reflexivity.
Defined.

Lemma train_model_without_stopper_runs_all_epochs_witness :
  train_model demo_collaborators demo_self_no_patience demo_loader demo_loader demo_state
  = ' (ms, st') <- run_epochs demo_collaborators demo_self_no_patience demo_loader
                     demo_loader (range (n_epochs demo_self_no_patience))
                     (enter_loop demo_collaborators demo_self_no_patience
                        demo_loader demo_state) ;;
    return_metrics (last_metrics ms None) st'.
Proof.
  apply (TrainerRuns.train_model_without_stopper_runs_all_epochs demo_collaborators
           demo_self_no_patience demo_loader demo_loader demo_state).
  left. reflexivity.
Defined.

Lemma train_model_stops_at_first_signal_witness :
  train_model demo_collaborators demo_self demo_loader demo_loader demo_state
  = return_metrics (last_metrics demo_metrics None) demo_state5.
Proof.
  apply (TrainerRuns.train_model_stops_at_first_signal demo_collaborators demo_self
           demo_loader demo_loader demo_state demo_state5 demo_stopper
           demo_metrics demo_valid_losses 4%nat).
  - reflexivity.
  - simpl. lia.
  - vm_compute. reflexivity.
  - vm_compute. reflexivity.
  - vm_compute. reflexivity.
Defined.

Lemma train_model_without_signal_runs_all_epochs_witness :
  train_model demo_collaborators demo_self_four demo_loader demo_loader demo_state
  = return_metrics (last_metrics demo_metrics4 None) demo_state4.
Proof.
  apply (TrainerRuns.train_model_without_signal_runs_all_epochs demo_collaborators
           demo_self_four demo_loader demo_loader demo_state demo_state4 demo_stopper
           demo_metrics4 [1; 9 # 10; 95 # 100; 96 # 100]).
  - reflexivity.
  - vm_compute. reflexivity.
  - vm_compute. reflexivity.
  - vm_compute. reflexivity.
Defined.

Lemma train_model_logs_one_entry_per_epoch_witness :
  exists k,
    (1 <= k <= Z.to_nat (n_epochs demo_self))%nat /\
    logged k (logged_names demo_collaborators)
      (dict_logging demo_collaborators demo_state5).
Proof.
  apply (TrainerLog.train_model_logs_one_entry_per_epoch demo_collaborators demo_self
           demo_loader demo_loader demo_state demo_state5 demo_metrics5).
  vm_compute. reflexivity.
Defined.

(** The log of the run of [demo_self]: five losses for either split. *)
Example demo_run_log :
  option_map (Dict.get "loss")
    (Dict.get "test" (dict_logging demo_collaborators demo_state5))
  = Some (Some demo_valid_losses).
Proof. vm_compute. reflexivity. Qed.

End TrainerFailures.

(** ** DiscTrainer.train_model *)

Module DiscTrainerLoopSpec.
Import Trainer.
Import DiscTrainer.
Import DiscTrainerLoop.

Section Loop.
Variable c : Collaborators.
Variables Transform Attack Schedule : Type.
Variable apply_attack : Attack -> DataLoader Transform -> tensor.
Variable attack_scheduler_step : Schedule -> Attack * Schedule.
Variable batches : DataLoader Transform -> loader c.
Variable self : Trainer.t.

Local Abbreviation dstate := (DiscTrainerLoop.state c Attack Schedule).

Lemma step_attack_base (st : dstate) (base' : Trainer.state c) :
  base c Attack Schedule (step_attack c Attack Schedule attack_scheduler_step st base')
  = base'.
Proof.
  unfold step_attack. destruct (attack_scheduler c Attack Schedule st) as [sched|].
  - destruct (attack_scheduler_step sched). reflexivity.
  - reflexivity.
Qed.

(** Without the attack, the loop of the method is that of [Trainer]. *)
Lemma epoch_loop_forget (names : list string) (tl vl : loader c) (epochs : list Z) :
  forall (st : dstate) (stopper : option EarlyStopper.t) (last : option (Dict.t Q)),
    (' (res, st') <- DiscTrainerLoop.epoch_loop c Attack Schedule attack_scheduler_step
                       self names tl vl epochs st stopper last ;;
     Return (res, base c Attack Schedule st'))
    = Trainer.epoch_loop c self names tl vl epochs (base c Attack Schedule st)
        stopper last.
Proof.
  induction epochs as [|e epochs IH]; intros st stopper last.
  - reflexivity.
  - cbn [DiscTrainerLoop.epoch_loop Trainer.epoch_loop].
    destruct (epoch_body c self names tl vl (base c Attack Schedule st) e)
      as [[m base']|err]; [|reflexivity].
    cbn [bind].
    pose proof (step_attack_base st base') as B.
    destruct stopper as [stopper|].
    + destruct (Dict.item "loss" m) as [v|err]; [|reflexivity]. cbn [bind].
      destruct (EarlyStopper.early_stop (float_add c) stopper v) as [[|] stopper'].
      * cbn [bind]. rewrite B. reflexivity.
      * rewrite IH, B. reflexivity.
    + rewrite IH, B. reflexivity.
Qed.

(** X11: for a model that is not self-supervised, the metrics and the
    trainer state that the [train_model] in force returns are those of the
    definition it shadows, which generates the two loaders and calls
    [Trainer.train_model] on them; an exception of the one is that of the
    other.  The attack scheduler, stepped every epoch, changes [self.attack]
    and nothing of this result. *)
Theorem disc_train_model_is_train_model_on_generated
  (train_loader valid_loader : DataLoader Transform) (transform : option Transform)
  (st : dstate) :
  self_supervised self = false ->
  forget_attack c Attack Schedule
    (DiscTrainerLoop.train_model c Transform Attack Schedule apply_attack
       attack_scheduler_step batches self train_loader valid_loader transform st)
  = train_model_shadowed c Transform Attack Schedule apply_attack batches self
      train_loader valid_loader transform st.
Proof.
  intro Hs. unfold DiscTrainerLoop.train_model, train_model_shadowed, forget_attack.
  destruct (_generate_adversarial_data Transform _ train_loader transform)
    as [adv_train|err]; [|reflexivity].
  cbn [bind].
  destruct (_generate_adversarial_data Transform _ valid_loader None)
    as [adv_valid|err]; [|reflexivity].
  cbn [bind]. unfold Trainer.train_model.
  assert (E : enter_loop c self (batches adv_train) (base c Attack Schedule st)
              = enter_loop c self (batches train_loader) (base c Attack Schedule st)).
  { unfold enter_loop. rewrite Hs. reflexivity. }
  rewrite E.
  pose proof (epoch_loop_forget (metric_names_of c) (batches adv_train)
                (batches adv_valid) (range (n_epochs self))
                {| base := enter_loop c self (batches train_loader)
                             (base c Attack Schedule st);
                   attack := attack c Attack Schedule st;
                   attack_scheduler := attack_scheduler c Attack Schedule st |}
                (make_stopper self) None) as F.
  cbn [base] in F. rewrite <- F.
  destruct (DiscTrainerLoop.epoch_loop _ _ _ _ _ _ _ _ _ _ _ _)
    as [[res st']|err]; [|reflexivity].
  cbn [bind]. destruct res; reflexivity.
Qed.

End Loop.

Lemma disc_train_model_is_train_model_on_generated_witness :
  forget_attack demo_collaborators nat nat
    (DiscTrainerLoop.train_model demo_collaborators unit nat nat
       (fun _ => channel_attack) demo_scheduler_step demo_batches demo_self
       wide_loader wide_loader None demo_disc_state)
  = train_model_shadowed demo_collaborators unit nat nat
      (fun _ => channel_attack) demo_batches demo_self
      wide_loader wide_loader None demo_disc_state.
Proof.
  apply (disc_train_model_is_train_model_on_generated demo_collaborators unit nat nat
           (fun _ => channel_attack) demo_scheduler_step demo_batches demo_self
           wide_loader wide_loader None demo_disc_state).
  reflexivity.
Defined.

(** The discriminator run of [demo_self] returns after five epochs, five
    steps of the attack scheduler made. *)
Example demo_disc_run :
  exists metrics st,
    DiscTrainerLoop.train_model demo_collaborators unit nat nat
      (fun _ => channel_attack) demo_scheduler_step demo_batches demo_self
      wide_loader wide_loader None demo_disc_state = Return (metrics, st) /\
    attack demo_collaborators nat nat st = 5%nat /\
    Dict.get "loss" metrics = Some (97 # 100).
Proof. eexists _, _. vm_compute. repeat split. Qed.

End DiscTrainerLoopSpec.

(** ** More about the search-space traversals *)

Module UtilsTraversals.
Import Utils.
Import UtilsTrace.
Import DictFacts.
Import UtilsSpec.

Lemma is_str_other (a b : string) (ty : cfg) :
  is_str a ty = true -> a <> b -> is_str b ty = false.
Proof.
  destruct ty as [v|items]; [|discriminate].
  destruct v; try discriminate. simpl. intros H N.
  apply String.eqb_eq in H. subst. apply String.eqb_neq. exact N.
Qed.

Lemma space_ok_weaken (f g : Dict.t cfg -> bool) :
  (forall fields, f fields = true -> g fields = true) ->
  forall c, space_ok f c = true -> space_ok g c = true.
Proof.
  intros Hfg c. induction c as [v|items IH] using cfg_induction; intro H.
  - discriminate.
  - apply space_ok_map in H. destruct H as (M & ND & F).
    apply space_ok_map. repeat split; try assumption.
    rewrite forallb_forall in *. intros e I.
    rewrite Forall_forall in IH. specialize (IH e I). specialize (F e I).
    unfold child_ok in *. destruct (snd e) as [v|fields]; [discriminate|].
    destruct (Dict.mem "optuna_type" fields); [apply Hfg; exact F|apply IH; exact F].
Qed.

Lemma const_leaf_has_value (fields : Dict.t cfg) :
  const_leaf fields = true -> const_has_value fields = true.
Proof.
  unfold const_leaf, const_has_value, is_const. intro H.
  apply andb_true_iff in H. destruct H as [C M].
  destruct (Dict.get "optuna_type" fields) as [ty|]; [|discriminate].
  rewrite C. exact M.
Qed.

Lemma for_items_app {V A : Type} (body : string -> V -> A -> result A)
  (a b : list (string * V)) (acc : A) :
  Dict.for_items body (a ++ b) acc
  = acc' <- Dict.for_items body a acc ;; Dict.for_items body b acc'.
Proof.
  revert acc. induction a as [|[k v] a IH]; intro acc; simpl.
  - reflexivity.
  - destruct (body k v acc) as [acc1|e]; [apply IH|reflexivity].
Qed.

Section Traversals.
Variable S : Sampler.

(** The keyword arguments of a leaf, the kind of the leaf known. *)
Lemma leaf_request (k : string) (fields : Dict.t cfg) (ty : cfg)
  (acc : pdict) (trial : Trial S) :
  Dict.get "optuna_type" fields = Some ty ->
  exists kw,
    kwargs_of_leaf k fields = Return kw /\
    Dict.get "value" kw = Dict.get "value" fields /\
    optimization_turn S k (CMap fields) (acc, trial)
    = get_optuna_param_for_type S k ty kw acc trial.
Proof.
  intro G.
  assert (M : Dict.mem "optuna_type" fields = true).
  { apply mem_true_get. exists ty. exact G. }
  destruct (del_present "optuna_type" fields M) as [d' E].
  exists (Dict.set "name" (CVal (VStr k)) d'). repeat split.
  - unfold kwargs_of_leaf. rewrite E. reflexivity.
  - rewrite get_set_other by discriminate.
    apply (get_del_other "optuna_type" "value" fields d' E). discriminate.
  - unfold optimization_turn, kwargs_of_leaf, Dict.item. rewrite M, E, G. reflexivity.
Qed.

(** On a const leaf the two traversals make the same entry, and the trial
    is left as it is. *)
Lemma const_turn (k : string) (fields : Dict.t cfg) (acc : pdict) (trial : Trial S) :
  const_leaf fields = true ->
  optimization_turn S k (CMap fields) (acc, trial)
  = a <- collect_turn k (CMap fields) acc ;; Return (a, trial).
Proof.
  intro C. unfold const_leaf, is_const in C.
  apply andb_true_iff in C. destruct C as [C Mv].
  destruct (Dict.get "optuna_type" fields) as [ty|] eqn:G; [|discriminate].
  apply mem_true_get in Mv. destruct Mv as [v Gv].
  destruct (leaf_request k fields ty acc trial G) as (kw & _ & Gk & ->).
  unfold get_optuna_param_for_type.
  rewrite (is_str_other "const" "int" ty C) by discriminate.
  rewrite (is_str_other "const" "float" ty C) by discriminate.
  rewrite (is_str_other "const" "choice" ty C) by discriminate.
  rewrite C. unfold Dict.item. rewrite Gk, Gv. cbn [bind].
  unfold collect_turn, default_of_leaf, Dict.item.
  assert (M : Dict.mem "optuna_type" fields = true).
  { apply mem_true_get. exists ty. exact G. }
  rewrite M, G. cbn [bind]. rewrite C, Gv. reflexivity.
Qed.

Lemma const_loop (its : list (string * cfg)) :
  forall (acc : pdict) (trial : Trial S),
    Forall (fun e => (agrees_at S) (snd e)) its ->
    forallb (child_ok const_leaf) its = true ->
    Dict.for_items (optimization_turn S) its (acc, trial)
    = a <- Dict.for_items collect_turn its acc ;; Return (a, trial).
Proof.
  induction its as [|[k v] its IH]; intros acc trial HF Hok.
  - reflexivity.
  - inversion HF as [|? ? Hv HF']; subst. simpl in Hv.
    simpl in Hok. apply andb_true_iff in Hok. destruct Hok as [Hk Hok].
    assert (T : optimization_turn S k v (acc, trial)
                = a <- collect_turn k v acc ;; Return (a, trial)).
    { unfold child_ok in Hk. simpl in Hk. destruct v as [x|fields]; [discriminate|].
      destruct (Dict.mem "optuna_type" fields) eqn:M.
      - apply const_turn. exact Hk.
      - unfold optimization_turn, collect_turn. rewrite M, (Hv Hk trial).
        destruct (collect_default_params (CMap fields)); reflexivity. }
    cbn [Dict.for_items]. rewrite T.
    destruct (collect_turn k v acc) as [a|e]; [|reflexivity].
    cbn [bind]. apply IH; assumption.
Qed.

Lemma const_agrees (c : cfg) : (agrees_at S) c.
Proof.
  induction c as [v|items IH] using cfg_induction; intros Hok trial.
  - discriminate.
  - apply space_ok_map in Hok. destruct Hok as (_ & _ & F).
    rewrite optimization_map, collect_map. apply const_loop; assumption.
Qed.

(** One turn either leaves the dict or assigns to the key of the turn; on a
    leaf of unknown kind it leaves the dict. *)
Lemma turn_assigns (k : string) (v : cfg) (acc acc' : pdict) (trial trial' : Trial S) :
  optimization_turn S k v (acc, trial) = Return (acc', trial') ->
  (acc' = acc \/ exists q, acc' = Dict.set k q acc) /\
  (forall fields, v = CMap fields -> unknown_kind fields = true -> acc' = acc).
Proof.
  intro H. destruct v as [x|fields]; [discriminate|].
  destruct (Dict.get "optuna_type" fields) as [ty|] eqn:G.
  - destruct (leaf_request k fields ty acc trial G) as (kw & _ & _ & E).
    rewrite E in H. unfold get_optuna_param_for_type in H.
    assert (U : unknown_kind fields = true -> acc' = acc).
    { unfold unknown_kind. rewrite G. rewrite negb_true_iff, !orb_false_iff.
      intros (((Ti & Tf) & Tc) & Tk). rewrite Ti, Tf, Tc, Tk in H.
      injection H as <- _. reflexivity. }
    split; [|intros f Ef; injection Ef as <-; exact U].
    destruct (is_str "int" ty);
      [destruct (suggest_int S trial kw) as [[x t]|e]; [|discriminate];
       cbn [bind] in H; injection H as <- _; right; eexists; reflexivity|].
    destruct (is_str "float" ty);
      [destruct (suggest_float S trial kw) as [[x t]|e]; [|discriminate];
       cbn [bind] in H; injection H as <- _; right; eexists; reflexivity|].
    destruct (is_str "choice" ty);
      [destruct (suggest_categorical S trial kw) as [[x t]|e]; [|discriminate];
       cbn [bind] in H; injection H as <- _; right; eexists; reflexivity|].
    destruct (is_str "const" ty).
    + destruct (Dict.item "value" kw) as [x|e]; [|discriminate].
      cbn [bind] in H. injection H as <- _. right. eexists. reflexivity.
    + injection H as <- _. left. reflexivity.
  - assert (M : Dict.mem "optuna_type" fields = false) by (apply mem_false_get; exact G).
    split.
    + unfold optimization_turn in H. rewrite M in H.
      destruct (get_optimization_dict S (CMap fields) trial) as [[sub t]|e];
        [|discriminate].
      cbn [bind] in H. injection H as <- _. right. eexists. reflexivity.
    + intros f Ef. injection Ef as <-. unfold unknown_kind. rewrite G. discriminate.
Qed.

Lemma dropped_loop (k : string) (its : list (string * cfg)) :
  forall (acc acc' : pdict) (trial trial' : Trial S),
    (forall v, In (k, v) its ->
       exists fields, v = CMap fields /\ unknown_kind fields = true) ->
    Dict.get k acc = None ->
    Dict.for_items (optimization_turn S) its (acc, trial) = Return (acc', trial') ->
    Dict.get k acc' = None.
Proof.
  induction its as [|[k1 v1] its IH]; intros acc acc' trial trial' Hk G H.
  - cbn [Dict.for_items] in H. injection H as <- _. exact G.
  - cbn [Dict.for_items] in H.
    destruct (optimization_turn S k1 v1 (acc, trial)) as [[acc1 t1]|e] eqn:E;
      [|discriminate].
    destruct (turn_assigns k1 v1 acc acc1 trial t1 E) as [A U].
    apply (IH acc1 acc' t1 trial'); [|  |exact H].
    + intros v I. apply Hk. right. exact I.
    + destruct (String.eqb_spec k k1) as [->|N].
      * destruct (Hk v1 (or_introl eq_refl)) as (fields & -> & Hu).
        rewrite (U fields eq_refl Hu). exact G.
      * destruct A as [->|[q ->]]; [exact G|].
        rewrite get_set_other by exact N. exact G.
Qed.

End Traversals.

(** X12: on a search space whose leaves are all of kind const, with their
    values, [get_optimization_dict] returns what [collect_default_params]
    returns, whatever the sampler, and hands the trial back as it got it: the
    sampler is never consulted. *)
Theorem const_space_needs_no_sampler (tree : cfg) :
  space_ok const_leaf tree = true ->
  exists defaults,
    collect_default_params tree = Return defaults /\
    forall (S : Sampler) (trial : Trial S),
      get_optimization_dict S tree trial = Return (defaults, trial).
Proof.
  intro Hok.
  pose proof (collect_refines tree
                (space_ok_weaken _ _ const_leaf_has_value tree Hok)) as C.
  eexists. split; [exact C|].
  intros S trial. rewrite (const_agrees S tree Hok trial), C. reflexivity.
Qed.

Lemma const_space_needs_no_sampler_witness :
  exists defaults,
    collect_default_params const_space = Return defaults /\
    forall (S : Sampler) (trial : Trial S),
      get_optimization_dict S const_space trial = Return (defaults, trial).
Proof.
  apply (const_space_needs_no_sampler const_space). reflexivity.
Defined.

(** X13: a leaf whose ['optuna_type'] is none of int, float, choice and
    const is passed over in silence: the tree that [get_optimization_dict]
    returns has no entry under its name. *)
Theorem unknown_kind_is_dropped
  (S : Sampler) (items : list (string * cfg)) (k : string) (fields : Dict.t cfg)
  (trial trial' : Trial S) (r : pdict) :
  NoDup (Dict.keys items) ->
  In (k, CMap fields) items ->
  unknown_kind fields = true ->
  get_optimization_dict S (CMap items) trial = Return (r, trial') ->
  Dict.get k r = None.
Proof.
  intros ND I U H. rewrite optimization_map in H.
  apply (dropped_loop S k items [] r trial trial'); [|reflexivity|exact H].
  intros v Iv. exists fields. split; [|exact U].
  clear -ND I Iv. induction items as [|[k1 v1] items IH]; [destruct I|].
  unfold Dict.keys in ND. simpl in ND. inversion ND as [|? ? Hn ND']; subst.
  assert (K : forall w, In (k, w) items -> In k (map fst items)).
  { intros w Iw. apply in_map_iff. exists (k, w). split; [reflexivity|exact Iw]. }
  destruct I as [I|I], Iv as [Iv|Iv].
  - congruence.
  - injection I as -> _. exfalso. exact (Hn (K v Iv)).
  - injection Iv as -> _. exfalso. exact (Hn (K _ I)).
  - apply IH; assumption.
Qed.

Lemma unknown_kind_is_dropped_witness :
  Dict.get "lr"
    [("batch"%string, PObj (CVal (VInt 32)))] = None.
Proof.
  apply (unknown_kind_is_dropped demo_sampler
           [("lr", CMap [("optuna_type", CVal (VStr "flaot"));
                         ("low", CVal (VFloat (1 # 10000)));
                         ("high", CVal (VFloat (1 # 10)))]);
            ("batch", CMap [("optuna_type", CVal (VStr "const"));
                            ("value", CVal (VInt 32))])]%string
           "lr"
           [("optuna_type", CVal (VStr "flaot"));
            ("low", CVal (VFloat (1 # 10000)));
            ("high", CVal (VFloat (1 # 10)))]%string
           O O [("batch"%string, PObj (CVal (VInt 32)))]).
  - unfold Dict.keys. simpl. repeat constructor; simpl; intuition discriminate.
  - left. reflexivity.
  - reflexivity.
  - reflexivity.
Defined.

(** X14: [collect_default_params] stops at the first const leaf that has
    no ['value'] and raises the [KeyError] of that lookup, the entries before
    it well formed. *)
Theorem collect_const_without_value_raises
  (pre post : list (string * cfg)) (k : string) (fields : Dict.t cfg) :
  NoDup (Dict.keys pre) ->
  forallb (child_ok const_has_value) pre = true ->
  is_const fields = true ->
  Dict.mem "value" fields = false ->
  collect_default_params (CMap (pre ++ (k, CMap fields) :: post))
  = Raise (KeyError "value").
Proof.
  intros ND F C Mv. rewrite collect_map, for_items_app.
  assert (L : Forall (fun e => collect_refines_at (snd e)) pre).
  { apply Forall_forall. intros e _. apply collect_refines. }
  rewrite (collect_loop pre [] L F ND). cbn [bind Dict.for_items app].
  unfold collect_turn, default_of_leaf, Dict.item.
  unfold is_const in C.
  destruct (Dict.get "optuna_type" fields) as [ty|] eqn:G; [|discriminate].
  assert (M : Dict.mem "optuna_type" fields = true).
  { apply mem_true_get. exists ty. exact G. }
  rewrite M. cbn [bind]. rewrite C.
  apply mem_false_get in Mv. rewrite Mv. reflexivity.
Qed.

Lemma collect_const_without_value_raises_witness :
  collect_default_params valueless_space = Raise (KeyError "value").
Proof.
  apply (collect_const_without_value_raises
           [("lr", CMap [("optuna_type", CVal (VStr "float"));
                         ("low", CVal (VFloat (1 # 10000)));
                         ("high", CVal (VFloat (1 # 10)))])]%string
           [("seed", CMap [("optuna_type", CVal (VStr "const"));
                           ("value", CVal (VInt 0))])]%string
           "batch" [("optuna_type", CVal (VStr "const"))]%string).
  - unfold Dict.keys. simpl. repeat constructor. intros [].
  - reflexivity.
  - reflexivity.
  - reflexivity.
Defined.

End UtilsTraversals.

(** ** More about the merge of best parameters *)

Module UtilsMerge.
Import Utils.
Import UtilsTrace.
Import DictFacts.
Import UtilsSpec.

Lemma is_dict_tree_dict (d : pdict) :
  is_dict_tree (PDict d) = true <->
  NoDup (Dict.keys d) /\ forall e, In e d -> is_dict_tree (snd e) = true.
Proof.
  cbn [is_dict_tree]. rewrite andb_true_iff, unique_keys_NoDup, forallb_forall.
  tauto.
Qed.

Lemma get_in {V : Type} (k : string) (v : V) (d : Dict.t V) :
  Dict.get k d = Some v -> In (k, v) d.
Proof.
  induction d as [|[k' v'] d IH]; simpl; [discriminate|].
  destruct (String.eqb_spec k k') as [->|_].
  - intro H. injection H as ->. left. reflexivity.
  - intro H. right. apply IH. exact H.
Qed.

Lemma in_get_unique {V : Type} (k : string) (v : V) (d : Dict.t V) :
  NoDup (Dict.keys d) -> In (k, v) d -> Dict.get k d = Some v.
Proof.
  induction d as [|[k' v'] d IH]; simpl; intros ND I; [destruct I|].
  inversion ND as [|? ? N ND']; subst.
  destruct I as [E|I].
  - injection E as -> ->. rewrite String.eqb_refl. reflexivity.
  - destruct (String.eqb_spec k k') as [->|_]; [|apply IH; assumption].
    exfalso. apply N. apply in_map_iff. exists (k', v). split; [reflexivity|exact I].
Qed.

Section One.
Variable name : string.
Variable value : param.

Local Abbreviation entry := (updated_entry name value).

(** The update of one name keeps the nesting and the keys. *)
Lemma update_node_skeleton (p : param) :
  is_object value = true ->
  is_dict_tree p = true ->
  param_skeleton (update_node name value p) = param_skeleton p.
Proof.
  intro O. induction p as [v|d IH] using param_induction; intro T.
  - reflexivity.
  - apply is_dict_tree_dict in T. destruct T as [ND T].
    rewrite update_node_map by (apply unique_keys_NoDup; exact ND).
    cbn [param_skeleton]. f_equal. rewrite map_map. cbn [fst snd].
    apply map_ext_in. intros [k v] I. cbn [fst snd]. f_equal.
    rewrite Forall_forall in IH. specialize (IH (k, v) I). specialize (T (k, v) I).
    cbn [snd] in IH, T. unfold updated_entry. destruct v as [o|sub].
    + destruct (String.eqb name k); [|reflexivity].
      destruct value; [reflexivity|discriminate].
    + apply IH. exact T.
Qed.

(** The update of a name that is the key of no leaf changes nothing. *)
Lemma update_node_absent (p : param) :
  is_dict_tree p = true ->
  ~ In name (leaf_keys p) ->
  update_node name value p = p.
Proof.
  induction p as [v|d IH] using param_induction; intros T N.
  - reflexivity.
  - apply is_dict_tree_dict in T. destruct T as [ND T].
    rewrite update_node_map by (apply unique_keys_NoDup; exact ND).
    f_equal. rewrite <- (map_id d) at 2. apply map_ext_in.
    intros [k v] I. cbn [fst snd]. f_equal.
    rewrite Forall_forall in IH. specialize (IH (k, v) I). specialize (T (k, v) I).
    cbn [snd] in IH, T.
    assert (Nk : forall x, In x match v with
                                | PObj _ => [k]
                                | PDict _ => leaf_keys v
                                end -> x <> name).
    { intros x Ix E. subst x. apply N. cbn [leaf_keys]. apply in_flat_map.
      exists (k, v). split; [exact I|exact Ix]. }
    unfold updated_entry. destruct v as [o|sub].
    + destruct (String.eqb_spec name k) as [->|_]; [|reflexivity].
      exfalso. apply (Nk k); [left; reflexivity|reflexivity].
    + apply IH; [exact T|]. intro Ix. exact (Nk name Ix eq_refl).
Qed.

End One.

(** The merge keeps the dicts dicts of different keys, and their shape. *)
Lemma merge_keeps_shape (best : pdict) :
  forall d : pdict,
    forallb (fun e => is_object (snd e)) best = true ->
    is_dict_tree (PDict d) = true ->
    is_dict_tree (PDict (update_trainer_params best d)) = true /\
    param_skeleton (PDict (update_trainer_params best d)) = param_skeleton (PDict d).
Proof.
  unfold update_trainer_params, deepcopy.
  induction best as [|[n v] best IH]; intros d O T.
  - split; [exact T|reflexivity].
  - simpl in O. apply andb_true_iff in O. destruct O as [Ov O].
    cbn [fold_left fst snd].
    assert (T1 : is_dict_tree (PDict (update_one_best_param n v d)) = true).
    { rewrite update_one_best_param_node. apply update_node_dict_tree; assumption. }
    destruct (IH _ O T1) as [T2 S2]. split; [exact T2|].
    rewrite S2, update_one_best_param_node. apply update_node_skeleton; assumption.
Qed.

(** X15: the merge of a flat mapping never changes the nesting of the
    defaults nor the keys of any level: it adds no key, removes none, and
    turns no dict into a leaf or leaf into a dict. *)
Theorem merge_keeps_nesting_and_keys (best defaults : pdict) :
  is_dict_tree (PDict defaults) = true ->
  forallb (fun e => is_object (snd e)) best = true ->
  param_skeleton (PDict (update_trainer_params best defaults))
  = param_skeleton (PDict defaults).
Proof.
  intros T O. exact (proj2 (merge_keeps_shape best defaults O T)).
Qed.

Lemma merge_keeps_nesting_and_keys_witness :
  param_skeleton (PDict (update_trainer_params demo_best demo_defaults))
  = param_skeleton (PDict demo_defaults).
Proof.
  apply (merge_keeps_nesting_and_keys demo_best demo_defaults); reflexivity.
Defined.

(** X16: best parameters whose names are the key of no leaf of the
    defaults are dropped in silence: the merge returns the defaults. *)
Theorem merge_ignores_unknown_names (best defaults : pdict) :
  is_dict_tree (PDict defaults) = true ->
  (forall name, In name (Dict.keys best) -> ~ In name (leaf_keys (PDict defaults))) ->
  update_trainer_params best defaults = defaults.
Proof.
  unfold update_trainer_params, deepcopy. intros T.
  induction best as [|[n v] best IH]; intro N.
  - reflexivity.
  - cbn [fold_left fst snd].
    assert (E : update_one_best_param n v defaults = defaults).
    { unfold update_one_best_param.
      rewrite (update_node_absent n v (PDict defaults) T); [reflexivity|].
      apply N. left. reflexivity. }
    rewrite E. apply IH. intros name I. apply N. right. exact I.
Qed.

Lemma merge_ignores_unknown_names_witness :
  update_trainer_params
    [("learning_rate"%string, PObj (CVal (VFloat (1 # 100))));
     ("model_params"%string, PObj (CVal (VInt 3)))]
    demo_defaults
  = demo_defaults.
Proof.
  apply (merge_ignores_unknown_names
           [("learning_rate"%string, PObj (CVal (VFloat (1 # 100))));
            ("model_params"%string, PObj (CVal (VInt 3)))]
           demo_defaults).
  - reflexivity.
  - intros name [<-|[<-|[]]]; simpl; intuition discriminate.
Defined.

End UtilsMerge.

(** ** The flat mapping projected back onto the nesting *)

Module UtilsRoundTrip.
Import Utils.
Import UtilsTrace.
Import DictFacts.
Import UtilsSpec.
Import UtilsMerge.

Lemma param_skeleton_dict (d : pdict) (q : param) :
  param_skeleton q = param_skeleton (PDict d) ->
  exists d', q = PDict d' /\
    map (fun e => (fst e, param_skeleton (snd e))) d'
    = map (fun e => (fst e, param_skeleton (snd e))) d.
Proof.
  destruct q as [o|d']; [discriminate|]. cbn [param_skeleton].
  intro H. injection H as H. exists d'. split; [reflexivity|exact H].
Qed.

Lemma get_same_skeleton (k : string) (d d' : pdict) (a : param) :
  map (fun e => (fst e, param_skeleton (snd e))) d
  = map (fun e => (fst e, param_skeleton (snd e))) d' ->
  Dict.get k d = Some a ->
  exists a', Dict.get k d' = Some a' /\ param_skeleton a = param_skeleton a'.
Proof.
  revert d'. induction d as [|[k1 v1] d IH]; intros [|[k2 v2] d'] H G;
    try discriminate.
  simpl in H. injection H as -> Hs H. simpl in G |- *.
  destruct (String.eqb k k2).
  - injection G as <-. exists v2. split; [reflexivity|exact Hs].
  - apply IH; assumption.
Qed.

(** Trees of the same skeleton have their leaves at the same paths. *)
Lemma same_skeleton_leaf (path : list string) :
  forall (p q : param) (v : cfg),
    param_skeleton p = param_skeleton q ->
    param_at path p = Some (PObj v) ->
    exists v', param_at path q = Some (PObj v').
Proof.
  induction path as [|k path IH]; intros p q v Hs H.
  - simpl in H. injection H as ->. destruct q as [o|d]; [|discriminate].
    exists o. reflexivity.
  - destruct p as [o|d]; [discriminate|]. symmetry in Hs.
    destruct (param_skeleton_dict d q Hs) as (d' & -> & Hm).
    cbn [param_at] in H |- *.
    destruct (Dict.get k d) as [a|] eqn:G; [|discriminate].
    symmetry in Hm.
    destruct (get_same_skeleton k d d' a Hm G) as (a' & -> & Ha).
    apply (IH a a' v Ha H).
Qed.

(** Two trees are the same when they have the same skeleton and the leaves of
    the one are those of the other. *)
Lemma param_ext (p : param) :
  forall q : param,
    is_dict_tree p = true ->
    param_skeleton p = param_skeleton q ->
    (forall path v, param_at path p = Some (PObj v) -> param_at path q = Some (PObj v)) ->
    p = q.
Proof.
  induction p as [o|d IH] using param_induction; intros q T Hs Hl.
  - destruct q as [o'|d']; [|discriminate].
    specialize (Hl [] o eq_refl). simpl in Hl. congruence.
  - symmetry in Hs. destruct (param_skeleton_dict d q Hs) as (d' & -> & Hm).
    f_equal. apply is_dict_tree_dict in T. destruct T as [ND T].
    assert (Hl' : forall k a, Dict.get k d = Some a ->
                    exists a', Dict.get k d' = Some a' /\ a = a').
    { intros k a G. symmetry in Hm.
      destruct (get_same_skeleton k d d' a Hm G) as (a' & G' & Ha).
      exists a'. split; [exact G'|].
      rewrite Forall_forall in IH.
      apply (IH (k, a) (get_in k a d G) a' (T (k, a) (get_in k a d G)) Ha).
      intros path v H. specialize (Hl (k :: path) v).
      cbn [param_at] in Hl. rewrite G, G' in Hl. apply Hl. exact H. }
    clear IH Hl T Hs. revert d' Hm Hl'.
    induction d as [|[k a] d IHd]; intros [|[k' a'] d'] Hm Hl'; try discriminate.
    + reflexivity.
    + simpl in Hm. injection Hm as <- _ Hm.
      unfold Dict.keys in ND. simpl in ND. inversion ND as [|? ? Nk ND']; subst.
      destruct (Hl' k' a) as (a2 & G2 & ->).
      { simpl. rewrite String.eqb_refl. reflexivity. }
      simpl in G2. rewrite String.eqb_refl in G2. injection G2 as <-.
      f_equal. apply (IHd ND' d' Hm).
      intros k1 a1 G1.
      assert (N1 : k1 <> k').
      { intro E. subst k1. apply Nk. apply in_map_iff.
        exists (k', a1). split; [reflexivity|exact (get_in k' a1 d G1)]. }
      destruct (Hl' k1 a1) as (a3 & G3 & ->).
      { simpl. destruct (String.eqb_spec k1 k'); [contradiction|exact G1]. }
      simpl in G3. destruct (String.eqb_spec k1 k'); [contradiction|].
      exists a3. split; [exact G3|reflexivity].
Qed.

Lemma flat_leaves_keys (p : param) : Dict.keys (flat_leaves p) = leaf_keys p.
Proof.
  induction p as [o|d IH] using param_induction; [reflexivity|].
  cbn [flat_leaves leaf_keys]. unfold Dict.keys.
  induction d as [|[k v] d IHd]; [reflexivity|].
  inversion IH as [|? ? Hv IH']; subst. simpl in Hv.
  cbn [flat_map]. rewrite map_app, (IHd IH'). f_equal.
  cbn [snd fst]. destruct v as [o|sub]; [reflexivity|exact Hv].
Qed.

Lemma leaf_keys_skeleton (p : param) :
  leaf_keys p = skeleton_leaf_names (param_skeleton p).
Proof.
  induction p as [o|d IH] using param_induction; [reflexivity|].
  cbn [leaf_keys param_skeleton skeleton_leaf_names].
  induction d as [|[k v] d IHd]; [reflexivity|].
  inversion IH as [|? ? Hv IH']; subst. simpl in Hv.
  cbn [flat_map map fst snd]. rewrite (IHd IH'). f_equal.
  destruct v as [o|sub]; [reflexivity|exact Hv].
Qed.

Lemma flat_leaves_objects (p : param) :
  forallb (fun e => is_object (snd e)) (flat_leaves p) = true.
Proof.
  induction p as [o|d IH] using param_induction; [reflexivity|].
  cbn [flat_leaves]. induction d as [|[k v] d IHd]; [reflexivity|].
  inversion IH as [|? ? Hv IH']; subst. simpl in Hv.
  cbn [flat_map]. rewrite forallb_app, (IHd IH'), andb_true_r.
  cbn [snd]. destruct v as [o|sub]; [reflexivity|exact Hv].
Qed.

(** A leaf of a tree is an entry of its flat mapping. *)
Lemma leaf_in_flat_leaves (path : list string) :
  forall (p : param) (k : string) (v : cfg),
    param_at (path ++ [k]) p = Some (PObj v) -> In (k, PObj v) (flat_leaves p).
Proof.
  induction path as [|k1 path IH]; intros p k v H.
  - destruct p as [o|d]; [discriminate|]. simpl in H.
    destruct (Dict.get k d) as [a|] eqn:G; [|discriminate]. injection H as ->.
    cbn [flat_leaves]. apply in_flat_map. exists (k, PObj v).
    split; [exact (get_in k _ d G)|left; reflexivity].
  - destruct p as [o|d]; [discriminate|]. cbn [app param_at] in H.
    destruct (Dict.get k1 d) as [a|] eqn:G; [|discriminate].
    cbn [flat_leaves]. apply in_flat_map. exists (k1, a).
    split; [exact (get_in k1 a d G)|]. cbn [snd].
    destruct a as [o|sub]; [destruct path; discriminate|].
    apply (IH (PDict sub) k v H).
Qed.

(** The merge gives back a tree [r] of the shape of the defaults when every
    leaf of [r] is either the value of its name in the flat mapping or, its
    name not in the mapping, the leaf of the defaults. *)
Lemma merge_rebuilds (best d r : pdict) :
  is_dict_tree (PDict d) = true ->
  Dict.unique_keys best = true ->
  forallb (fun e => is_object (snd e)) best = true ->
  param_skeleton (PDict r) = param_skeleton (PDict d) ->
  (forall path k v,
     param_at (path ++ [k]) (PDict r) = Some (PObj v) ->
     Dict.get k best = Some (PObj v) \/
     (Dict.get k best = None /\ param_at (path ++ [k]) (PDict d) = Some (PObj v))) ->
  update_trainer_params best d = r.
Proof.
  intros T U O Hs Hl.
  destruct (merge_keeps_shape best d O T) as [Tm Sm].
  assert (E : PDict (update_trainer_params best d) = PDict r).
  { apply param_ext; [exact Tm|congruence|].
    intros path v H.
    destruct path as [|k0 path0] using rev_ind; [discriminate|]. clear IHpath0.
    destruct (same_skeleton_leaf _ _ (PDict d) v Sm H) as [l Hd].
    destruct (same_skeleton_leaf _ _ (PDict r) l (eq_sym Hs) Hd) as [vr Hr].
    rewrite (update_trainer_params_leaf best d path0 k0 (PObj l) T U O eq_refl Hd) in H.
    destruct (Hl path0 k0 vr Hr) as [G|[G Hd']].
    - rewrite G in H. rewrite Hr. exact H.
    - rewrite G in H. rewrite Hr. congruence. }
  injection E as E. exact E.
Qed.

(** X17: for a tree [r] of the shape of the defaults, the names of whose
    leaves are all different, the merge of the flat mapping of the leaves of
    [r] into the defaults gives [r] back: the flat result of a search is
    projected onto the nesting without loss. *)
Theorem merge_of_flat_leaves_rebuilds (defaults r : pdict) :
  is_dict_tree (PDict defaults) = true ->
  param_skeleton (PDict r) = param_skeleton (PDict defaults) ->
  NoDup (leaf_keys (PDict defaults)) ->
  update_trainer_params (flat_leaves (PDict r)) defaults = r.
Proof.
  intros T Hs ND.
  assert (NDr : NoDup (Dict.keys (flat_leaves (PDict r)))).
  { rewrite flat_leaves_keys, leaf_keys_skeleton, Hs, <- leaf_keys_skeleton. exact ND. }
  apply merge_rebuilds; try assumption.
  - apply unique_keys_NoDup. exact NDr.
  - apply flat_leaves_objects.
  - intros path k v H. left.
    apply in_get_unique; [exact NDr|]. apply (leaf_in_flat_leaves path). exact H.
Qed.

Lemma merge_of_flat_leaves_rebuilds_witness :
  update_trainer_params (flat_leaves (PDict distinct_resolved)) distinct_defaults
  = distinct_resolved.
Proof.
  apply (merge_of_flat_leaves_rebuilds distinct_defaults distinct_resolved).
  - reflexivity.
  - reflexivity.
  - simpl. repeat constructor; simpl; intuition discriminate.
Defined.

(** Without different names the projection loses a value: of two leaves
    named [lr], both end with the value that the flat mapping holds. *)
Example merge_of_clashing_leaves :
  update_trainer_params (flat_leaves (PDict clashing_resolved)) demo_defaults
  <> clashing_resolved.
Proof. vm_compute. discriminate. Qed.

(** X18: merging the same flat mapping a second time changes nothing. *)
Theorem merge_is_idempotent (best defaults : pdict) :
  is_dict_tree (PDict defaults) = true ->
  Dict.unique_keys best = true ->
  forallb (fun e => is_object (snd e)) best = true ->
  update_trainer_params best (update_trainer_params best defaults)
  = update_trainer_params best defaults.
Proof.
  intros T U O.
  destruct (merge_keeps_shape best defaults O T) as [Tm Sm].
  apply merge_rebuilds; try assumption; [reflexivity|].
  intros path k v H.
  destruct (same_skeleton_leaf _ _ (PDict defaults) v Sm H) as [l Hd].
  rewrite (update_trainer_params_leaf best defaults path k (PObj l) T U O eq_refl Hd)
    in H.
  destruct (Dict.get k best) as [b|] eqn:G.
  - left. injection H as ->. reflexivity.
  - right. split; [reflexivity|].
    rewrite (update_trainer_params_leaf best defaults path k (PObj l) T U O eq_refl Hd).
    rewrite G. exact H.
Qed.

Lemma merge_is_idempotent_witness :
  update_trainer_params demo_best (update_trainer_params demo_best demo_defaults)
  = update_trainer_params demo_best demo_defaults.
Proof.
  apply (merge_is_idempotent demo_best demo_defaults); reflexivity.
Defined.

End UtilsRoundTrip.

(** ** From the search to the parameters of the trainer *)

Module UtilsPipeline.
Import Utils.
Import UtilsTrace.
Import DictFacts.
Import UtilsSpec.
Import UtilsTraversals.
Import UtilsMerge.
Import UtilsRoundTrip.

Lemma known_kind_has_value (fields : Dict.t cfg) :
  known_kind fields = true -> const_has_value fields = true.
Proof.
  unfold known_kind, const_has_value.
  destruct (Dict.get "optuna_type" fields) as [ty|]; [|discriminate].
  destruct (is_str "const" ty) eqn:C; [|reflexivity].
  rewrite (is_str_other "const" "int" ty C) by discriminate.
  rewrite (is_str_other "const" "float" ty C) by discriminate.
  rewrite (is_str_other "const" "choice" ty C) by discriminate.
  simpl. intro H. exact H.
Qed.

(** The defaults of a well-formed space are dicts of different keys. *)
Lemma defaults_tree_dict_tree (leaf_ok : Dict.t cfg -> bool) (c : cfg) :
  space_ok leaf_ok c = true -> is_dict_tree (defaults_tree c) = true.
Proof.
  induction c as [v|items IH] using cfg_induction; intro Hok.
  - discriminate.
  - apply space_ok_map in Hok. destruct Hok as (M & ND & F).
    cbn [defaults_tree]. rewrite M. apply is_dict_tree_dict. split.
    + rewrite (keys_map_entries (fun _ v => defaults_tree v)). exact ND.
    + intros e I. apply in_map_iff in I. destruct I as ([k v] & <- & I).
      cbn [fst snd]. rewrite Forall_forall in IH. specialize (IH (k, v) I).
      rewrite forallb_forall in F. specialize (F (k, v) I).
      unfold child_ok in F. cbn [snd] in IH, F.
      destruct v as [x|fields]; [discriminate|].
      destruct (Dict.mem "optuna_type" fields) eqn:Mf.
      * cbn [defaults_tree]. rewrite Mf. unfold leaf_default.
        destruct (is_const fields); [|reflexivity].
        destruct (Dict.get "value" fields); reflexivity.
      * apply IH. exact F.
Qed.

(** X19: for a well-formed search space the names of whose leaves are all
    different, the tree that a trial resolved is recovered from its flat
    mapping: merged into the collected defaults, the leaves of the tree give
    the tree back. *)
Theorem resolved_tree_is_recovered
  (S : Sampler) (tree : cfg) (trial trial' : Trial S) (defaults r : pdict) :
  space_ok known_kind tree = true ->
  NoDup (skeleton_leaf_names (space_skeleton tree)) ->
  collect_default_params tree = Return defaults ->
  get_optimization_dict S tree trial = Return (r, trial') ->
  update_trainer_params (flat_leaves (PDict r)) defaults = r.
Proof.
  intros Hok ND Hc Hr.
  pose proof (space_ok_weaken _ _ known_kind_has_value tree Hok) as Hok'.
  rewrite (collect_refines tree Hok') in Hc. injection Hc as <-.
  assert (D : PDict (items_of (defaults_tree tree)) = defaults_tree tree).
  { destruct tree as [v|items]; [discriminate|].
    apply space_ok_map in Hok. destruct Hok as (M & _ & _).
    cbn [defaults_tree]. rewrite M. reflexivity. }
  pose proof (proj1 (optimization_mirrors S tree Hok trial) r trial' Hr) as Sr.
  assert (Sd : param_skeleton (PDict (items_of (defaults_tree tree)))
               = space_skeleton tree).
  { rewrite D. apply defaults_tree_skeleton. }
  assert (T : is_dict_tree (PDict (items_of (defaults_tree tree))) = true).
  { rewrite D. exact (defaults_tree_dict_tree _ tree Hok). }
  assert (NDr : NoDup (Dict.keys (flat_leaves (PDict r)))).
  { rewrite flat_leaves_keys, leaf_keys_skeleton, Sr. exact ND. }
  apply merge_rebuilds.
  - exact T.
  - apply unique_keys_NoDup. exact NDr.
  - apply flat_leaves_objects.
  - congruence.
  - intros path k v H. left.
    apply in_get_unique; [exact NDr|]. apply (leaf_in_flat_leaves path). exact H.
Qed.

Lemma resolved_tree_is_recovered_witness :
  update_trainer_params
    (flat_leaves
       (PDict [("lr", PObj (CVal (VFloat (1 # 10000))));
               ("batch", PObj (CVal (VInt 32)))]%string))
    [("lr", PNone); ("batch", PObj (CVal (VInt 32)))]%string
  = [("lr", PObj (CVal (VFloat (1 # 10000))));
     ("batch", PObj (CVal (VInt 32)))]%string.
Proof.
  apply (resolved_tree_is_recovered demo_sampler
           (CMap [("lr", CMap [("optuna_type", CVal (VStr "float"));
                               ("low", CVal (VFloat (1 # 10000)));
                               ("high", CVal (VFloat (1 # 10)))]);
                  ("batch", CMap [("optuna_type", CVal (VStr "const"));
                                  ("value", CVal (VInt 32))])]%string)
           O 1%nat).
  - reflexivity.
  - simpl. repeat constructor; simpl; intuition discriminate.
  - reflexivity.
  - reflexivity.
Defined.

Lemma del_removes {V : Type} (k : string) (d d' : Dict.t V) :
  NoDup (Dict.keys d) -> Dict.del k d = Return d' -> Dict.get k d' = None.
Proof.
  revert d'. induction d as [|[k0 v0] d IH]; simpl; intros d' ND E.
  - discriminate.
  - unfold Dict.keys in ND. simpl in ND. inversion ND as [|? ? N ND']; subst.
    destruct (String.eqb_spec k k0) as [->|Nk].
    + injection E as <-. apply get_none_keys. exact N.
    + destruct (Dict.del k d) as [d1|] eqn:E1; [|discriminate].
      simpl in E. injection E as <-. simpl.
      destruct (String.eqb_spec k k0); [contradiction|].
      apply IH; [exact ND'|reflexivity].
Qed.

(** X20: the keyword arguments with which the sampler is asked for a leaf
    are the fields of the leaf without ['optuna_type'] and with ['name'] set
    to the key of the leaf, which overrides a ['name'] that the leaf carries. *)
Theorem sampler_request_of_leaf
  (S : Sampler) (name : string) (fields : Dict.t cfg) (optuna_type : cfg) :
  NoDup (Dict.keys fields) ->
  Dict.get "optuna_type" fields = Some optuna_type ->
  exists kwargs,
    (forall (acc : pdict) (trial : Trial S),
       optimization_turn S name (CMap fields) (acc, trial)
       = get_optuna_param_for_type S name optuna_type kwargs acc trial) /\
    Dict.get "name" kwargs = Some (CVal (VStr name)) /\
    Dict.get "optuna_type" kwargs = None /\
    (forall k, k <> "name"%string -> k <> "optuna_type"%string ->
       Dict.get k kwargs = Dict.get k fields).
Proof.
  intros ND G.
  assert (M : Dict.mem "optuna_type" fields = true).
  { apply mem_true_get. exists optuna_type. exact G. }
  destruct (del_present "optuna_type" fields M) as [d' E].
  exists (Dict.set "name" (CVal (VStr name)) d'). repeat split.
  - intros acc trial.
    unfold optimization_turn, kwargs_of_leaf, Dict.item. rewrite M, E, G. reflexivity.
  - apply get_set_same.
  - rewrite get_set_other by discriminate. exact (del_removes _ _ _ ND E).
  - intros k N1 N2. rewrite get_set_other by exact N1.
    exact (get_del_other "optuna_type" k fields d' E N2).
Qed.

Lemma sampler_request_of_leaf_witness :
  exists kwargs,
    (forall (acc : pdict) (trial : Trial demo_sampler),
       optimization_turn demo_sampler "hidden"
         (CMap [("optuna_type", CVal (VStr "int")); ("name", CVal (VStr "h"));
                ("low", CVal (VInt 8)); ("high", CVal (VInt 64))]%string)
         (acc, trial)
       = get_optuna_param_for_type demo_sampler "hidden" (CVal (VStr "int"))
           kwargs acc trial) /\
    Dict.get "name" kwargs = Some (CVal (VStr "hidden")) /\
    Dict.get "optuna_type" kwargs = None /\
    (forall k, k <> "name"%string -> k <> "optuna_type"%string ->
       Dict.get k kwargs
       = Dict.get k [("optuna_type", CVal (VStr "int")); ("name", CVal (VStr "h"));
                     ("low", CVal (VInt 8)); ("high", CVal (VInt 64))]%string).
Proof.
  apply (sampler_request_of_leaf demo_sampler "hidden"
           [("optuna_type", CVal (VStr "int")); ("name", CVal (VStr "h"));
            ("low", CVal (VInt 8)); ("high", CVal (VInt 64))]%string
           (CVal (VStr "int"))).
  - unfold Dict.keys. simpl. repeat constructor; simpl; intuition discriminate.
  - reflexivity.
Defined.

End UtilsPipeline.

(** ** build_dataframe_metrics *)

Module FramesSpec.
Import Frames.
Import DictFacts.

Section Build.
Variable P : Pandas.

(** One turn of the loop over the splits. *)
Local Abbreviation split_turn metrics_dict :=
  (fun split (_ : Dict.t (list Q)) (_ : option (DataFrame P)) =>
     per_split <- Dict.item split metrics_dict ;;
     df_loc <- frame_of_split P split per_split ;;
     Return (Some df_loc)).

(** X21: the frame that [build_dataframe_metrics] returns is made of the
    last split alone: the frames of the splits before it are built and then
    lost, as the frames are concatenated after the loop. *)
Theorem build_dataframe_keeps_last_split
  (pre : Dict.t (Dict.t (list Q))) (split : string) (per_split : Dict.t (list Q))
  (df : DataFrame P) :
  NoDup (Dict.keys (pre ++ [(split, per_split)])) ->
  build_dataframe_metrics P (pre ++ [(split, per_split)]) = Return df ->
  build_dataframe_metrics P [(split, per_split)] = Return df.
Proof.
  intros ND H. unfold build_dataframe_metrics in *.
  rewrite UtilsTraversals.for_items_app in H.
  destruct (Dict.for_items (split_turn (pre ++ [(split, per_split)])) pre None)
    as [before|e]; [|discriminate].
  cbn [bind Dict.for_items] in H |- *.
  assert (G : Dict.item split (pre ++ [(split, per_split)]) = Return per_split).
  { unfold Dict.item. rewrite get_app.
    assert (N : Dict.get split pre = None).
    { apply get_none_keys. unfold Dict.keys in *. rewrite map_app in ND. simpl in ND.
      apply NoDup_remove_2 in ND. rewrite app_nil_r in ND. exact ND. }
    rewrite N. simpl. rewrite String.eqb_refl. reflexivity. }
  rewrite G in H. unfold Dict.item at 1. simpl Dict.get.
  rewrite String.eqb_refl. exact H.
Qed.

(** Built from an empty log, the function fails on [df_loc], unbound. *)
Lemma build_dataframe_of_nothing :
  build_dataframe_metrics P [] = Raise (UnboundLocalError "df_loc").
Proof. reflexivity. Qed.

End Build.

Lemma build_dataframe_keeps_last_split_witness :
  build_dataframe_metrics listed_frames [("test"%string, [("loss"%string, [1; 2])])]
  = Return [("loss"%string, 2%nat); ("split"%string, 2%nat); ("iter"%string, 2%nat)].
Proof.
  apply (build_dataframe_keeps_last_split listed_frames
           [("train"%string, [("loss"%string, [3; 4])])]
           "test" [("loss"%string, [1; 2])]).
  - unfold Dict.keys. simpl. repeat constructor; simpl; intuition discriminate.
  - reflexivity.
Defined.

End FramesSpec.
